(** * ai-code-view: the configuration subsystem

    A shallow embedding of [utils/config/defaults.ts], [utils/config/storage.ts],
    [utils/config/types.ts] and the [ConfigManager] class, followed by the
    properties of the site registry, the shortcut canonicalisation and the
    persistence adapter.

    Conventions.
    - A JavaScript string is a [string]: a sequence of code units, here the
      8-bit ones (U+0000 .. U+00FF).  Comparison is code unit by code unit.
    - [async] functions that touch [browser.storage.sync] are computations in
      the monad [M] over the storage cell; [throw] is the left injection.
    - Objects handed out by the storage API are fresh copies, so the only
      aliasing that matters is inside one call: [Array.prototype.sort] sorts
      in place, hence [formatShortcutString] returns the chord it was given
      together with the text. *)

From Stdlib Require Import String Ascii List ZArith Lia Bool Sorted Permutation.
From Stdlib Require Import Numbers.DecimalString.
Import ListNotations.

Local Open Scope string_scope.
Local Open Scope list_scope.

Infix "+s+" := String.append (at level 60, right associativity).

(** ** The string primitives of the runtime that the code calls *)

Module JsString.

(** [s.startsWith(p)], returning what follows [p]. *)
Fixpoint stripPrefix (p s : string) : option string :=
  match p, s with
  | EmptyString, _ => Some s
  | String a p', String b s' => if Ascii.eqb a b then stripPrefix p' s' else None
  | String _ _, EmptyString => None
  end.

(** The first occurrence of [pat] in [s], as the text before and after it. *)
Fixpoint search (pat s : string) : option (string * string) :=
  match stripPrefix pat s with
  | Some rest => Some (EmptyString, rest)
  | None =>
      match s with
      | EmptyString => None
      | String c s' =>
          match search pat s' with
          | Some (before, after) => Some (String c before, after)
          | None => None
          end
      end
  end.

(** [s.includes(pat)] *)
Definition includes (pat s : string) : bool :=
  match search pat s with Some _ => true | None => false end.

(** GetSubstitution for a string pattern: there are no captures, so only
    [$$], [$&], [$`] and [$'] are special in the replacement text. *)
Fixpoint getSubstitution (matched before after repl : string) : string :=
  match repl with
  | EmptyString => EmptyString
  | String "$" (String "$" r) => String "$" (getSubstitution matched before after r)
  | String "$" (String "&" r) => matched +s+ getSubstitution matched before after r
  | String "$" (String "`" r) => before +s+ getSubstitution matched before after r
  | String "$" (String "'" r) => after +s+ getSubstitution matched before after r
  | String c r => String c (getSubstitution matched before after r)
  end.

(** [s.replace(pat, repl)] with a string pattern: the first occurrence only. *)
Definition replace (pat repl s : string) : string :=
  match search pat s with
  | None => s
  | Some (before, after) => before +s+ getSubstitution pat before after repl +s+ after
  end.

(** [s.split(sep)] for a separator of one code unit. *)
Fixpoint split (sep : ascii) (s : string) : list string :=
  match s with
  | EmptyString => [EmptyString]
  | String c s' =>
      if Ascii.eqb c sep then EmptyString :: split sep s'
      else match split sep s' with
           | h :: t => String c h :: t
           | [] => [String c EmptyString]
           end
  end.

(** [parts.join(sep)] *)
Definition join (sep : string) (parts : list string) : string :=
  String.concat sep parts.

(** WhiteSpace and LineTerminator code units below U+0100. *)
Definition isWhiteSpace (c : ascii) : bool :=
  let n := nat_of_ascii c in
  (((9 <=? n) && (n <=? 13)) || (n =? 32) || (n =? 160))%nat.

Definition isLineTerminator (c : ascii) : bool :=
  let n := nat_of_ascii c in ((n =? 10) || (n =? 13))%nat.

Fixpoint trimStart (s : string) : string :=
  match s with
  | EmptyString => EmptyString
  | String c s' => if isWhiteSpace c then trimStart s' else s
  end.

Fixpoint trimEnd (s : string) : string :=
  match s with
  | EmptyString => EmptyString
  | String c s' =>
      match trimEnd s' with
      | EmptyString => if isWhiteSpace c then EmptyString else String c EmptyString
      | r => String c r
      end
  end.

(** [s.trim()] *)
Definition trim (s : string) : string := trimEnd (trimStart s).

(** [s.toLowerCase()] on code units below U+0100. *)
Definition lowerChar (c : ascii) : ascii :=
  let n := nat_of_ascii c in
  if (((65 <=? n) && (n <=? 90)) || ((192 <=? n) && (n <=? 222) && negb (n =? 215)))%nat
  then ascii_of_nat (n + 32) else c.

Fixpoint toLowerCase (s : string) : string :=
  match s with
  | EmptyString => EmptyString
  | String c s' => String (lowerChar c) (toLowerCase s')
  end.

(** [xs.sort()] with the default comparison, on an array of strings.  The
    order is total and equal strings are identical, so every sorting
    algorithm gives this list. *)
Fixpoint insert (x : string) (l : list string) : list string :=
  match l with
  | [] => [x]
  | y :: t => if String.leb x y then x :: l else y :: insert x t
  end.

Fixpoint sort (l : list string) : list string :=
  match l with
  | [] => []
  | x :: t => insert x (sort t)
  end.

(** [xs.includes(x)] on an array of strings. *)
Definition arrayIncludes (x : string) (xs : list string) : bool :=
  existsb (String.eqb x) xs.

End JsString.

(** ** types.ts *)

(** [ShortcutKey], also the type of [ServiceSite.shortcuts].  A document
    written by an older version may lack [enabled]: [None] is [undefined]. *)
Module ShortcutKey.
Record t : Type := mk {
  key : string;
  modifiers : list string;
  enabled : option bool
}.
End ShortcutKey.

Module ServiceSite.
Record t : Type := mk {
  id : string;
  name : string;
  description : string;
  category : string;
  urlTemplate : string;
  icon : string;
  enabled : bool;
  order : Z;
  isBuiltIn : bool;
  shortcuts : option ShortcutKey.t
}.
End ServiceSite.

(** [ExtensionSettings]; a stored or imported settings object may lack any of
    the keys, [None] is a key that is not there. *)
Module ExtensionSettings.
Record t : Type := mk {
  defaultSiteId : option string;
  openInNewTab : option bool;
  showOnHover : option bool;
  enableShortcuts : option bool
}.
End ExtensionSettings.

Module ExtensionConfig.
Record t : Type := mk {
  sites : list ServiceSite.t;
  settings : ExtensionSettings.t;
  version : option string
}.
End ExtensionConfig.

(** [CreateSiteInput = Omit<ServiceSite, 'id' | 'isBuiltIn' | 'order'>] *)
Module CreateSiteInput.
Record t : Type := mk {
  name : string;
  description : string;
  category : string;
  urlTemplate : string;
  icon : string;
  enabled : bool;
  shortcuts : option ShortcutKey.t
}.
End CreateSiteInput.

(** [UpdateSiteInput = Partial<Omit<ServiceSite, 'id' | 'isBuiltIn'>>] *)
Module UpdateSiteInput.
Record t : Type := mk {
  name : option string;
  description : option string;
  category : option string;
  urlTemplate : option string;
  icon : option string;
  enabled : option bool;
  order : option Z;
  shortcuts : option ShortcutKey.t
}.
End UpdateSiteInput.

Module ShortcutConflict.
Record t : Type := mk {
  siteId : string;
  siteName : string;
  shortcut : ShortcutKey.t
}.
End ShortcutConflict.

(** ** Values as the storage and [JSON.parse] hand them over

    [isValidConfig] receives an [any].  The value is modelled as deep as the
    guard looks: what kind of value it is, what kind of value its [sites] and
    [settings] properties are.  An array in the place of [settings] passes
    [typeof x === 'object']: it is a [SettingsObject] with none of the four
    keys. *)
Inductive Prim : Type :=
| PNull
| PBool (b : bool)
| PNum (n : Z)
| PStr (s : string).

Inductive SitesField : Type :=
| SitesUndefined
| SitesPrim (p : Prim)
| SitesObject
| SitesArray (l : list ServiceSite.t).

Inductive SettingsField : Type :=
| SettingsUndefined
| SettingsPrim (p : Prim)
| SettingsObject (s : ExtensionSettings.t).

Record RawObject : Type := mkRaw {
  raw_sites : SitesField;
  raw_settings : SettingsField;
  raw_version : option string;
  raw_exportDate : option string
}.

Inductive JsValue : Type :=
| JsUndefined
| JsPrim (p : Prim)
| JsArray
| JsObject (o : RawObject).

(** A JSON text is the value it parses to, [None] when it is not JSON;
    [JSON.stringify] and [JSON.parse] are the runtime's. *)
Definition JsonText : Type := option JsValue.

(** ** Errors and the storage monad *)

Inductive Error : Type :=
| MaxCustomSitesReached
| SiteNameEmpty
| InvalidUrlTemplate
| InvalidCategory
| IconEmpty
| SiteIdExists
| SiteDoesNotExist
| BuiltInNotDeletable
| SitesDoNotExist (missingIds : list string)
| ShortcutConflictError (siteNames : list string)
| InvalidConfigurationFormat
| InvalidImportedFormat
| JsonSyntaxError
| StorageFailure.

(** The text of [new Error(...)]; the two errors of the runtime have a text
    of its choosing. *)
Definition message (e : Error) : string :=
  match e with
  | MaxCustomSitesReached => "Maximum 20 custom sites allowed"
  | SiteNameEmpty => "Site name cannot be empty"
  | InvalidUrlTemplate => "Invalid URL template format, must contain {REPO_PATH} placeholder"
  | InvalidCategory => "Site category must be source or ai"
  | IconEmpty => "Icon cannot be empty"
  | SiteIdExists => "Site ID already exists"
  | SiteDoesNotExist => "Site does not exist"
  | BuiltInNotDeletable => "Built-in sites cannot be deleted, only disabled"
  | SitesDoNotExist missingIds => "Sites do not exist: " +s+ String.concat ", " missingIds
  | ShortcutConflictError siteNames => "Shortcut conflict: " +s+ String.concat ", " siteNames
  | InvalidConfigurationFormat => "Invalid configuration format"
  | InvalidImportedFormat => "Invalid imported configuration format"
  | JsonSyntaxError => "SyntaxError"
  | StorageFailure => "Error"
  end.

(** The record kept under [STORAGE_KEYS.CONFIG]; [JsUndefined] when there is
    none.  [getFails] and [setFails] say whether [browser.storage.sync.get]
    and [.set] throw. *)
Record Storage : Type := mkStorage {
  item : JsValue;
  getFails : bool;
  setFails : bool
}.

Definition M (A : Type) : Type := Storage -> (Error + A) * Storage.

Definition ret {A : Type} (a : A) : M A := fun st => (inr a, st).

Definition throw {A : Type} (e : Error) : M A := fun st => (inl e, st).

Definition bind {A B : Type} (m : M A) (k : A -> M B) : M B :=
  fun st =>
    match m st with
    | (inr a, st') => k a st'
    | (inl e, st') => (inl e, st')
    end.

(** [try { m } catch (error) { h }] *)
Definition tryCatch {A : Type} (m : M A) (h : Error -> M A) : M A :=
  fun st =>
    match m st with
    | (inr a, st') => (inr a, st')
    | (inl e, st') => h e st'
    end.

Notation "x <- m ;; k" := (bind m (fun x => k))
  (at level 61, m at next level, right associativity).
Notation "m ;;; k" := (bind m (fun _ => k))
  (at level 61, right associativity).

Definition storageGet : M JsValue :=
  fun st => if getFails st then (inl StorageFailure, st) else (inr (item st), st).

Definition storageSet (v : JsValue) : M unit :=
  fun st =>
    if setFails st then (inl StorageFailure, st)
    else (inr tt, mkStorage v (getFails st) (setFails st)).

(** ** defaults.ts *)

Module Defaults.

Definition ctrlShift (k : string) : option ShortcutKey.t :=
  Some (ShortcutKey.mk k ["ctrl"; "shift"] (Some true)).

Definition DEFAULT_SITES : list ServiceSite.t :=
  [ ServiceSite.mk "github1s" "GitHub1s" "sites.descriptions.github1s" "source"
      "https://github1s.com/{REPO_PATH}" "github" true 1 true (ctrlShift "1");
    ServiceSite.mk "github_dev" "GitHub.dev" "sites.descriptions.github_dev" "source"
      "https://github.dev/{REPO_PATH}/" "github" true 2 true (ctrlShift "2");
    ServiceSite.mk "sourcegraph" "Sourcegraph" "sites.descriptions.sourcegraph" "source"
      "https://sourcegraph.com/github.com/{REPO_PATH}" "search" true 3 true (ctrlShift "3");
    ServiceSite.mk "zread" "ZRead" "sites.descriptions.zread" "ai"
      "https://zread.ai/{REPO_PATH}" "external-link" true 4 true (ctrlShift "4");
    ServiceSite.mk "deepwiki" "DeepWiki" "sites.descriptions.deepwiki" "ai"
      "https://deepwiki.com/{REPO_PATH}" "file-text" true 5 true (ctrlShift "5") ].

Definition DEFAULT_SETTINGS : ExtensionSettings.t :=
  ExtensionSettings.mk (Some "github_dev") (Some true) (Some false) (Some true).

Definition DEFAULT_CONFIG : ExtensionConfig.t :=
  ExtensionConfig.mk DEFAULT_SITES DEFAULT_SETTINGS (Some "1.0.0").

(** [URL_TEMPLATE_REGEX = /^https?:\/\/.+\{repoPath\}.*/], as its [test]:
    [dotsThen pat] is [.*] followed by [pat], and [.] is any code unit that
    is not a line terminator. *)
Fixpoint dotsThen (pat s : string) : bool :=
  match JsString.stripPrefix pat s with
  | Some _ => true
  | None =>
      match s with
      | EmptyString => false
      | String c s' => negb (JsString.isLineTerminator c) && dotsThen pat s'
      end
  end.

Definition dotPlusThen (pat s : string) : bool :=
  match s with
  | EmptyString => false
  | String c s' => negb (JsString.isLineTerminator c) && dotsThen pat s'
  end.

Definition URL_TEMPLATE_REGEX_test (s : string) : bool :=
  match JsString.stripPrefix "https://" s with
  | Some rest => dotPlusThen "{repoPath}" rest
  | None =>
      match JsString.stripPrefix "http://" s with
      | Some rest => dotPlusThen "{repoPath}" rest
      | None => false
      end
  end.

Definition MAX_CUSTOM_SITES : nat := 20.

(** [MODIFIER_KEYS.map(m => m.value)] *)
Definition MODIFIER_KEYS : list string := ["ctrl"; "alt"; "shift"; "meta"].

Definition SHORTCUT_KEYS : list string :=
  [ "1"; "2"; "3"; "4"; "5"; "6"; "7"; "8"; "9"; "0";
    "a"; "b"; "c"; "d"; "e"; "f"; "g"; "h"; "i"; "j"; "k"; "l"; "m";
    "n"; "o"; "p"; "q"; "r"; "s"; "t"; "u"; "v"; "w"; "x"; "y"; "z";
    "F1"; "F2"; "F3"; "F4"; "F5"; "F6"; "F7"; "F8"; "F9"; "F10"; "F11"; "F12" ].

End Defaults.

(** ** storage.ts *)

Module StorageManager.

(** [getDefaultConfig]: [JSON.parse(JSON.stringify(DEFAULT_CONFIG))], a copy
    that shares nothing with the constant. *)
Definition getDefaultConfig : ExtensionConfig.t := Defaults.DEFAULT_CONFIG.

(** [isValidConfig(config): config is ExtensionConfig].  The guard and its
    narrowing in one: [Some c] when the test holds, [c] being the value read
    at the type the guard asserts.  A primitive is falsy or not of type
    ['object'], and an array has no [sites]. *)
Definition isValidConfig (config : JsValue) : option ExtensionConfig.t :=
  match config with
  | JsUndefined => None
  | JsPrim _ => None
  | JsArray => None
  | JsObject o =>
      match raw_sites o with
      | SitesArray l =>
          match raw_settings o with
          | SettingsObject s => Some (ExtensionConfig.mk l s (raw_version o))
          | SettingsPrim _ => None
          | SettingsUndefined => None
          end
      | SitesObject => None
      | SitesPrim _ => None
      | SitesUndefined => None
      end
  end.

(** A typed configuration as a value. *)
Definition toJs (config : ExtensionConfig.t) : RawObject :=
  mkRaw (SitesArray (ExtensionConfig.sites config))
        (SettingsObject (ExtensionConfig.settings config))
        (ExtensionConfig.version config)
        None.

(** [config.version !== DEFAULT_CONFIG.version]; a document without a
    version has [undefined] there. *)
Definition versionDiffers (v : option string) : bool :=
  match v, ExtensionConfig.version Defaults.DEFAULT_CONFIG with
  | Some a, Some b => negb (String.eqb a b)
  | None, None => false
  | _, _ => true
  end.

(** [{ ...site.shortcuts, enabled: enabled !== undefined ? enabled : true }] *)
Definition migrateShortcut (sc : ShortcutKey.t) : ShortcutKey.t :=
  ShortcutKey.mk (ShortcutKey.key sc) (ShortcutKey.modifiers sc)
    (match ShortcutKey.enabled sc with
     | Some b => Some b
     | None => Some true
     end).

(** The function [migrateConfig] maps over [config.sites].  An element is a
    site here; [Untyped.migrateElement] below has the element [null] too, on
    which the function throws. *)
Definition migrateSite (site : ServiceSite.t) : ServiceSite.t :=
  ServiceSite.mk (ServiceSite.id site) (ServiceSite.name site)
    (ServiceSite.description site) (ServiceSite.category site)
    (ServiceSite.urlTemplate site) (ServiceSite.icon site)
    (ServiceSite.enabled site) (ServiceSite.order site)
    (ServiceSite.isBuiltIn site)
    (match ServiceSite.shortcuts site with
     | Some sc => Some (migrateShortcut sc)
     | None => None
     end).

Definition migrateConfig (config : ExtensionConfig.t) : ExtensionConfig.t :=
  if versionDiffers (ExtensionConfig.version config) then
    ExtensionConfig.mk (map migrateSite (ExtensionConfig.sites config))
      (ExtensionConfig.settings config)
      (ExtensionConfig.version Defaults.DEFAULT_CONFIG)
  else config.

(** [getConfig]: whatever is thrown inside the [try] ends in the defaults. *)
Definition getConfig : M ExtensionConfig.t :=
  tryCatch
    (config <- storageGet ;;
     match isValidConfig config with
     | Some c => ret (migrateConfig c)
     | None => ret getDefaultConfig
     end)
    (fun _ => ret getDefaultConfig).

(** [saveConfig]: the guard, then the write of [{ ...config, version }];
    the [catch] logs and throws the error again. *)
Definition saveConfig (config : ExtensionConfig.t) : M unit :=
  match isValidConfig (JsObject (toJs config)) with
  | None => throw InvalidConfigurationFormat
  | Some _ =>
      storageSet
        (JsObject (toJs (ExtensionConfig.mk (ExtensionConfig.sites config)
                           (ExtensionConfig.settings config)
                           (ExtensionConfig.version Defaults.DEFAULT_CONFIG))))
  end.

Definition getSites : M (list ServiceSite.t) :=
  config <- getConfig ;; ret (ExtensionConfig.sites config).

Definition saveSites (sites : list ServiceSite.t) : M unit :=
  config <- getConfig ;;
  saveConfig (ExtensionConfig.mk sites (ExtensionConfig.settings config)
                (ExtensionConfig.version config)).

Definition getSettings : M ExtensionSettings.t :=
  config <- getConfig ;; ret (ExtensionConfig.settings config).

Definition saveSettings (settings : ExtensionSettings.t) : M unit :=
  config <- getConfig ;;
  saveConfig (ExtensionConfig.mk (ExtensionConfig.sites config) settings
                (ExtensionConfig.version config)).

Definition resetToDefault : M ExtensionConfig.t :=
  let defaultConfig := getDefaultConfig in
  saveConfig defaultConfig ;;; ret defaultConfig.

(** [clearAll]: [browser.storage.sync.remove] of every key. *)
Definition clearAll : M unit :=
  fun st =>
    if setFails st then (inl StorageFailure, st)
    else (inr tt, mkStorage JsUndefined (getFails st) (setFails st)).

(** [exportConfig]; [exportDate] is [new Date().toISOString()], the clock
    being the caller's in the model. *)
Definition exportConfig (exportDate : string) : M JsonText :=
  config <- getConfig ;;
  ret (Some (JsObject (mkRaw (SitesArray (ExtensionConfig.sites config))
                         (SettingsObject (ExtensionConfig.settings config))
                         (ExtensionConfig.version config)
                         (Some exportDate)))).

(** [{ ...defaults, ...overrides }] on settings objects. *)
Definition spreadSettings (defaults overrides : ExtensionSettings.t) : ExtensionSettings.t :=
  let pick {A : Type} (o d : option A) : option A :=
    match o with Some x => Some x | None => d end in
  ExtensionSettings.mk
    (pick (ExtensionSettings.defaultSiteId overrides) (ExtensionSettings.defaultSiteId defaults))
    (pick (ExtensionSettings.openInNewTab overrides) (ExtensionSettings.openInNewTab defaults))
    (pick (ExtensionSettings.showOnHover overrides) (ExtensionSettings.showOnHover defaults))
    (pick (ExtensionSettings.enableShortcuts overrides) (ExtensionSettings.enableShortcuts defaults)).

(** [mergeWithDefault(config: Partial<ExtensionConfig>)]: [sites] and
    [settings] may be missing from a partial configuration. *)
Definition mergeWithDefault (sites : option (list ServiceSite.t))
    (settings : option ExtensionSettings.t) : ExtensionConfig.t :=
  let defaultConfig := getDefaultConfig in
  ExtensionConfig.mk
    (match sites with
     | Some l => l
     | None => ExtensionConfig.sites defaultConfig
     end)
    (match settings with
     | Some s => spreadSettings (ExtensionConfig.settings defaultConfig) s
     | None => ExtensionConfig.settings defaultConfig
     end)
    (ExtensionConfig.version Defaults.DEFAULT_CONFIG).

Definition importConfig (configJson : JsonText) : M ExtensionConfig.t :=
  match configJson with
  | None => throw JsonSyntaxError
  | Some importedConfig =>
      match isValidConfig importedConfig with
      | None => throw InvalidImportedFormat
      | Some c =>
          let mergedConfig :=
            mergeWithDefault (Some (ExtensionConfig.sites c))
                             (Some (ExtensionConfig.settings c)) in
          saveConfig mergedConfig ;;; ret mergedConfig
      end
  end.

End StorageManager.

(** ** The stored value before it is typed

    [isValidConfig] looks at [sites] no further than [Array.isArray], and
    the type it asserts is not checked at run time: an element of a stored
    array need not be a site.  The storage holds JSON, so such an element can
    be [null], and [site.shortcuts] on [null] throws a TypeError.  This
    module has [getConfig] over stored values whose [sites] hold sites and
    [null]s; on the values of [Storage], where every element is a site, it
    is [StorageManager.getConfig] ([ofStorage] and [ofConfig] embed them). *)

Module Untyped.

Inductive Element : Type :=
| Null
| Site (site : ServiceSite.t).

Inductive Sites : Type :=
| Undefined
| Primitive (p : Prim)
| Object
| Array (l : list Element).

Record Document : Type := mkDocument {
  doc_sites : Sites;
  doc_settings : SettingsField;
  doc_version : option string
}.

Inductive Value : Type :=
| VUndefined
| VPrim (p : Prim)
| VArray
| VObject (d : Document).

(** A configuration as the code holds it after the guard: the elements of
    [sites] are what was stored. *)
Record Config : Type := mkConfig {
  sites : list Element;
  settings : ExtensionSettings.t;
  version : option string
}.

(** The value kept under the key, and whether the read throws. *)
Record Store : Type := mkStore {
  stored : Value;
  getThrows : bool
}.

(** What a [throw] inside [getConfig] can be. *)
Inductive Thrown : Type :=
| StorageError
| TypeError.

(** [browser.storage.sync.get] and the read of the key *)
Definition storageGet (st : Store) : Thrown + Value :=
  if getThrows st then inl StorageError else inr (stored st).

Definition isValidConfig (config : Value) : option Config :=
  match config with
  | VUndefined => None
  | VPrim _ => None
  | VArray => None
  | VObject d =>
      match doc_sites d with
      | Array l =>
          match doc_settings d with
          | SettingsObject s => Some (mkConfig l s (doc_version d))
          | SettingsPrim _ => None
          | SettingsUndefined => None
          end
      | Object => None
      | Primitive _ => None
      | Undefined => None
      end
  end.

(** The callback of the [map] in [migrateConfig]: [site.shortcuts] throws on
    [null]. *)
Definition migrateElement (e : Element) : Thrown + Element :=
  match e with
  | Null => inl TypeError
  | Site site => inr (Site (StorageManager.migrateSite site))
  end.

(** [config.sites.map(...)]: the first call that throws ends the [map]. *)
Fixpoint migrateElements (l : list Element) : Thrown + list Element :=
  match l with
  | [] => inr []
  | e :: rest =>
      match migrateElement e with
      | inl thrown => inl thrown
      | inr e' =>
          match migrateElements rest with
          | inl thrown => inl thrown
          | inr rest' => inr (e' :: rest')
          end
      end
  end.

Definition migrateConfig (config : Config) : Thrown + Config :=
  if StorageManager.versionDiffers (version config) then
    match migrateElements (sites config) with
    | inl thrown => inl thrown
    | inr migratedSites =>
        inr (mkConfig migratedSites (settings config)
               (ExtensionConfig.version Defaults.DEFAULT_CONFIG))
    end
  else inr config.

(** A typed configuration among the untyped ones. *)
Definition ofConfig (config : ExtensionConfig.t) : Config :=
  mkConfig (map Site (ExtensionConfig.sites config)) (ExtensionConfig.settings config)
    (ExtensionConfig.version config).

Definition getDefaultConfig : Config := ofConfig StorageManager.getDefaultConfig.

(** The [try] block of [getConfig]: [inl] when something in it throws,
    [inr (Some c)] when it returns [c], [inr None] when it is left without a
    [return]. *)
Definition tryBlock (st : Store) : Thrown + option Config :=
  match storageGet st with
  | inl thrown => inl thrown
  | inr config =>
      match isValidConfig config with
      | Some c =>
          match migrateConfig c with
          | inl thrown => inl thrown
          | inr migrated => inr (Some migrated)
          end
      | None => inr None
      end
  end.

(** [getConfig]: the [catch] logs, and what follows the [try] returns the
    defaults. *)
Definition getConfig (st : Store) : (Thrown + Config) * Store :=
  match tryBlock st with
  | inr (Some config) => (inr config, st)
  | inr None => (inr getDefaultConfig, st)
  | inl _ => (inr getDefaultConfig, st)
  end.

(** The values of [Storage] among the untyped ones. *)
Definition ofSites (f : SitesField) : Sites :=
  match f with
  | SitesUndefined => Undefined
  | SitesPrim p => Primitive p
  | SitesObject => Object
  | SitesArray l => Array (map Site l)
  end.

Definition ofValue (v : JsValue) : Value :=
  match v with
  | JsUndefined => VUndefined
  | JsPrim p => VPrim p
  | JsArray => VArray
  | JsObject o => VObject (mkDocument (ofSites (raw_sites o)) (raw_settings o) (raw_version o))
  end.

Definition ofStorage (st : Storage) : Store :=
  mkStore (ofValue (item st)) (getFails st).

(** The sites of a list of elements, when every element is one. *)
Fixpoint allSites (l : list Element) : option (list ServiceSite.t) :=
  match l with
  | [] => Some []
  | Null :: _ => None
  | Site site :: rest =>
      match allSites rest with
      | Some sites => Some (site :: sites)
      | None => None
      end
  end.

End Untyped.

(** ** The [ConfigManager] class *)

Module ConfigManager.

(** *** Array and object helpers *)

(** [xs.findIndex(f)] together with [xs[index]]. *)
Fixpoint findIndex {A : Type} (f : A -> bool) (l : list A) : option (nat * A) :=
  match l with
  | [] => None
  | x :: t =>
      if f x then Some (O, x)
      else match findIndex f t with
           | Some (i, y) => Some (S i, y)
           | None => None
           end
  end.

(** [xs[i] = v] for an index inside the array. *)
Fixpoint setAt {A : Type} (i : nat) (v : A) (l : list A) : list A :=
  match l, i with
  | [], _ => []
  | _ :: t, O => v :: t
  | x :: t, S j => x :: setAt j v t
  end.

(** [xs.map((x, index) => f(x, index))], [index] counted from [start]. *)
Fixpoint mapi {A B : Type} (f : A -> nat -> B) (start : nat) (l : list A) : list B :=
  match l with
  | [] => []
  | x :: t => f x start :: mapi f (S start) t
  end.

Definition hasId (id : string) (site : ServiceSite.t) : bool :=
  String.eqb (ServiceSite.id site) id.

(** [{ ...site, order }] *)
Definition withOrder (site : ServiceSite.t) (order : Z) : ServiceSite.t :=
  ServiceSite.mk (ServiceSite.id site) (ServiceSite.name site)
    (ServiceSite.description site) (ServiceSite.category site)
    (ServiceSite.urlTemplate site) (ServiceSite.icon site)
    (ServiceSite.enabled site) order (ServiceSite.isBuiltIn site)
    (ServiceSite.shortcuts site).

(** [{ ...site, shortcuts }] *)
Definition withShortcuts (site : ServiceSite.t) (shortcuts : option ShortcutKey.t)
    : ServiceSite.t :=
  ServiceSite.mk (ServiceSite.id site) (ServiceSite.name site)
    (ServiceSite.description site) (ServiceSite.category site)
    (ServiceSite.urlTemplate site) (ServiceSite.icon site)
    (ServiceSite.enabled site) (ServiceSite.order site) (ServiceSite.isBuiltIn site)
    shortcuts.

Definition orElse {A : Type} (o : option A) (d : A) : A :=
  match o with Some x => x | None => d end.

(** [{ ...currentSite, ...updates }] *)
Definition spreadUpdates (currentSite : ServiceSite.t) (updates : UpdateSiteInput.t)
    : ServiceSite.t :=
  ServiceSite.mk (ServiceSite.id currentSite)
    (orElse (UpdateSiteInput.name updates) (ServiceSite.name currentSite))
    (orElse (UpdateSiteInput.description updates) (ServiceSite.description currentSite))
    (orElse (UpdateSiteInput.category updates) (ServiceSite.category currentSite))
    (orElse (UpdateSiteInput.urlTemplate updates) (ServiceSite.urlTemplate currentSite))
    (orElse (UpdateSiteInput.icon updates) (ServiceSite.icon currentSite))
    (orElse (UpdateSiteInput.enabled updates) (ServiceSite.enabled currentSite))
    (orElse (UpdateSiteInput.order updates) (ServiceSite.order currentSite))
    (ServiceSite.isBuiltIn currentSite)
    (match UpdateSiteInput.shortcuts updates with
     | Some sc => Some sc
     | None => ServiceSite.shortcuts currentSite
     end).

(** ToBoolean of an optional string: [undefined] and [''] are falsy. *)
Definition truthyStr (o : option string) : bool :=
  match o with
  | Some s => negb (String.eqb s EmptyString)
  | None => false
  end.

(** [a || b] on strings *)
Definition strOr (o : option string) (d : string) : string :=
  match o with
  | Some s => if String.eqb s EmptyString then d else s
  | None => d
  end.

(** *** Helper methods *)

(** [validateSiteInput]: [Some e] when it throws [e]. *)
Definition validateSiteInput (input : CreateSiteInput.t) : option Error :=
  if String.eqb (CreateSiteInput.name input) EmptyString
     || Nat.eqb (String.length (JsString.trim (CreateSiteInput.name input))) 0
  then Some SiteNameEmpty
  else if String.eqb (CreateSiteInput.urlTemplate input) EmptyString
          || negb (Defaults.URL_TEMPLATE_REGEX_test (CreateSiteInput.urlTemplate input))
  then Some InvalidUrlTemplate
  else if negb (JsString.arrayIncludes (CreateSiteInput.category input) ["source"; "ai"])
  then Some InvalidCategory
  else if String.eqb (CreateSiteInput.icon input) EmptyString
          || Nat.eqb (String.length (JsString.trim (CreateSiteInput.icon input))) 0
  then Some IconEmpty
  else None.

Definition isLowerAlnum (c : ascii) : bool :=
  let n := nat_of_ascii c in
  (((97 <=? n) && (n <=? 122)) || ((48 <=? n) && (n <=? 57)))%nat.

(** [.replace(/[^a-z0-9]/g, '-')] *)
Fixpoint dashNonAlnum (s : string) : string :=
  match s with
  | EmptyString => EmptyString
  | String c s' => String (if isLowerAlnum c then c else "-"%char) (dashNonAlnum s')
  end.

(** [.replace(/-+/g, '-')] *)
Fixpoint collapseDashes (s : string) : string :=
  match s with
  | EmptyString => EmptyString
  | String c s' =>
      match s' with
      | String d _ =>
          if Ascii.eqb c "-" && Ascii.eqb d "-" then collapseDashes s'
          else String c (collapseDashes s')
      | EmptyString => String c EmptyString
      end
  end.

(** [.replace(/^-|-$/g, '')] *)
Fixpoint dropFinalDash (s : string) : string :=
  match s with
  | EmptyString => EmptyString
  | String c EmptyString => if Ascii.eqb c "-" then EmptyString else s
  | String c s' => String c (dropFinalDash s')
  end.

Definition stripEdgeDashes (s : string) : string :=
  match s with
  | String "-" s' => dropFinalDash s'
  | _ => dropFinalDash s
  end.

(** [generateSiteId]; [now] is [Date.now()]. *)
Definition generateSiteId (name : string) (now : Z) : string :=
  let base :=
    stripEdgeDashes (collapseDashes (dashNonAlnum (JsString.toLowerCase name))) in
  "custom-" +s+ base +s+ "-" +s+ NilZero.string_of_int (Z.to_int now).

(** *** Site management *)

Definition getSites : M (list ServiceSite.t) := StorageManager.getSites.

(** [Math.max(...sites.map(s => s.order), 0)] *)
Definition maxOrder (sites : list ServiceSite.t) : Z :=
  fold_right Z.max 0%Z (map ServiceSite.order sites).

(** The numbers of the code are IEEE doubles.  A double holds every integer
    of absolute value up to 2^53, and beyond that only the multiples of the
    power of two that leaves 53 binary digits.  [roundToNumber n] is the
    double nearest to the integer [n], a tie going to the one with the even
    mantissa: what [+] on two integer numbers returns when their sum is [n]. *)
Definition roundToNumber (n : Z) : Z :=
  let a := Z.abs n in
  if (a <=? 2 ^ 53)%Z then n
  else
    let ulp := (2 ^ (Z.log2 a - 52))%Z in
    let q := (a / ulp)%Z in
    let r := (a mod ulp)%Z in
    let mantissa :=
      if (2 * r <? ulp)%Z then q
      else if (ulp <? 2 * r)%Z then (q + 1)%Z
      else if Z.even q then q else (q + 1)%Z in
    (Z.sgn n * (mantissa * ulp))%Z.

Definition addSite (now : Z) (input : CreateSiteInput.t) : M ServiceSite.t :=
  sites <- getSites ;;
  let customSitesCount :=
    length (filter (fun site => negb (ServiceSite.isBuiltIn site)) sites) in
  if Nat.leb Defaults.MAX_CUSTOM_SITES customSitesCount then throw MaxCustomSitesReached
  else
    match validateSiteInput input with
    | Some e => throw e
    | None =>
        let id := generateSiteId (CreateSiteInput.name input) now in
        if existsb (hasId id) sites then throw SiteIdExists
        else
          let newSite :=
            ServiceSite.mk id (CreateSiteInput.name input)
              (CreateSiteInput.description input) (CreateSiteInput.category input)
              (CreateSiteInput.urlTemplate input) (CreateSiteInput.icon input)
              (CreateSiteInput.enabled input) (roundToNumber (maxOrder sites + 1)) false
              (CreateSiteInput.shortcuts input) in
          let updatedSites := sites ++ [newSite] in
          StorageManager.saveSites updatedSites ;;; ret newSite
    end.

Definition updateSite (id : string) (updates : UpdateSiteInput.t) : M ServiceSite.t :=
  sites <- getSites ;;
  match findIndex (hasId id) sites with
  | None => throw SiteDoesNotExist
  | Some (siteIndex, currentSite) =>
      let validation :=
        if truthyStr (UpdateSiteInput.name updates)
           || truthyStr (UpdateSiteInput.urlTemplate updates)
           || truthyStr (UpdateSiteInput.category updates)
           || truthyStr (UpdateSiteInput.icon updates)
        then
          validateSiteInput
            (CreateSiteInput.mk
               (strOr (UpdateSiteInput.name updates) (ServiceSite.name currentSite))
               (strOr (UpdateSiteInput.description updates)
                      (ServiceSite.description currentSite))
               (strOr (UpdateSiteInput.category updates) (ServiceSite.category currentSite))
               (strOr (UpdateSiteInput.urlTemplate updates)
                      (ServiceSite.urlTemplate currentSite))
               (strOr (UpdateSiteInput.icon updates) (ServiceSite.icon currentSite))
               (orElse (UpdateSiteInput.enabled updates) (ServiceSite.enabled currentSite))
               None)
        else None in
      match validation with
      | Some e => throw e
      | None =>
          let updatedSite := spreadUpdates currentSite updates in
          StorageManager.saveSites (setAt siteIndex updatedSite sites) ;;;
          ret updatedSite
      end
  end.

Definition deleteSite (id : string) : M unit :=
  sites <- getSites ;;
  match find (hasId id) sites with
  | None => throw SiteDoesNotExist
  | Some site =>
      if ServiceSite.isBuiltIn site then throw BuiltInNotDeletable
      else
        let updatedSites := filter (fun s => negb (hasId id s)) sites in
        StorageManager.saveSites updatedSites
  end.

Definition toggleSite (id : string) (enabled : bool) : M ServiceSite.t :=
  updateSite id (UpdateSiteInput.mk None None None None None (Some enabled) None None).

(** [new Map(sites.map(site => [site.id, site])).get(id)]: a later entry
    with the same key replaces an earlier one. *)
Definition siteMapGet (sites : list ServiceSite.t) (id : string) : option ServiceSite.t :=
  find (hasId id) (rev sites).

(** [siteIds.map((id, index) => ({ ...siteMap.get(id)!, order: index + 1 }))].
    The [None] case is not reached: the ids were checked before. *)
Fixpoint reorderListed (sites : list ServiceSite.t) (siteIds : list string) (index : nat)
    : list ServiceSite.t :=
  match siteIds with
  | [] => []
  | id :: rest =>
      match siteMapGet sites id with
      | Some site => withOrder site (Z.of_nat index + 1) :: reorderListed sites rest (S index)
      | None => reorderListed sites rest (S index)
      end
  end.

Definition reorderSites (siteIds : list string) : M (list ServiceSite.t) :=
  sites <- getSites ;;
  let existingIds := map ServiceSite.id sites in
  let missingIds := filter (fun id => negb (JsString.arrayIncludes id existingIds)) siteIds in
  if Nat.ltb 0 (length missingIds) then throw (SitesDoNotExist missingIds)
  else
    let reorderedSites := reorderListed sites siteIds 0 in
    let unorderedSites :=
      mapi (fun site index =>
              withOrder site (Z.of_nat (length reorderedSites) + Z.of_nat index + 1))
           0
           (filter (fun site => negb (JsString.arrayIncludes (ServiceSite.id site) siteIds))
                   sites) in
    let allSites := reorderedSites ++ unorderedSites in
    StorageManager.saveSites allSites ;;; ret allSites.

Definition generateSiteUrl (site : ServiceSite.t) (repoPath : string) : string :=
  JsString.replace "{REPO_PATH}" repoPath (ServiceSite.urlTemplate site).

(** *** Shortcut management *)

(** [formatShortcutString].  [shortcut.modifiers.sort()] sorts the array of
    the chord it is given, so the chord comes back with the text. *)
Definition formatShortcutString (shortcut : ShortcutKey.t) : string * ShortcutKey.t :=
  let modifiers := JsString.sort (ShortcutKey.modifiers shortcut) in
  (JsString.join "+" (modifiers ++ [ShortcutKey.key shortcut]),
   ShortcutKey.mk (ShortcutKey.key shortcut) modifiers (ShortcutKey.enabled shortcut)).

Definition parseShortcutString (shortcutStr : string) : option ShortcutKey.t :=
  let parts := JsString.split "+" shortcutStr in
  if Nat.ltb (length parts) 2 then None
  else
    let key := last parts EmptyString in
    let modifiers := removelast parts in
    Some (ShortcutKey.mk key modifiers (Some true)).

Definition validateShortcut (shortcut : ShortcutKey.t) : bool :=
  if Nat.eqb (length (ShortcutKey.modifiers shortcut)) 0 then false
  else if negb (forallb (fun m => JsString.arrayIncludes m Defaults.MODIFIER_KEYS)
                        (ShortcutKey.modifiers shortcut))
  then false
  else if negb (JsString.arrayIncludes (ShortcutKey.key shortcut) Defaults.SHORTCUT_KEYS)
  then false
  else true.

(** [site.shortcuts?.enabled] as a condition *)
Definition shortcutEnabled (site : ServiceSite.t) : bool :=
  match ServiceSite.shortcuts site with
  | Some sc => match ShortcutKey.enabled sc with Some b => b | None => false end
  | None => false
  end.

(** The [forEach] of [checkShortcutConflicts]: the conflicts found, and the
    sites as the loop leaves them. *)
Fixpoint scanConflicts (shortcutStr excludeSiteId : string) (sites : list ServiceSite.t)
    : list ShortcutConflict.t * list ServiceSite.t :=
  match sites with
  | [] => ([], [])
  | site :: rest =>
      let (conflicts, rest') := scanConflicts shortcutStr excludeSiteId rest in
      match ServiceSite.shortcuts site with
      | Some sc =>
          if negb (hasId excludeSiteId site) && shortcutEnabled site then
            let (existingShortcutStr, sc') := formatShortcutString sc in
            let site' := withShortcuts site (Some sc') in
            if String.eqb existingShortcutStr shortcutStr
            then (ShortcutConflict.mk (ServiceSite.id site) (ServiceSite.name site) sc'
                    :: conflicts, site' :: rest')
            else (conflicts, site' :: rest')
          else (conflicts, site :: rest')
      | None => (conflicts, site :: rest')
      end
  end.

(** [checkShortcutConflicts]: the conflicts, with the array of sites and the
    candidate chord as the call leaves them. *)
Definition checkShortcutConflicts (sites : list ServiceSite.t) (excludeSiteId : string)
    (shortcut : ShortcutKey.t)
    : list ShortcutConflict.t * (list ServiceSite.t * ShortcutKey.t) :=
  let (shortcutStr, shortcut') := formatShortcutString shortcut in
  let (conflicts, sites') := scanConflicts shortcutStr excludeSiteId sites in
  (conflicts, (sites', shortcut')).

Definition updateSiteShortcut (siteId : string) (shortcut : option ShortcutKey.t)
    : M ServiceSite.t :=
  sites <- getSites ;;
  match findIndex (hasId siteId) sites with
  | None => throw SiteDoesNotExist
  | Some (siteIndex, currentSite) =>
      let checked :=
        match shortcut with
        | Some sc =>
            if orElse (ShortcutKey.enabled sc) false then
              let '(conflicts, (sites', sc')) := checkShortcutConflicts sites siteId sc in
              (conflicts, (sites', Some sc'))
            else ([], (sites, shortcut))
        | None => ([], (sites, shortcut))
        end in
      let '(conflicts, (sites, shortcut)) := checked in
      if Nat.ltb 0 (length conflicts)
      then throw (ShortcutConflictError (map ShortcutConflict.siteName conflicts))
      else
        let updatedSite := withShortcuts (nth siteIndex sites currentSite) shortcut in
        StorageManager.saveSites (setAt siteIndex updatedSite sites) ;;;
        ret updatedSite
  end.

(** The loop of [getSuggestedShortcut] that collects [usedShortcuts]. *)
Fixpoint usedShortcuts (siteId : string) (sites : list ServiceSite.t) : list string :=
  match sites with
  | [] => []
  | site :: rest =>
      match ServiceSite.shortcuts site with
      | Some sc =>
          if negb (hasId siteId site) && shortcutEnabled site
          then fst (formatShortcutString sc) :: usedShortcuts siteId rest
          else usedShortcuts siteId rest
      | None => usedShortcuts siteId rest
      end
  end.

(** The [for ... of] loop of [getSuggestedShortcut]; [baseModifiers] is the
    one array every iteration formats and the result holds. *)
Fixpoint suggestFrom (used : list string) (baseModifiers : list string)
    (keys : list string) : option ShortcutKey.t :=
  match keys with
  | [] => None
  | key :: rest =>
      let (shortcutStr, formatted) :=
        formatShortcutString (ShortcutKey.mk key baseModifiers (Some true)) in
      let baseModifiers := ShortcutKey.modifiers formatted in
      if negb (JsString.arrayIncludes shortcutStr used)
      then Some (ShortcutKey.mk key baseModifiers (Some true))
      else suggestFrom used baseModifiers rest
  end.

Definition getSuggestedShortcut (siteId : string) : M (option ShortcutKey.t) :=
  sites <- getSites ;;
  let used := usedShortcuts siteId sites in
  ret (suggestFrom used ["ctrl"; "shift"]
         ["1"; "2"; "3"; "4"; "5"; "6"; "7"; "8"; "9"; "0"]).

(** *** Import and export *)

Definition exportConfig (exportDate : string) : M JsonText :=
  StorageManager.exportConfig exportDate.

Definition importConfig (configJson : JsonText) : M ExtensionConfig.t :=
  StorageManager.importConfig configJson.

(** *** The rest of the class *)

Definition getConfig : M ExtensionConfig.t := StorageManager.getConfig.

Definition saveConfig (config : ExtensionConfig.t) : M unit :=
  StorageManager.saveConfig config.

Definition resetToDefault : M ExtensionConfig.t := StorageManager.resetToDefault.

(** [sites.sort((a, b) => a.order - b.order)]; the sort of an array is
    stable, so sites of one order keep their sequence. *)
Fixpoint insertByOrder (site : ServiceSite.t) (l : list ServiceSite.t)
    : list ServiceSite.t :=
  match l with
  | [] => [site]
  | y :: t =>
      if Z.leb (ServiceSite.order site) (ServiceSite.order y) then site :: l
      else y :: insertByOrder site t
  end.

Fixpoint sortByOrder (l : list ServiceSite.t) : list ServiceSite.t :=
  match l with
  | [] => []
  | site :: t => insertByOrder site (sortByOrder t)
  end.

Definition getEnabledSites : M (list ServiceSite.t) :=
  sites <- getSites ;;
  ret (sortByOrder (filter ServiceSite.enabled sites)).

(** [Record<'source' | 'ai', ServiceSite[]>] *)
Record SitesByCategory : Type := mkByCategory {
  source : list ServiceSite.t;
  ai : list ServiceSite.t
}.

Definition getSitesByCategory : M SitesByCategory :=
  sites <- getEnabledSites ;;
  ret (mkByCategory
         (filter (fun site => String.eqb (ServiceSite.category site) "source") sites)
         (filter (fun site => String.eqb (ServiceSite.category site) "ai") sites)).

(** [sites.find(site => site.id === id) || null] *)
Definition getSiteById (id : string) : M (option ServiceSite.t) :=
  sites <- getSites ;;
  ret (find (hasId id) sites).

Definition getSettings : M ExtensionSettings.t := StorageManager.getSettings.

Definition saveSettings (settings : ExtensionSettings.t) : M unit :=
  StorageManager.saveSettings settings.

(** A key of [ExtensionSettings] with a value of the type of that key: the
    two arguments of [updateSetting<K>]. *)
Inductive SettingUpdate : Type :=
| SetDefaultSiteId (value : string)
| SetOpenInNewTab (value : bool)
| SetShowOnHover (value : bool)
| SetEnableShortcuts (value : bool).

(** [settings[key] = value] *)
Definition assignSetting (settings : ExtensionSettings.t) (u : SettingUpdate)
    : ExtensionSettings.t :=
  match u with
  | SetDefaultSiteId v =>
      ExtensionSettings.mk (Some v) (ExtensionSettings.openInNewTab settings)
        (ExtensionSettings.showOnHover settings) (ExtensionSettings.enableShortcuts settings)
  | SetOpenInNewTab v =>
      ExtensionSettings.mk (ExtensionSettings.defaultSiteId settings) (Some v)
        (ExtensionSettings.showOnHover settings) (ExtensionSettings.enableShortcuts settings)
  | SetShowOnHover v =>
      ExtensionSettings.mk (ExtensionSettings.defaultSiteId settings)
        (ExtensionSettings.openInNewTab settings) (Some v)
        (ExtensionSettings.enableShortcuts settings)
  | SetEnableShortcuts v =>
      ExtensionSettings.mk (ExtensionSettings.defaultSiteId settings)
        (ExtensionSettings.openInNewTab settings) (ExtensionSettings.showOnHover settings)
        (Some v)
  end.

Definition updateSetting (u : SettingUpdate) : M unit :=
  settings <- getSettings ;;
  saveSettings (assignSetting settings u).

(** [getDefaultSites]: a copy of [DEFAULT_SITES]. *)
Definition getDefaultSites : list ServiceSite.t := Defaults.DEFAULT_SITES.

(** [Record<string, ServiceSite>]: the own properties of the object, in the
    order they were created. *)
Definition ShortcutMapping : Type := list (string * ServiceSite.t).

Fixpoint assignOwn (key : string) (site : ServiceSite.t) (mapping : ShortcutMapping)
    : ShortcutMapping :=
  match mapping with
  | [] => [(key, site)]
  | (k, x) :: t =>
      if String.eqb k key then (k, site) :: t else (k, x) :: assignOwn key site t
  end.

(** [mapping[key] = site] on an object literal: the key [__proto__] sets the
    prototype and makes no property. *)
Definition recordSet (key : string) (site : ServiceSite.t) (mapping : ShortcutMapping)
    : ShortcutMapping :=
  if String.eqb key "__proto__" then mapping else assignOwn key site mapping.

(** [mapping[key]] for a key with a [+] in it: such a key names no property
    of a prototype, so the value is the own property or [undefined]. *)
Fixpoint recordGet (key : string) (mapping : ShortcutMapping) : option ServiceSite.t :=
  match mapping with
  | [] => None
  | (k, x) :: t => if String.eqb k key then Some x else recordGet key t
  end.

(** The [forEach] of [getShortcutMapping]; the site it stores is the one
    whose chord [formatShortcutString] has just sorted. *)
Fixpoint collectMapping (sites : list ServiceSite.t) (mapping : ShortcutMapping)
    : ShortcutMapping :=
  match sites with
  | [] => mapping
  | site :: rest =>
      match ServiceSite.shortcuts site with
      | Some sc =>
          if shortcutEnabled site then
            let (shortcutStr, sc') := formatShortcutString sc in
            collectMapping rest (recordSet shortcutStr (withShortcuts site (Some sc')) mapping)
          else collectMapping rest mapping
      | None => collectMapping rest mapping
      end
  end.

Definition getShortcutMapping : M ShortcutMapping :=
  sites <- getEnabledSites ;;
  ret (collectMapping sites []).

End ConfigManager.

(** ** entrypoints/content/index.tsx *)

Module ContentScript.

(** [pathname.replace(/^\//, "")] *)
Definition stripLeadingSlash (pathname : string) : string :=
  match pathname with
  | String "/" rest => rest
  | _ => pathname
  end.

Definition excludedPaths : list string :=
  ["orgs"; "users"; "topics"; "collections"; "explore"; "settings"].

(** [extractGitHubRepoPath], as a function of [window.location.pathname]. *)
Definition extractGitHubRepoPath (pathname : string) : option string :=
  let pathParts := JsString.split "/" (stripLeadingSlash pathname) in
  if Nat.ltb (length pathParts) 2 then None
  else
    match pathParts with
    | owner :: repo :: _ =>
        if String.eqb owner EmptyString || String.eqb repo EmptyString then None
        else if JsString.arrayIncludes owner excludedPaths then None
        else Some (owner +s+ "/" +s+ repo)
    | _ => None
    end.

End ContentScript.

(** ** entrypoints/content/App.tsx: where a click leads

    The handlers open a URL in a new tab or in the current one; the model
    keeps that action. *)

Module ContentApp.

Inductive Navigation : Type :=
| WindowOpen (url : string)
| LocationHref (url : string).

(** [if (settings.openInNewTab) window.open(url, ...) else window.location.href = url] *)
Definition openUrl (settings : option ExtensionSettings.t) (url : string) : Navigation :=
  match settings with
  | Some s =>
      match ExtensionSettings.openInNewTab s with
      | Some true => WindowOpen url
      | _ => LocationHref url
      end
  | None => LocationHref url
  end.

Definition handleSiteClick (settings : option ExtensionSettings.t) (repoPath : string)
    (site : ServiceSite.t) : Navigation :=
  openUrl settings (ConfigManager.generateSiteUrl site repoPath).

(** [site.id === settings.defaultSiteId] *)
Definition isDefaultSite (settings : ExtensionSettings.t) (site : ServiceSite.t) : bool :=
  match ExtensionSettings.defaultSiteId settings with
  | Some id => String.eqb (ServiceSite.id site) id
  | None => false
  end.

(** [handleDefaultSiteClick]: [None] when nothing is opened. *)
Definition handleDefaultSiteClick (settings : option ExtensionSettings.t)
    (sites : ConfigManager.SitesByCategory) (repoPath : string) : option Navigation :=
  match settings with
  | None => None
  | Some s =>
      let allSites := ConfigManager.source sites ++ ConfigManager.ai sites in
      match find (isDefaultSite s) allSites with
      | Some defaultSite =>
          Some (openUrl settings (ConfigManager.generateSiteUrl defaultSite repoPath))
      | None =>
          match allSites with
          | firstAvailableSite :: _ =>
              Some (openUrl settings
                      (ConfigManager.generateSiteUrl firstAvailableSite repoPath))
          | [] => None
          end
      end
  end.

End ContentApp.

(** ** components/ShortcutEditor.tsx and components/ConfigPage.tsx: the
    state the handlers compute *)

Module ShortcutEditor.

(** [updateModifier]: the next [tempShortcut]. *)
Definition updateModifier (tempShortcut : option ShortcutKey.t) (modifier : string)
    (checked : bool) : option ShortcutKey.t :=
  match tempShortcut with
  | None => None
  | Some sc =>
      let newModifiers :=
        if checked then
          if JsString.arrayIncludes modifier (ShortcutKey.modifiers sc)
          then ShortcutKey.modifiers sc
          else ShortcutKey.modifiers sc ++ [modifier]
        else filter (fun m => negb (String.eqb m modifier)) (ShortcutKey.modifiers sc) in
      Some (ShortcutKey.mk (ShortcutKey.key sc) newModifiers (ShortcutKey.enabled sc))
  end.

End ShortcutEditor.

Module ConfigPage.

(** [handleToggleSite]: the next [sites] of the page; the [catch] leaves the
    state as it is. *)
Definition handleToggleSite (prev : list ServiceSite.t) (siteId : string) (enabled : bool)
    : M (list ServiceSite.t) :=
  tryCatch
    (ConfigManager.toggleSite siteId enabled ;;;
     ret (map (fun site =>
                 if String.eqb (ServiceSite.id site) siteId
                 then ServiceSite.mk (ServiceSite.id site) (ServiceSite.name site)
                        (ServiceSite.description site) (ServiceSite.category site)
                        (ServiceSite.urlTemplate site) (ServiceSite.icon site)
                        enabled (ServiceSite.order site) (ServiceSite.isBuiltIn site)
                        (ServiceSite.shortcuts site)
                 else site) prev))
    (fun _ => ret prev).

(** [handleDeleteSite] once the user has confirmed. *)
Definition handleDeleteSite (prev : list ServiceSite.t) (siteId : string)
    : M (list ServiceSite.t) :=
  tryCatch
    (ConfigManager.deleteSite siteId ;;;
     ret (filter (fun site => negb (String.eqb (ServiceSite.id site) siteId)) prev))
    (fun _ => ret prev).

End ConfigPage.

(** ** Vocabulary of the statements *)

(** The order of the default comparison of [sort]. *)
Definition lexLe (a b : string) : Prop := String.leb a b = true.

(** [lacks c s]: the code unit [c] does not occur in [s]. *)
Fixpoint lacks (c : ascii) (s : string) : bool :=
  match s with
  | EmptyString => true
  | String x s' => negb (Ascii.eqb x c) && lacks c s'
  end.

(** The configuration a later [getConfig] reads. *)
Definition loaded (st : Storage) : ExtensionConfig.t :=
  match StorageManager.getConfig st with
  | (inr c, _) => c
  | (inl _, _) => StorageManager.getDefaultConfig
  end.

(** The placeholder of a URL template. *)
Definition REPO_PATH : string := "{REPO_PATH}".

(** [occursIn pat s]: [pat] is a substring of [s]. *)
Definition occursIn (pat s : string) : Prop :=
  exists before after, s = before +s+ pat +s+ after.

(** [firstAt pat s before after]: the leftmost occurrence of [pat] in [s]
    has [before] before it and [after] after it. *)
Definition firstAt (pat s before after : string) : Prop :=
  s = before +s+ pat +s+ after /\
  forall b a, s = b +s+ pat +s+ a -> String.length before <= String.length b.

(** [onlyAt pat s before after]: [pat] occurs in [s] once, between [before]
    and [after]. *)
Definition onlyAt (pat s before after : string) : Prop :=
  s = before +s+ pat +s+ after /\
  forall b a, s = b +s+ pat +s+ a -> b = before.

(** [DEFAULT_CONFIG.version] *)
Definition currentVersion : option string := ExtensionConfig.version Defaults.DEFAULT_CONFIG.

(** Reads and writes of [browser.storage.sync] go through. *)
Definition storageWorks (st : Storage) : Prop :=
  getFails st = false /\ setFails st = false.

(** The storage after [saveSites sites] went through. *)
Definition savedSites (sites : list ServiceSite.t) (st : Storage) : Storage :=
  mkStorage
    (JsObject (StorageManager.toJs
       (ExtensionConfig.mk sites (ExtensionConfig.settings (loaded st)) currentVersion)))
    (getFails st) (setFails st).

(** [explicitEnabled sc sc']: [sc'] is [sc] with an [enabled] flag that is
    there, [true] when [sc] had none. *)
Definition explicitEnabled (sc sc' : ShortcutKey.t) : Prop :=
  ShortcutKey.key sc' = ShortcutKey.key sc /\
  ShortcutKey.modifiers sc' = ShortcutKey.modifiers sc /\
  ShortcutKey.enabled sc' =
    Some (match ShortcutKey.enabled sc with Some b => b | None => true end).

(** [backfilled s s']: [s'] is the site [s] after the migration. *)
Definition backfilled (s s' : ServiceSite.t) : Prop :=
  ServiceSite.id s' = ServiceSite.id s /\
  ServiceSite.name s' = ServiceSite.name s /\
  ServiceSite.description s' = ServiceSite.description s /\
  ServiceSite.category s' = ServiceSite.category s /\
  ServiceSite.urlTemplate s' = ServiceSite.urlTemplate s /\
  ServiceSite.icon s' = ServiceSite.icon s /\
  ServiceSite.enabled s' = ServiceSite.enabled s /\
  ServiceSite.order s' = ServiceSite.order s /\
  ServiceSite.isBuiltIn s' = ServiceSite.isBuiltIn s /\
  match ServiceSite.shortcuts s, ServiceSite.shortcuts s' with
  | None, None => True
  | Some sc, Some sc' => explicitEnabled sc sc'
  | _, _ => False
  end.

(** The canonical chord string. *)
Definition canonical (sc : ShortcutKey.t) : string :=
  fst (ConfigManager.formatShortcutString sc).

(** [ownsChord str site]: the site has a shortcut whose [enabled] flag is
    [true] and whose canonical string is [str]. *)
Definition ownsChord (str : string) (site : ServiceSite.t) : Prop :=
  exists sc, ServiceSite.shortcuts site = Some sc /\
             ShortcutKey.enabled sc = Some true /\
             canonical sc = str.

(** The test that goes with [ownsChord], for a site other than [siteId]. *)
Definition conflictsWith (siteId str : string) (site : ServiceSite.t) : bool :=
  negb (String.eqb (ServiceSite.id site) siteId) &&
  match ServiceSite.shortcuts site with
  | Some sc =>
      match ShortcutKey.enabled sc with
      | Some true => String.eqb (canonical sc) str
      | _ => false
      end
  | None => false
  end.

(** [hasSite id sites]: [id] is the id of a site of the list. *)
Definition hasSite (id : string) (sites : list ServiceSite.t) : Prop :=
  exists site, In site sites /\ ServiceSite.id site = id.

(** [inUse siteId sites str]: a site other than [siteId] owns [str]. *)
Definition inUse (siteId : string) (sites : list ServiceSite.t) (str : string) : Prop :=
  exists site, In site sites /\ ServiceSite.id site <> siteId /\ ownsChord str site.

(** The chord ctrl+shift+[k] that [getSuggestedShortcut] proposes. *)
Definition chordFor (k : string) : ShortcutKey.t :=
  ShortcutKey.mk k ["ctrl"; "shift"] (Some true).

(** The digits in the order the suggestion loop visits them, and in
    ascending order. *)
Definition SUGGESTION_KEYS : list string :=
  ["1"; "2"; "3"; "4"; "5"; "6"; "7"; "8"; "9"; "0"].

Definition ASCENDING_DIGITS : list string :=
  ["0"; "1"; "2"; "3"; "4"; "5"; "6"; "7"; "8"; "9"].

(** [firstFree keys taken r]: [r] is the chord of the first key of [keys]
    whose canonical string is not [taken], none when every one is. *)
Definition firstFree (keys : list string) (taken : string -> Prop)
    (r : option ShortcutKey.t) : Prop :=
  match r with
  | Some c =>
      exists pre k post,
        keys = pre ++ k :: post /\ c = chordFor k /\
        (forall k', In k' pre -> taken (canonical (chordFor k'))) /\
        ~ taken (canonical (chordFor k))
  | None => forall k, In k keys -> taken (canonical (chordFor k))
  end.

(** The ids of the stored sites are pairwise distinct, as the data model
    has it. *)
Definition uniqueIds (sites : list ServiceSite.t) : Prop :=
  NoDup (map ServiceSite.id sites).

(** [{ ...site, enabled }] *)
Definition withEnabled (site : ServiceSite.t) (enabled : bool) : ServiceSite.t :=
  ServiceSite.mk (ServiceSite.id site) (ServiceSite.name site)
    (ServiceSite.description site) (ServiceSite.category site)
    (ServiceSite.urlTemplate site) (ServiceSite.icon site)
    enabled (ServiceSite.order site) (ServiceSite.isBuiltIn site)
    (ServiceSite.shortcuts site).

(** The sites whose id is not in [siteIds], in the order of [sites]. *)
Definition unmentioned (siteIds : list string) (sites : list ServiceSite.t)
    : list ServiceSite.t :=
  filter (fun site => negb (JsString.arrayIncludes (ServiceSite.id site) siteIds)) sites.

(** [reordered sites siteIds all]: [all] is first a site for every listed
    id, in the sequence of [siteIds] with the orders 1, 2, ..., then the
    sites not mentioned, in their order, with the orders that follow. *)
Definition reordered (sites : list ServiceSite.t) (siteIds : list string)
    (all : list ServiceSite.t) : Prop :=
  exists listed rest,
    all = listed ++ rest /\
    length listed = length siteIds /\
    (forall k id, nth_error siteIds k = Some id ->
       exists site, In site sites /\ ServiceSite.id site = id /\
                    nth_error listed k
                    = Some (ConfigManager.withOrder site (Z.of_nat k + 1))) /\
    length rest = length (unmentioned siteIds sites) /\
    (forall j site, nth_error (unmentioned siteIds sites) j = Some site ->
       nth_error rest j
       = Some (ConfigManager.withOrder site
                 (Z.of_nat (length siteIds) + Z.of_nat j + 1))).

(** A settings object with its four keys. *)
Definition settingsComplete (s : ExtensionSettings.t) : Prop :=
  ExtensionSettings.defaultSiteId s <> None /\
  ExtensionSettings.openInNewTab s <> None /\
  ExtensionSettings.showOnHover s <> None /\
  ExtensionSettings.enableShortcuts s <> None.

(** [overrides defaults imported merged]: key by key, [merged] has the
    value of [imported] where there is one and that of [defaults] otherwise. *)
Definition overrides (defaults imported merged : ExtensionSettings.t) : Prop :=
  let pick {A : Type} (get : ExtensionSettings.t -> option A) : Prop :=
    get merged = match get imported with Some x => Some x | None => get defaults end in
  pick ExtensionSettings.defaultSiteId /\
  pick ExtensionSettings.openInNewTab /\
  pick ExtensionSettings.showOnHover /\
  pick ExtensionSettings.enableShortcuts.

(** The chord as [formatShortcutString] leaves it: its modifiers sorted. *)
Definition sortedChord (sc : ShortcutKey.t) : ShortcutKey.t :=
  snd (ConfigManager.formatShortcutString sc).

(** What the loop of [checkShortcutConflicts] does to a site: the chord of a
    site other than [siteId] with an enabled shortcut is left sorted. *)
Definition normalizeOther (siteId : string) (site : ServiceSite.t) : ServiceSite.t :=
  if negb (ConfigManager.hasId siteId site) && ConfigManager.shortcutEnabled site
  then ConfigManager.withShortcuts site (option_map sortedChord (ServiceSite.shortcuts site))
  else site.

(** No line terminator in [s]: every code unit is one the [.] of a regular
    expression matches. *)
Fixpoint dotsOnly (s : string) : bool :=
  match s with
  | EmptyString => true
  | String c s' => negb (JsString.isLineTerminator c) && dotsOnly s'
  end.

(** ** Vocabulary of the further properties *)

(** The number of sites that are not built in. *)
Definition customCount (sites : list ServiceSite.t) : nat :=
  length (filter (fun site => negb (ServiceSite.isBuiltIn site)) sites).

(** The order of two sites by their [order]. *)
Definition orderLe (a b : ServiceSite.t) : Prop :=
  (ServiceSite.order a <= ServiceSite.order b)%Z.

(** The sites of a list that have the order [o], in their sequence. *)
Definition withOrderOf (o : Z) (l : list ServiceSite.t) : list ServiceSite.t :=
  filter (fun site => Z.eqb (ServiceSite.order site) o) l.

(** [failsClean m]: when [m] throws, the storage is what it was. *)
Definition failsClean {A : Type} (m : M A) : Prop :=
  forall st : Storage,
    match m st with
    | (inl _, st') => st' = st
    | (inr _, _) => True
    end.

(** The test that goes with [ownsChord]. *)
Definition ownsChordb (str : string) (site : ServiceSite.t) : bool :=
  match ServiceSite.shortcuts site with
  | Some sc =>
      match ShortcutKey.enabled sc with
      | Some true => String.eqb (canonical sc) str
      | _ => false
      end
  | None => false
  end.

(** The site with the modifiers of its chord sorted, as [getShortcutMapping]
    holds it. *)
Definition normalizeChord (site : ServiceSite.t) : ServiceSite.t :=
  ConfigManager.withShortcuts site (option_map sortedChord (ServiceSite.shortcuts site)).

(** The canonical strings of the enabled shortcuts of a list of sites, one
    entry for every site that has one. *)
Definition activeChords (sites : list ServiceSite.t) : list string :=
  flat_map (fun site =>
              match ServiceSite.shortcuts site with
              | Some sc =>
                  match ShortcutKey.enabled sc with
                  | Some true => [canonical sc]
                  | _ => []
                  end
              | None => []
              end) sites.

(** No two sites have enabled shortcuts with one canonical string. *)
Definition chordsDistinct (sites : list ServiceSite.t) : Prop :=
  NoDup (activeChords sites).

(** A site without its place in the list: the [order] set to 0. *)
Definition eraseOrder (site : ServiceSite.t) : ServiceSite.t :=
  ConfigManager.withOrder site 0.

(** The orders 1, 2, ..., [n]. *)
Definition ordersUpTo (n : nat) : list Z :=
  map (fun index => (Z.of_nat index + 1)%Z) (seq 0 n).

(** [offered st site]: the content page offers [site]: it is stored,
    enabled, and of one of the two categories of the menu. *)
Definition offered (st : Storage) (site : ServiceSite.t) : Prop :=
  In site (ExtensionConfig.sites (loaded st)) /\
  ServiceSite.enabled site = true /\
  (ServiceSite.category site = "source" \/ ServiceSite.category site = "ai").

(** What a click on the entry of [site] in the menu does under [settings]. *)
Definition opens (settings : ExtensionSettings.t) (repoPath : string)
    (site : ServiceSite.t) : ContentApp.Navigation :=
  ContentApp.handleSiteClick (Some settings) repoPath site.

(** The code units of a slug: a lower-case letter, a digit or a dash. *)
Definition slugUnit (c : ascii) : bool :=
  ConfigManager.isLowerAlnum c || Ascii.eqb c "-".

(** Every code unit of [s] passes [p]. *)
Fixpoint allUnits (p : ascii -> bool) (s : string) : bool :=
  match s with
  | EmptyString => true
  | String c s' => p c && allUnits p s'
  end.

Definition firstUnit (s : string) : option ascii :=
  match s with
  | EmptyString => None
  | String c _ => Some c
  end.

Fixpoint lastUnit (s : string) : option ascii :=
  match s with
  | EmptyString => None
  | String c EmptyString => Some c
  | String _ s' => lastUnit s'
  end.

(** No dash of [s] is followed by a dash. *)
Fixpoint noDoubleDash (s : string) : bool :=
  match s with
  | EmptyString => true
  | String c s' =>
      negb (Ascii.eqb c "-" && match firstUnit s' with
                               | Some d => Ascii.eqb d "-"
                               | None => false
                               end)
      && noDoubleDash s'
  end.

(** [Number.MAX_SAFE_INTEGER]: up to here every integer is a number of its
    own, and so is the sum with 1. *)
Definition MAX_SAFE_INTEGER : Z := (2 ^ 53 - 1)%Z.

(** Every stored order is at most [MAX_SAFE_INTEGER]. *)
Definition safeOrders (sites : list ServiceSite.t) : Prop :=
  forall site, In site sites -> (ServiceSite.order site <= MAX_SAFE_INTEGER)%Z.

(** * Properties *)

(** ** Facts about the string primitives *)

Section StringFacts.

Lemma append_nil_r (s : string) : s +s+ EmptyString = s.
Proof. induction s as [|c s IH]; simpl; [reflexivity | now rewrite IH]. Qed.

Lemma append_assoc (a b c : string) : (a +s+ b) +s+ c = a +s+ (b +s+ c).
Proof. induction a as [|x a IH]; simpl; [reflexivity | now rewrite IH]. Qed.

Lemma chars_append (a b : string) :
  list_ascii_of_string (a +s+ b) = list_ascii_of_string a ++ list_ascii_of_string b.
Proof. induction a as [|x a IH]; simpl; [reflexivity | now rewrite IH]. Qed.

Lemma chars_inj (a b : string) :
  list_ascii_of_string a = list_ascii_of_string b -> a = b.
Proof.
  intro H. rewrite <- (string_of_list_ascii_of_string a),
    <- (string_of_list_ascii_of_string b). now rewrite H.
Qed.

Lemma chars_length (a : string) : length (list_ascii_of_string a) = String.length a.
Proof. induction a as [|x a IH]; simpl; [reflexivity | now rewrite IH]. Qed.

(** [stripPrefix] is exact: it succeeds on [p +s+ rest] and only there. *)
Lemma stripPrefix_Some (p s rest : string) :
  JsString.stripPrefix p s = Some rest <-> s = p +s+ rest.
Proof.
  revert s. induction p as [|a p IH]; intros s; simpl.
  - split; [now intros [= ->] | now intros ->].
  - destruct s as [|b s].
    + split; discriminate.
    + destruct (Ascii.eqb_spec a b) as [->|Hne].
      * rewrite IH. split; [now intros -> | now intros [= ->]].
      * split; [discriminate | intros [= E _]; congruence].
Qed.

(** [search] returns a decomposition of the text around the pattern. *)
Lemma search_Some (pat s before after : string) :
  JsString.search pat s = Some (before, after) -> s = before +s+ pat +s+ after.
Proof.
  revert before. induction s as [|c s IH]; intros before; simpl.
  - destruct (JsString.stripPrefix pat EmptyString) as [rest|] eqn:E.
    + intros [= <- <-]. now apply stripPrefix_Some in E.
    + discriminate.
  - destruct (JsString.stripPrefix pat (String c s)) as [rest|] eqn:E.
    + intros [= <- <-]. now apply stripPrefix_Some in E.
    + destruct (JsString.search pat s) as [[b a]|]; [|discriminate].
      intros [= <- <-]. simpl. f_equal. now apply IH.
Qed.

(** The occurrence [search] returns is the leftmost one. *)
Lemma search_leftmost (pat s before after : string) :
  JsString.search pat s = Some (before, after) ->
  forall b a, s = b +s+ pat +s+ a -> String.length before <= String.length b.
Proof.
  revert before. induction s as [|c s IH]; intros before; simpl.
  - destruct (JsString.stripPrefix pat EmptyString); [|discriminate].
    intros [= <- <-] b a _. simpl. lia.
  - destruct (JsString.stripPrefix pat (String c s)) as [rest|] eqn:E.
    + intros [= <- <-] b a _. simpl. lia.
    + destruct (JsString.search pat s) as [[b0 a0]|] eqn:Es; [|discriminate].
      intros [= <- <-] b a Hs. destruct b as [|x b].
      * simpl in Hs. apply stripPrefix_Some in Hs. congruence.
      * simpl in Hs. injection Hs as _ Hs. simpl.
        specialize (IH b0 eq_refl b a Hs). lia.
Qed.

(** [search] finds the pattern wherever there is an occurrence. *)
Lemma search_None (pat s : string) :
  JsString.search pat s = None -> forall b a, s <> b +s+ pat +s+ a.
Proof.
  induction s as [|c s IH]; simpl.
  - destruct (JsString.stripPrefix pat EmptyString) eqn:E; [discriminate|].
    intros _ b a Hs. destruct b; simpl in Hs.
    + apply stripPrefix_Some in Hs. congruence.
    + discriminate.
  - destruct (JsString.stripPrefix pat (String c s)) eqn:E; [discriminate|].
    destruct (JsString.search pat s) as [[b0 a0]|] eqn:Es; [discriminate|].
    intros _ b a Hs. destruct b as [|x b]; simpl in Hs.
    + apply stripPrefix_Some in Hs. congruence.
    + injection Hs as _ Hs. now apply (IH eq_refl b a).
Qed.

(** Two decompositions with prefixes of the same length are the same. *)
Lemma append_inj_length (a b c d : string) :
  a +s+ b = c +s+ d -> String.length a = String.length c -> a = c /\ b = d.
Proof.
  revert c. induction a as [|x a IH]; intros [|y c]; simpl; try discriminate.
  - auto.
  - intros [= -> H] [= L]. destruct (IH c H L) as [-> ->]. auto.
Qed.

End StringFacts.

(** ** [Array.prototype.sort] on strings *)

Section SortFacts.

Lemma insert_perm (x : string) (l : list string) :
  Permutation (JsString.insert x l) (x :: l).
Proof.
  induction l as [|y t IH]; simpl.
  - apply Permutation_refl.
  - destruct (String.leb x y).
    + apply Permutation_refl.
    + eapply perm_trans; [apply perm_skip, IH | apply perm_swap].
Qed.

Lemma sort_perm (l : list string) : Permutation (JsString.sort l) l.
Proof.
  induction l as [|x t IH]; simpl.
  - constructor.
  - eapply perm_trans; [apply insert_perm | now apply perm_skip].
Qed.

Lemma insert_hd (x z : string) (l : list string) :
  lexLe z x -> HdRel lexLe z l -> HdRel lexLe z (JsString.insert x l).
Proof.
  intros Hzx Hz. destruct l as [|y t]; simpl.
  - now constructor.
  - destruct (String.leb x y); constructor; [assumption | now inversion Hz].
Qed.

Lemma insert_sorted (x : string) (l : list string) :
  Sorted lexLe l -> Sorted lexLe (JsString.insert x l).
Proof.
  induction 1 as [|y t Hs IH Hhd]; simpl.
  - repeat constructor.
  - destruct (String.leb x y) eqn:E.
    + constructor; [now constructor | now constructor].
    + constructor; [assumption|].
      apply insert_hd; [|assumption].
      destruct (String.leb_total x y) as [H|H]; [congruence | exact H].
Qed.

Lemma sort_sorted (l : list string) : Sorted lexLe (JsString.sort l).
Proof.
  induction l as [|x t IH]; simpl; [constructor | now apply insert_sorted].
Qed.

Lemma sort_In (l : list string) (x : string) : In x (JsString.sort l) <-> In x l.
Proof.
  split; apply Permutation_in; [apply sort_perm | apply Permutation_sym, sort_perm].
Qed.

Lemma sort_length (l : list string) : length (JsString.sort l) = length l.
Proof. apply Permutation_length, sort_perm. Qed.

(** Sorting a sorted array changes nothing. *)
Lemma insert_sorted_id (x : string) (l : list string) :
  HdRel lexLe x l -> JsString.insert x l = x :: l.
Proof.
  destruct l as [|y t]; simpl; [reflexivity|].
  intro H. inversion H as [|? ? Hxy]; subst. unfold lexLe in Hxy. now rewrite Hxy.
Qed.

Lemma sort_sorted_id (l : list string) : Sorted lexLe l -> JsString.sort l = l.
Proof.
  induction 1 as [|x t Hs IH Hhd]; simpl; [reflexivity|].
  rewrite IH. now apply insert_sorted_id.
Qed.

Lemma sort_idempotent (l : list string) : JsString.sort (JsString.sort l) = JsString.sort l.
Proof. apply sort_sorted_id, sort_sorted. Qed.

End SortFacts.

(** ** [split] after [join] *)

Section SplitJoin.

Lemma split_nonempty (sep : ascii) (s : string) : JsString.split sep s <> [].
Proof.
  destruct s as [|c s]; simpl; [discriminate|].
  destruct (Ascii.eqb c sep); [discriminate|].
  destruct (JsString.split sep s); discriminate.
Qed.

Lemma split_lacks (sep : ascii) (s : string) :
  lacks sep s = true -> JsString.split sep s = [s].
Proof.
  induction s as [|c s IH]; simpl; [reflexivity|].
  intros [Hc Hs]%andb_prop. apply negb_true_iff in Hc. rewrite Hc, (IH Hs). reflexivity.
Qed.

Lemma split_append (sep : ascii) (x rest : string) :
  lacks sep x = true ->
  JsString.split sep (x +s+ String sep rest) = x :: JsString.split sep rest.
Proof.
  induction x as [|c x IH]; simpl.
  - intros _. now rewrite Ascii.eqb_refl.
  - intros [Hc Hx]%andb_prop. apply negb_true_iff in Hc. rewrite Hc, (IH Hx). reflexivity.
Qed.

Lemma split_join (sep : ascii) (parts : list string) :
  parts <> [] ->
  Forall (fun p => lacks sep p = true) parts ->
  JsString.split sep (JsString.join (String sep EmptyString) parts) = parts.
Proof.
  unfold JsString.join.
  induction parts as [|x t IH]; [congruence|].
  intros _ Hall. inversion Hall as [|? ? Hx Ht]; subst.
  destruct t as [|y t].
  - simpl. now apply split_lacks.
  - change (String.concat (String sep EmptyString) (x :: y :: t))
      with (x +s+ String sep (String.concat (String sep EmptyString) (y :: t))).
    rewrite (split_append _ _ _ Hx). f_equal. apply IH; [discriminate | assumption].
Qed.

End SplitJoin.

(** ** Shortcut strings *)

Section ShortcutStrings.

Lemma arrayIncludes_In (x : string) (xs : list string) :
  JsString.arrayIncludes x xs = true <-> In x xs.
Proof.
  unfold JsString.arrayIncludes. rewrite existsb_exists. split.
  - intros [y [Hy E]]. apply String.eqb_eq in E. now subst.
  - intros H. exists x. split; [assumption | apply String.eqb_refl].
Qed.

(** [validateShortcut] is the three conditions of the data model. *)
Lemma validateShortcut_spec (c : ShortcutKey.t) :
  ConfigManager.validateShortcut c = true <->
  ShortcutKey.modifiers c <> [] /\
  (forall m, In m (ShortcutKey.modifiers c) -> In m Defaults.MODIFIER_KEYS) /\
  In (ShortcutKey.key c) Defaults.SHORTCUT_KEYS.
Proof.
  unfold ConfigManager.validateShortcut.
  destruct (ShortcutKey.modifiers c) as [|m0 ms] eqn:Em.
  - simpl. split; [discriminate | intros [H _]; congruence].
  - cbn [length Nat.eqb].
    destruct (forallb _ (m0 :: ms)) eqn:Ef; cbn [negb].
    + rewrite forallb_forall in Ef.
      destruct (JsString.arrayIncludes (ShortcutKey.key c) Defaults.SHORTCUT_KEYS) eqn:Ek;
        cbn [negb].
      * split; [|reflexivity]. intros _. repeat split; [discriminate | | ].
        -- intros m Hm. apply arrayIncludes_In. now apply Ef.
        -- now apply arrayIncludes_In.
      * split; [discriminate|]. intros (_ & _ & Hk).
        apply arrayIncludes_In in Hk. congruence.
    + split; [discriminate|]. intros (_ & Hall & _).
      assert (forallb (fun m => JsString.arrayIncludes m Defaults.MODIFIER_KEYS) (m0 :: ms)
              = true) as Ht.
      { apply forallb_forall. intros m Hm. apply arrayIncludes_In. now apply Hall. }
      congruence.
Qed.

Lemma modifier_lacks_plus (m : string) :
  In m Defaults.MODIFIER_KEYS -> lacks "+" m = true.
Proof.
  assert (forallb (lacks "+") Defaults.MODIFIER_KEYS = true) as H by reflexivity.
  rewrite forallb_forall in H. apply H.
Qed.

Lemma key_lacks_plus (k : string) :
  In k Defaults.SHORTCUT_KEYS -> lacks "+" k = true.
Proof.
  assert (forallb (lacks "+") Defaults.SHORTCUT_KEYS = true) as H by reflexivity.
  rewrite forallb_forall in H. apply H.
Qed.

(** Parsing the text of a chord whose parts hold no [+] gives the parts back. *)
Lemma parse_join (mods : list string) (k : string) :
  mods <> [] ->
  Forall (fun p => lacks "+" p = true) mods ->
  lacks "+" k = true ->
  ConfigManager.parseShortcutString (JsString.join "+" (mods ++ [k]))
  = Some (ShortcutKey.mk k mods (Some true)).
Proof.
  intros Hne Hm Hk. unfold ConfigManager.parseShortcutString.
  rewrite split_join.
  - assert (Nat.ltb (length (mods ++ [k])) 2 = false) as Hlen.
    { apply Nat.ltb_ge. rewrite length_app.
      destruct mods; simpl; [congruence | lia]. }
    rewrite Hlen, last_last, removelast_last. reflexivity.
  - destruct mods; discriminate.
  - apply Forall_app. split; [assumption | now constructor].
Qed.

(** C3. [formatShortcutString] always gives the modifiers in lexicographic
    order joined with the key by [+]; and for every valid chord (one
    modifier at least, all of them among ctrl, alt, shift and meta, the key
    an allowed one) parsing that text succeeds with the same key and the
    same set of modifiers. *)
Theorem format_parse_inverse :
  (forall c : ShortcutKey.t,
     exists sorted : list string,
       fst (ConfigManager.formatShortcutString c)
       = JsString.join "+" (sorted ++ [ShortcutKey.key c]) /\
       Permutation sorted (ShortcutKey.modifiers c) /\
       Sorted lexLe sorted) /\
  (forall c : ShortcutKey.t,
     ShortcutKey.modifiers c <> [] ->
     (forall m, In m (ShortcutKey.modifiers c) -> In m Defaults.MODIFIER_KEYS) ->
     In (ShortcutKey.key c) Defaults.SHORTCUT_KEYS ->
     exists p : ShortcutKey.t,
       ConfigManager.parseShortcutString (fst (ConfigManager.formatShortcutString c))
       = Some p /\
       ShortcutKey.key p = ShortcutKey.key c /\
       (forall m, In m (ShortcutKey.modifiers p) <-> In m (ShortcutKey.modifiers c))).
Proof.
  split.
  - intro c. exists (JsString.sort (ShortcutKey.modifiers c)).
    split; [reflexivity|]. split; [apply sort_perm | apply sort_sorted].
  - intros c Hne Hmods Hkey.
    exists (ShortcutKey.mk (ShortcutKey.key c) (JsString.sort (ShortcutKey.modifiers c))
              (Some true)).
    split; [|split].
    + cbn [ConfigManager.formatShortcutString fst]. apply parse_join.
      * intro E. apply Hne. apply length_zero_iff_nil.
        rewrite <- sort_length, E. reflexivity.
      * apply Forall_forall. intros m Hm. apply modifier_lacks_plus, Hmods.
        now apply sort_In.
      * now apply key_lacks_plus.
    + reflexivity.
    + intro m. apply sort_In.
Qed.

Lemma format_parse_inverse_witness :
  let c := ShortcutKey.mk "1" ["shift"; "ctrl"] (Some true) in
  ConfigManager.validateShortcut c = true /\
  exists p : ShortcutKey.t,
    ConfigManager.parseShortcutString (fst (ConfigManager.formatShortcutString c)) = Some p /\
    ShortcutKey.key p = ShortcutKey.key c /\
    (forall m, In m (ShortcutKey.modifiers p) <-> In m (ShortcutKey.modifiers c)).
Proof.
  split; [reflexivity|].
  apply (proj2 format_parse_inverse (ShortcutKey.mk "1" ["shift"; "ctrl"] (Some true))).
  - discriminate.
  - simpl. intros m [<-|[<-|[]]]; auto.
  - simpl. auto.
Defined.

End ShortcutStrings.

(** ** URL generation *)

Section UrlGeneration.

(** A replacement text without [$] is inserted as it is. *)
Lemma getSubstitution_plain (matched before after repl : string) :
  lacks "$" repl = true ->
  JsString.getSubstitution matched before after repl = repl.
Proof.
  induction repl as [|c r IH]; [reflexivity|].
  cbn [lacks]. intros [Hc Hr]%andb_prop. apply negb_true_iff in Hc.
  specialize (IH Hr).
  destruct c as [[] [] [] [] [] [] [] []]; try discriminate Hc;
    cbn [JsString.getSubstitution]; now rewrite IH.
Qed.

(** Where a pattern can sit in [b ++ r ++ a] when it shares no code unit
    with [r]: inside [b] or inside [a]. *)
Lemma occurrence_avoids (tok r b a x y : list ascii) :
  r <> [] -> tok <> [] ->
  (forall c, In c tok -> ~ In c r) ->
  b ++ r ++ a = x ++ tok ++ y ->
  (exists z, b = x ++ tok ++ z) \/ (exists z, a = z ++ tok ++ y).
Proof.
  intros Hr Htok Hdisj E.
  apply app_eq_app in E as [l [[-> E]|[-> E]]].
  - apply app_eq_app in E as [l' [[-> E]|[-> _]]].
    + destruct l' as [|c l'].
      * left. exists []. now rewrite !app_nil_r.
      * destruct r as [|c' r]; [congruence|]. simpl in E. injection E as Ec _. subst c'.
        exfalso. apply (Hdisj c); [apply in_or_app; right|]; now left.
    + left. exists l'. now rewrite app_assoc.
  - apply app_eq_app in E as [l' [[-> E]|[-> ->]]].
    + destruct l' as [|c l'].
      * right. exists []. simpl in E. now rewrite <- E.
      * destruct tok as [|t tok]; [congruence|]. simpl in E. injection E as Ec _. subst t.
        exfalso. apply (Hdisj c); [now left | apply in_or_app; right; now left].
    + right. exists l'. reflexivity.
Qed.

Lemma occurrence_avoids_str (tok r b a x y : string) :
  r <> EmptyString -> tok <> EmptyString ->
  (forall c, In c (list_ascii_of_string tok) -> ~ In c (list_ascii_of_string r)) ->
  b +s+ r +s+ a = x +s+ tok +s+ y ->
  (exists z, b = x +s+ tok +s+ z) \/ (exists z, a = z +s+ tok +s+ y).
Proof.
  intros Hr Htok Hdisj E.
  apply (f_equal list_ascii_of_string) in E. rewrite !chars_append in E.
  apply occurrence_avoids in E; try assumption.
  - destruct E as [[z Hz]|[z Hz]]; [left | right];
      exists (string_of_list_ascii z); apply chars_inj;
      rewrite !chars_append, list_ascii_of_string_of_list_ascii; exact Hz.
  - destruct r; [congruence | discriminate].
  - destruct tok; [congruence | discriminate].
Qed.

Lemma append_length (a b : string) :
  String.length (a +s+ b) = String.length a + String.length b.
Proof. induction a as [|x a IH]; simpl; [reflexivity | now rewrite IH]. Qed.

(** The text around the leftmost occurrence, from [search]. *)
Lemma search_first (pat s b a : string) :
  s = b +s+ pat +s+ a ->
  (forall b' a', s = b' +s+ pat +s+ a' -> String.length b <= String.length b') ->
  JsString.search pat s = Some (b, a).
Proof.
  intros Hs Hmin.
  destruct (JsString.search pat s) as [[b0 a0]|] eqn:E.
  - pose proof (search_Some _ _ _ _ E) as Hs0.
    pose proof (search_leftmost _ _ _ _ E b a Hs) as H1.
    pose proof (Hmin b0 a0 Hs0) as H2.
    rewrite Hs in Hs0.
    destruct (append_inj_length _ _ _ _ Hs0 ltac:(lia)) as [-> Hrest].
    destruct (append_inj_length _ _ _ _ Hrest eq_refl) as [_ ->]. reflexivity.
  - exfalso. exact (search_None _ _ E b a Hs).
Qed.

End UrlGeneration.

Section GenerateSiteUrl.

Lemma append_eq_split (a b c d : string) :
  a +s+ b = c +s+ d -> String.length a <= String.length c ->
  exists l, c = a +s+ l /\ b = l +s+ d.
Proof.
  revert c. induction a as [|x a IH]; intros c E L.
  - exists c. simpl in *. auto.
  - destruct c as [|y c]; simpl in L; [lia|].
    simpl in E. injection E as -> E.
    destruct (IH c E ltac:(lia)) as [l [-> ->]]. exists l. auto.
Qed.

Lemma onlyAt_firstAt (pat s b a : string) : onlyAt pat s b a -> firstAt pat s b a.
Proof.
  intros [Hs Hu]. split; [assumption|].
  intros b' a' H. rewrite (Hu b' a' H). lia.
Qed.

(** A way to check that an occurrence is the only one: the leftmost one is
    followed by no other. *)
Lemma search_onlyAt (c : ascii) (pt s b a : string) :
  JsString.search (String c pt) s = Some (b, a) ->
  JsString.search (String c pt) (pt +s+ a) = None ->
  onlyAt (String c pt) s b a.
Proof.
  intros Hfound Hrest. pose proof (search_Some _ _ _ _ Hfound) as Hs.
  split; [assumption|]. intros b' a' Hs'.
  pose proof (search_leftmost _ _ _ _ Hfound b' a' Hs') as Hle.
  rewrite Hs in Hs'.
  destruct (append_eq_split _ _ _ _ Hs' Hle) as [l [-> Hl]].
  destruct l as [|x l]; [now rewrite append_nil_r|].
  exfalso. simpl in Hl. injection Hl as _ Hl.
  exact (search_None _ _ Hrest l a' Hl).
Qed.

(** A template without the placeholder is returned as it is. *)
Lemma generateSiteUrl_no_placeholder (site : ServiceSite.t) (repoPath : string) :
  ~ occursIn REPO_PATH (ServiceSite.urlTemplate site) ->
  ConfigManager.generateSiteUrl site repoPath = ServiceSite.urlTemplate site.
Proof.
  intro Hno. unfold ConfigManager.generateSiteUrl, JsString.replace.
  destruct (JsString.search _ _) as [[b a]|] eqn:E; [|reflexivity].
  exfalso. apply Hno. exists b, a. exact (search_Some _ _ _ _ E).
Qed.

(** C4, as the code has it.  When [repoPath] holds no [$],
    [generateSiteUrl] puts it in the place of the leftmost [{REPO_PATH}];
    and for a template with one [{REPO_PATH}] the URL for ["owner/repo"] has
    that text in the place of the placeholder and no placeholder left. *)
Theorem generateSiteUrl_first_occurrence :
  (forall (site : ServiceSite.t) (repoPath before after : string),
     firstAt REPO_PATH (ServiceSite.urlTemplate site) before after ->
     lacks "$" repoPath = true ->
     ConfigManager.generateSiteUrl site repoPath = before +s+ repoPath +s+ after) /\
  (forall (site : ServiceSite.t) (before after : string),
     onlyAt REPO_PATH (ServiceSite.urlTemplate site) before after ->
     ConfigManager.generateSiteUrl site "owner/repo" = before +s+ "owner/repo" +s+ after /\
     ~ occursIn REPO_PATH (ConfigManager.generateSiteUrl site "owner/repo")).
Proof.
  assert (forall (site : ServiceSite.t) (repoPath before after : string),
     firstAt REPO_PATH (ServiceSite.urlTemplate site) before after ->
     lacks "$" repoPath = true ->
     ConfigManager.generateSiteUrl site repoPath = before +s+ repoPath +s+ after) as Hfirst.
  { intros site repoPath before after [Hs Hmin] Hplain.
    unfold ConfigManager.generateSiteUrl, JsString.replace.
    change "{REPO_PATH}" with REPO_PATH.
    rewrite (search_first _ _ _ _ Hs Hmin).
    now rewrite getSubstitution_plain. }
  split; [exact Hfirst|].
  intros site before after Honly.
  rewrite (Hfirst site "owner/repo" before after (onlyAt_firstAt _ _ _ _ Honly) eq_refl).
  split; [reflexivity|].
  intros [x [y E]]. destruct Honly as [Hs Hu].
  apply occurrence_avoids_str in E.
  - destruct E as [[z Hz]|[z Hz]].
    + assert (ServiceSite.urlTemplate site
              = x +s+ REPO_PATH +s+ (z +s+ REPO_PATH +s+ after)) as Hx.
      { rewrite Hs, Hz. now rewrite !append_assoc. }
      apply Hu in Hx. rewrite Hx in Hz.
      apply (f_equal String.length) in Hz. rewrite !append_length in Hz.
      simpl in Hz. lia.
    + assert (ServiceSite.urlTemplate site
              = (before +s+ REPO_PATH +s+ z) +s+ REPO_PATH +s+ y) as Hx.
      { rewrite Hs, Hz. now rewrite !append_assoc. }
      apply Hu in Hx.
      apply (f_equal String.length) in Hx. rewrite !append_length in Hx.
      simpl in Hx. lia.
  - discriminate.
  - discriminate.
  - assert (forallb (fun c => negb (existsb (Ascii.eqb c) (list_ascii_of_string "owner/repo")))
              (list_ascii_of_string REPO_PATH) = true) as Hd by reflexivity.
    rewrite forallb_forall in Hd. intros c Hc Hin.
    specialize (Hd c Hc). apply negb_true_iff in Hd.
    assert (existsb (Ascii.eqb c) (list_ascii_of_string "owner/repo") = true) as Ht.
    { apply existsb_exists. exists c. split; [assumption | apply Ascii.eqb_refl]. }
    congruence.
Qed.

Lemma search_firstAt (pat s b a : string) :
  JsString.search pat s = Some (b, a) -> firstAt pat s b a.
Proof.
  intro H. split; [exact (search_Some _ _ _ _ H) | exact (search_leftmost _ _ _ _ H)].
Qed.

Lemma generateSiteUrl_first_occurrence_witness :
  let github_dev :=
    ServiceSite.mk "github_dev" "GitHub.dev" "sites.descriptions.github_dev"
      "source" "https://github.dev/{REPO_PATH}/" "github" true 2 true None in
  let twice :=
    ServiceSite.mk "custom-mirror-1" "Mirror" "" "source"
      "https://example.com/{REPO_PATH}/blob/{REPO_PATH}" "code" true 6 false None in
  (firstAt REPO_PATH (ServiceSite.urlTemplate twice)
     "https://example.com/" "/blob/{REPO_PATH}" /\
   ConfigManager.generateSiteUrl twice "millylee/ai-code-view"
   = "https://example.com/millylee/ai-code-view/blob/{REPO_PATH}") /\
  (onlyAt REPO_PATH (ServiceSite.urlTemplate github_dev) "https://github.dev/" "/" /\
   ConfigManager.generateSiteUrl github_dev "owner/repo" = "https://github.dev/owner/repo/" /\
   ~ occursIn REPO_PATH (ConfigManager.generateSiteUrl github_dev "owner/repo")).
Proof.
  intros github_dev twice. split.
  - assert (firstAt REPO_PATH (ServiceSite.urlTemplate twice)
              "https://example.com/" "/blob/{REPO_PATH}") as H.
    { apply search_firstAt. reflexivity. }
    split; [exact H|].
    exact (proj1 generateSiteUrl_first_occurrence twice "millylee/ai-code-view"
             "https://example.com/" "/blob/{REPO_PATH}" H eq_refl).
  - assert (onlyAt REPO_PATH (ServiceSite.urlTemplate github_dev)
              "https://github.dev/" "/") as H.
    { apply search_onlyAt; reflexivity. }
    split; [exact H|].
    exact (proj2 generateSiteUrl_first_occurrence github_dev "https://github.dev/" "/" H).
Defined.

(** C4 as stated fails twice: a second placeholder stays in the URL, and a
    [repoPath] with a [$] pattern is not inserted as it is. *)
Lemma generateSiteUrl_counterexample :
  let twice := ServiceSite.mk "custom-mirror-1" "Mirror" "" "source"
                 "https://example.com/{REPO_PATH}/blob/{REPO_PATH}" "code" true 6 false None in
  let once := ServiceSite.mk "custom-mirror-2" "Mirror" "" "source"
                "https://example.com/{REPO_PATH}" "code" true 7 false None in
  (ConfigManager.generateSiteUrl twice "owner/repo"
   = "https://example.com/owner/repo/blob/{REPO_PATH}" /\
   occursIn REPO_PATH (ConfigManager.generateSiteUrl twice "owner/repo")) /\
  (firstAt REPO_PATH (ServiceSite.urlTemplate once) "https://example.com/" "" /\
   ConfigManager.generateSiteUrl once "$&" = "https://example.com/{REPO_PATH}" /\
   ConfigManager.generateSiteUrl once "$&" <> "https://example.com/" +s+ "$&" +s+ "").
Proof.
  intros twice once. split; [split|split; [|split]].
  - reflexivity.
  - exists "https://example.com/owner/repo/blob/", "". reflexivity.
  - apply onlyAt_firstAt, search_onlyAt; reflexivity.
  - reflexivity.
  - discriminate.
Qed.

End GenerateSiteUrl.

(** ** The persistence adapter *)

Section Persistence.

(** [getConfig] returns, and leaves the storage as it was. *)
Lemma getConfig_loaded (st : Storage) :
  StorageManager.getConfig st = (inr (loaded st), st).
Proof.
  unfold loaded, StorageManager.getConfig, tryCatch, bind, storageGet, ret.
  destruct (getFails st); [reflexivity|].
  destruct (StorageManager.isValidConfig (item st)); reflexivity.
Qed.

Lemma getSites_loaded (st : Storage) :
  StorageManager.getSites st = (inr (ExtensionConfig.sites (loaded st)), st).
Proof. unfold StorageManager.getSites, bind. now rewrite getConfig_loaded. Qed.

(** What [getConfig] reads, case by case. *)
Lemma loaded_cases (st : Storage) :
  loaded st =
  if getFails st then StorageManager.getDefaultConfig
  else match StorageManager.isValidConfig (item st) with
       | Some c => StorageManager.migrateConfig c
       | None => StorageManager.getDefaultConfig
       end.
Proof.
  unfold loaded, StorageManager.getConfig, tryCatch, bind, storageGet, ret.
  destruct (getFails st); [reflexivity|].
  destruct (StorageManager.isValidConfig (item st)); reflexivity.
Qed.

Lemma versionDiffers_current : StorageManager.versionDiffers currentVersion = false.
Proof. reflexivity. Qed.

Lemma versionDiffers_false (v : option string) :
  StorageManager.versionDiffers v = false <-> v = currentVersion.
Proof.
  unfold StorageManager.versionDiffers, currentVersion. simpl.
  destruct v as [a|]; [|split; discriminate].
  destruct (String.eqb_spec a "1.0.0") as [->|Hne]; simpl.
  - split; reflexivity.
  - split; [discriminate | intros [= E]; congruence].
Qed.

(** Every configuration [getConfig] returns carries the current version. *)
Lemma loaded_version (st : Storage) : ExtensionConfig.version (loaded st) = currentVersion.
Proof.
  rewrite loaded_cases. destruct (getFails st); [reflexivity|].
  destruct (StorageManager.isValidConfig (item st)) as [c|]; [|reflexivity].
  unfold StorageManager.migrateConfig.
  destruct (StorageManager.versionDiffers (ExtensionConfig.version c)) eqn:E;
    [reflexivity | now apply versionDiffers_false].
Qed.

(** A typed configuration always passes the guard of [saveConfig]. *)
Lemma isValidConfig_toJs (config : ExtensionConfig.t) :
  StorageManager.isValidConfig (JsObject (StorageManager.toJs config)) = Some config.
Proof. destruct config; reflexivity. Qed.

(** [saveConfig] when the storage accepts the write. *)
Lemma saveConfig_ok (config : ExtensionConfig.t) (st : Storage) :
  setFails st = false ->
  StorageManager.saveConfig config st =
  (inr tt,
   mkStorage
     (JsObject (StorageManager.toJs
        (ExtensionConfig.mk (ExtensionConfig.sites config)
           (ExtensionConfig.settings config) currentVersion)))
     (getFails st) (setFails st)).
Proof.
  intro Hw. unfold StorageManager.saveConfig. rewrite isValidConfig_toJs.
  unfold storageSet. now rewrite Hw.
Qed.

Lemma saveConfig_fails (config : ExtensionConfig.t) (st : Storage) :
  setFails st = true ->
  StorageManager.saveConfig config st = (inl StorageFailure, st).
Proof.
  intro Hw. unfold StorageManager.saveConfig. rewrite isValidConfig_toJs.
  unfold storageSet. now rewrite Hw.
Qed.

Lemma saveSites_ok (sites : list ServiceSite.t) (st : Storage) :
  setFails st = false ->
  StorageManager.saveSites sites st = (inr tt, savedSites sites st).
Proof.
  intro Hw. unfold StorageManager.saveSites, bind. rewrite getConfig_loaded.
  now rewrite saveConfig_ok.
Qed.

(** What is read back after a write of a typed configuration. *)
Lemma loaded_after_write (config : ExtensionConfig.t) (g w : bool) :
  g = false ->
  loaded (mkStorage
            (JsObject (StorageManager.toJs
               (ExtensionConfig.mk (ExtensionConfig.sites config)
                  (ExtensionConfig.settings config) currentVersion))) g w)
  = ExtensionConfig.mk (ExtensionConfig.sites config)
      (ExtensionConfig.settings config) currentVersion.
Proof. intros ->. reflexivity. Qed.

End Persistence.

(** Enter an operation of the manager: its first step reads the sites. *)
Ltac read_sites op :=
  unfold op, bind, ConfigManager.getSites; rewrite getSites_loaded.

Section Load.

(** The guard accepts an object with a [sites] array and a [settings]
    object, and nothing else. *)
Lemma isValidConfig_spec (v : JsValue) (c : ExtensionConfig.t) :
  StorageManager.isValidConfig v = Some c <->
  exists o, v = JsObject o /\
            raw_sites o = SitesArray (ExtensionConfig.sites c) /\
            raw_settings o = SettingsObject (ExtensionConfig.settings c) /\
            raw_version o = ExtensionConfig.version c.
Proof.
  split.
  - destruct v as [| |  |o]; simpl; try discriminate.
    destruct (raw_sites o) eqn:Es; try discriminate.
    destruct (raw_settings o) eqn:Et; try discriminate.
    intros [= <-]. exists o. auto.
  - intros [o (-> & Hs & Ht & Hv)]. simpl. rewrite Hs, Ht, Hv. now destruct c.
Qed.

Lemma migrateSite_backfilled (s : ServiceSite.t) :
  backfilled s (StorageManager.migrateSite s).
Proof.
  unfold backfilled, StorageManager.migrateSite. simpl.
  repeat (split; [reflexivity|]).
  destruct (ServiceSite.shortcuts s) as [sc|]; [|exact I].
  unfold explicitEnabled, StorageManager.migrateShortcut. simpl.
  destruct (ShortcutKey.enabled sc); auto.
Qed.

(** Over a storage whose [sites] hold sites: [getConfig] returns a
    configuration whatever the storage holds and
    whether or not the read goes through, and leaves the storage alone.
    Without a document, or with one the shape check refuses, the result is
    the defaults; with a document of the right shape and another version,
    it is that document with an [enabled] flag in every shortcut there is
    ([true] where there was none) and the current version. *)
Theorem getConfig_never_fails :
  (forall st : Storage, StorageManager.getConfig st = (inr (loaded st), st)) /\
  (forall st : Storage,
     item st = JsUndefined \/ StorageManager.isValidConfig (item st) = None ->
     loaded st = Defaults.DEFAULT_CONFIG) /\
  (forall (st : Storage) (doc : ExtensionConfig.t),
     getFails st = false ->
     StorageManager.isValidConfig (item st) = Some doc ->
     ExtensionConfig.version doc <> currentVersion ->
     Forall2 backfilled (ExtensionConfig.sites doc) (ExtensionConfig.sites (loaded st)) /\
     ExtensionConfig.settings (loaded st) = ExtensionConfig.settings doc /\
     ExtensionConfig.version (loaded st) = currentVersion).
Proof.
  split; [exact getConfig_loaded|]. split.
  - intros st H. rewrite loaded_cases. destruct (getFails st); [reflexivity|].
    destruct H as [H|H]; [rewrite H | rewrite H]; reflexivity.
  - intros st doc Hr Hv Hver. rewrite loaded_cases, Hr, Hv.
    unfold StorageManager.migrateConfig.
    destruct (StorageManager.versionDiffers (ExtensionConfig.version doc)) eqn:E.
    + simpl. split; [|split; reflexivity].
      induction (ExtensionConfig.sites doc) as [|s l IH]; simpl; constructor.
      * apply migrateSite_backfilled.
      * exact IH.
    + apply versionDiffers_false in E. contradiction.
Qed.

Lemma getConfig_never_fails_witness :
  let old :=
    ServiceSite.mk "github1s" "GitHub1s" "sites.descriptions.github1s" "source"
      "https://github1s.com/{REPO_PATH}" "github" true 1 true
      (Some (ShortcutKey.mk "1" ["ctrl"; "shift"] None)) in
  let doc := ExtensionConfig.mk [old] Defaults.DEFAULT_SETTINGS (Some "0.9.0") in
  let st := mkStorage (JsObject (StorageManager.toJs doc)) false false in
  loaded (mkStorage JsUndefined false false) = Defaults.DEFAULT_CONFIG /\
  loaded (mkStorage (JsPrim (PStr "x")) false false) = Defaults.DEFAULT_CONFIG /\
  Forall2 backfilled (ExtensionConfig.sites doc) (ExtensionConfig.sites (loaded st)) /\
  ExtensionConfig.settings (loaded st) = ExtensionConfig.settings doc /\
  ExtensionConfig.version (loaded st) = currentVersion.
Proof.
  intros old doc st.
  destruct getConfig_never_fails as (_ & Hdefault & Hmigrate).
  split; [apply Hdefault; left; reflexivity|].
  split; [apply Hdefault; right; reflexivity|].
  apply (Hmigrate st doc); [reflexivity | reflexivity | discriminate].
Defined.

(** A document of the right shape and the current version is returned as it
    is; when the read fails the result is the defaults. *)
Lemma getConfig_other_cases :
  (forall (st : Storage) (doc : ExtensionConfig.t),
     getFails st = false ->
     StorageManager.isValidConfig (item st) = Some doc ->
     ExtensionConfig.version doc = currentVersion ->
     loaded st = doc) /\
  (forall st : Storage, getFails st = true -> loaded st = Defaults.DEFAULT_CONFIG).
Proof.
  split.
  - intros st doc Hr Hv Hver. rewrite loaded_cases, Hr, Hv.
    unfold StorageManager.migrateConfig.
    apply versionDiffers_false in Hver. now rewrite Hver.
  - intros st Hr. now rewrite loaded_cases, Hr.
Qed.

End Load.

(** ** Loading any stored value *)

Section LoadAnyValue.

Lemma migrateElements_sites (l : list ServiceSite.t) :
  Untyped.migrateElements (map Untyped.Site l)
  = inr (map Untyped.Site (map StorageManager.migrateSite l)).
Proof.
  induction l as [|s l IH]; cbn [map Untyped.migrateElements Untyped.migrateElement];
    [reflexivity|].
  now rewrite IH.
Qed.

Lemma allSites_map (l : list Untyped.Element) (sites : list ServiceSite.t) :
  Untyped.allSites l = Some sites <-> l = map Untyped.Site sites.
Proof.
  revert sites. induction l as [|e l IH]; intro sites; cbn [Untyped.allSites].
  - split; [intros [= <-]; reflexivity|]. destruct sites; [reflexivity | discriminate].
  - destruct e as [|s].
    + split; [discriminate|]. destruct sites; discriminate.
    + destruct (Untyped.allSites l) as [rest|] eqn:E.
      * split.
        -- intros [= <-]. cbn [map]. f_equal. now apply IH.
        -- destruct sites as [|x sites]; [discriminate|]. cbn [map].
           intros [= -> Hl]. apply IH in Hl. now injection Hl as ->.
      * split; [discriminate|].
        destruct sites as [|x sites]; [discriminate|]. cbn [map].
        intros [= -> Hl]. apply IH in Hl. discriminate.
Qed.

Lemma migrateElements_null (l : list Untyped.Element) :
  In Untyped.Null l -> Untyped.migrateElements l = inl Untyped.TypeError.
Proof.
  induction l as [|e l IH]; [intros []|].
  intros [->|Hin]; [reflexivity|].
  cbn [Untyped.migrateElements]. destruct e as [|s]; [reflexivity|].
  cbn [Untyped.migrateElement]. now rewrite (IH Hin).
Qed.

Lemma isValidConfig_ofValue (v : JsValue) :
  Untyped.isValidConfig (Untyped.ofValue v)
  = option_map Untyped.ofConfig (StorageManager.isValidConfig v).
Proof.
  destruct v as [| p | | o]; try reflexivity.
  cbn [Untyped.ofValue Untyped.isValidConfig StorageManager.isValidConfig
       Untyped.doc_sites Untyped.doc_settings Untyped.doc_version].
  destruct (raw_sites o); try reflexivity.
  cbn [Untyped.ofSites]. destruct (raw_settings o); reflexivity.
Qed.

Lemma migrateConfig_ofConfig (c : ExtensionConfig.t) :
  Untyped.migrateConfig (Untyped.ofConfig c)
  = inr (Untyped.ofConfig (StorageManager.migrateConfig c)).
Proof.
  unfold Untyped.migrateConfig, StorageManager.migrateConfig.
  cbn [Untyped.ofConfig Untyped.version Untyped.sites Untyped.settings].
  destruct (StorageManager.versionDiffers (ExtensionConfig.version c)); [|reflexivity].
  now rewrite migrateElements_sites.
Qed.

(** C9. [getConfig] returns a configuration whatever value is stored, the
    elements of [sites] sites or [null], and whether or not the read goes
    through.  When the read throws, when nothing is stored or when the shape
    check refuses what is stored, the result is the defaults.  With a
    document of the right shape and another version, all of whose elements
    are sites, it is that document with an [enabled] flag in every shortcut
    there is ([true] where there was none) and the current version; with a
    [null] among the elements the migration throws and the result is the
    defaults.  Over a storage whose elements are sites this is the
    [getConfig] of the storage manager. *)
Theorem getConfig_any_stored_value :
  (forall st : Untyped.Store, exists c, Untyped.getConfig st = (inr c, st)) /\
  (forall st : Untyped.Store,
     Untyped.getThrows st = true \/
     Untyped.stored st = Untyped.VUndefined \/
     Untyped.isValidConfig (Untyped.stored st) = None ->
     Untyped.getConfig st = (inr Untyped.getDefaultConfig, st)) /\
  (forall (st : Untyped.Store) (doc : Untyped.Config) (l : list ServiceSite.t),
     Untyped.getThrows st = false ->
     Untyped.isValidConfig (Untyped.stored st) = Some doc ->
     Untyped.version doc <> currentVersion ->
     Untyped.allSites (Untyped.sites doc) = Some l ->
     exists l',
       Untyped.getConfig st
       = (inr (Untyped.mkConfig (map Untyped.Site l') (Untyped.settings doc)
                 currentVersion), st) /\
       Forall2 backfilled l l') /\
  (forall (st : Untyped.Store) (doc : Untyped.Config),
     Untyped.getThrows st = false ->
     Untyped.isValidConfig (Untyped.stored st) = Some doc ->
     Untyped.version doc <> currentVersion ->
     In Untyped.Null (Untyped.sites doc) ->
     Untyped.getConfig st = (inr Untyped.getDefaultConfig, st)) /\
  (forall st : Storage,
     Untyped.getConfig (Untyped.ofStorage st)
     = (inr (Untyped.ofConfig (loaded st)), Untyped.ofStorage st) /\
     StorageManager.getConfig st = (inr (loaded st), st)).
Proof.
  split; [|split; [|split; [|split]]].
  - intro st. unfold Untyped.getConfig.
    destruct (Untyped.tryBlock st) as [thrown|[c|]]; eexists; reflexivity.
  - intros st H. unfold Untyped.getConfig, Untyped.tryBlock, Untyped.storageGet.
    destruct (Untyped.getThrows st); [reflexivity|].
    destruct H as [H|[H|H]]; [discriminate | rewrite H; reflexivity | now rewrite H].
  - intros st doc l Hr Hv Hver Hall.
    apply allSites_map in Hall.
    exists (map StorageManager.migrateSite l). split.
    + unfold Untyped.getConfig, Untyped.tryBlock, Untyped.storageGet.
      rewrite Hr, Hv. unfold Untyped.migrateConfig.
      destruct (StorageManager.versionDiffers (Untyped.version doc)) eqn:E.
      * now rewrite Hall, migrateElements_sites.
      * apply versionDiffers_false in E. contradiction.
    + clear. induction l as [|s l IH]; cbn [map]; constructor;
        [apply migrateSite_backfilled | exact IH].
  - intros st doc Hr Hv Hver Hnull.
    unfold Untyped.getConfig, Untyped.tryBlock, Untyped.storageGet.
    rewrite Hr, Hv. unfold Untyped.migrateConfig.
    destruct (StorageManager.versionDiffers (Untyped.version doc)) eqn:E.
    + now rewrite (migrateElements_null _ Hnull).
    + apply versionDiffers_false in E. contradiction.
  - intro st. split; [|apply getConfig_loaded].
    unfold Untyped.getConfig, Untyped.tryBlock, Untyped.storageGet.
    cbn [Untyped.ofStorage Untyped.getThrows Untyped.stored].
    rewrite loaded_cases. destruct (getFails st); [reflexivity|].
    rewrite isValidConfig_ofValue.
    destruct (StorageManager.isValidConfig (item st)) as [c|]; [|reflexivity].
    cbn [option_map]. now rewrite migrateConfig_ofConfig.
Qed.

Lemma getConfig_any_stored_value_witness :
  let old :=
    ServiceSite.mk "github1s" "GitHub1s" "sites.descriptions.github1s" "source"
      "https://github1s.com/{REPO_PATH}" "github" true 1 true
      (Some (ShortcutKey.mk "1" ["ctrl"; "shift"] None)) in
  let document sites :=
    Untyped.VObject (Untyped.mkDocument (Untyped.Array sites)
                       (SettingsObject Defaults.DEFAULT_SETTINGS) (Some "0.9.0")) in
  let typed := Untyped.mkStore (document [Untyped.Site old]) false in
  let holed := Untyped.mkStore (document [Untyped.Site old; Untyped.Null]) false in
  Untyped.getConfig (Untyped.mkStore (Untyped.VPrim (PStr "x")) false)
  = (inr Untyped.getDefaultConfig, Untyped.mkStore (Untyped.VPrim (PStr "x")) false) /\
  (exists l',
     Untyped.getConfig typed
     = (inr (Untyped.mkConfig (map Untyped.Site l') Defaults.DEFAULT_SETTINGS
               currentVersion), typed) /\
     Forall2 backfilled [old] l') /\
  Untyped.getConfig holed = (inr Untyped.getDefaultConfig, holed).
Proof.
  intros old document typed holed.
  destruct getConfig_any_stored_value as (_ & Hdefault & Hmigrate & Hnull & _).
  split; [apply Hdefault; right; right; reflexivity|]. split.
  - apply (Hmigrate typed
             (Untyped.mkConfig [Untyped.Site old] Defaults.DEFAULT_SETTINGS (Some "0.9.0"))
             [old]); [reflexivity | reflexivity | discriminate | reflexivity].
  - apply (Hnull holed
             (Untyped.mkConfig [Untyped.Site old; Untyped.Null] Defaults.DEFAULT_SETTINGS
                (Some "0.9.0")));
      [reflexivity | reflexivity | discriminate | right; left; reflexivity].
Defined.

(** C9 as stated fails for a stored document of the right shape and another
    version whose [sites] hold a [null]: what [getConfig] returns is the
    defaults, not that document with the current version. *)
Lemma getConfig_counterexample :
  let doc :=
    Untyped.mkConfig [Untyped.Null] (ExtensionSettings.mk None None None None)
      (Some "0.9.0") in
  let st :=
    Untyped.mkStore
      (Untyped.VObject
         (Untyped.mkDocument (Untyped.Array [Untyped.Null])
            (SettingsObject (ExtensionSettings.mk None None None None)) (Some "0.9.0")))
      false in
  Untyped.isValidConfig (Untyped.stored st) = Some doc /\
  Untyped.version doc <> currentVersion /\
  Untyped.getConfig st = (inr Untyped.getDefaultConfig, st) /\
  length (Untyped.sites Untyped.getDefaultConfig) = 5 /\
  ~ (exists migrated,
       Untyped.getConfig st = (inr migrated, st) /\
       length (Untyped.sites migrated) = length (Untyped.sites doc) /\
       Untyped.settings migrated = Untyped.settings doc /\
       Untyped.version migrated = currentVersion).
Proof.
  intros doc st.
  split; [reflexivity|]. split; [discriminate|]. split; [reflexivity|].
  split; [reflexivity|].
  intros [migrated (Hrun & Hlen & _)].
  assert (Untyped.getConfig st = (inr Untyped.getDefaultConfig, st)) as Hd
    by reflexivity.
  rewrite Hd in Hrun. injection Hrun as <-.
  vm_compute in Hlen. discriminate Hlen.
Qed.

End LoadAnyValue.

(** ** Shortcut conflicts *)

Section Conflicts.

Lemma hasId_true (id : string) (site : ServiceSite.t) :
  ConfigManager.hasId id site = true <-> ServiceSite.id site = id.
Proof. unfold ConfigManager.hasId. apply String.eqb_eq. Qed.

Lemma conflictsWith_spec (siteId str : string) (site : ServiceSite.t) :
  conflictsWith siteId str site = true <->
  ServiceSite.id site <> siteId /\ ownsChord str site.
Proof.
  unfold conflictsWith, ownsChord. rewrite andb_true_iff, negb_true_iff, String.eqb_neq.
  split.
  - intros [Hid H]. split; [assumption|].
    destruct (ServiceSite.shortcuts site) as [sc|]; [|discriminate].
    destruct (ShortcutKey.enabled sc) as [[]|] eqn:E; try discriminate.
    exists sc. repeat split; [assumption | now apply String.eqb_eq].
  - intros [Hid [sc (-> & -> & E)]]. split; [assumption | now apply String.eqb_eq].
Qed.

Lemma findIndex_hasSite (id : string) (sites : list ServiceSite.t) :
  hasSite id sites ->
  exists i site, ConfigManager.findIndex (ConfigManager.hasId id) sites = Some (i, site) /\
                 nth_error sites i = Some site /\ ServiceSite.id site = id.
Proof.
  induction sites as [|s l IH]; intros [x [Hin Hx]]; [destruct Hin|].
  simpl. destruct (ConfigManager.hasId id s) eqn:E.
  - exists 0, s. repeat split. now apply hasId_true.
  - destruct Hin as [->|Hin].
    + apply hasId_true in Hx. congruence.
    + destruct IH as [i [site (Hf & Hn & Hi)]]; [now exists x|].
      rewrite Hf. exists (S i), site. auto.
Qed.

Lemma findIndex_None (id : string) (sites : list ServiceSite.t) :
  ConfigManager.findIndex (ConfigManager.hasId id) sites = None <-> ~ hasSite id sites.
Proof.
  split.
  - intros Hf Hh. destruct (findIndex_hasSite _ _ Hh) as [i [s [E _]]]. congruence.
  - intro Hn. destruct (ConfigManager.findIndex _ sites) as [[i s]|] eqn:E; [|reflexivity].
    exfalso. apply Hn. clear Hn. revert i s E.
    induction sites as [|x l IH]; simpl; [discriminate|]. intros i s.
    destruct (ConfigManager.hasId id x) eqn:Ex.
    + intros _. exists x. split; [now left | now apply hasId_true].
    + destruct (ConfigManager.findIndex _ l) as [[j y]|]; [|discriminate].
      intros _. destruct (IH j y eq_refl) as [z [Hz Hid]]. exists z. split; [now right | assumption].
Qed.

(** The sites [checkShortcutConflicts] reports. *)
Lemma scanConflicts_names (str siteId : string) (sites : list ServiceSite.t) :
  map ShortcutConflict.siteName (fst (ConfigManager.scanConflicts str siteId sites))
  = map ServiceSite.name (filter (conflictsWith siteId str) sites).
Proof.
  induction sites as [|s l IH]; [reflexivity|].
  cbn [ConfigManager.scanConflicts filter].
  destruct (ConfigManager.scanConflicts str siteId l) as [conflicts rest'] eqn:El.
  cbn [fst] in IH.
  unfold conflictsWith at 1, ConfigManager.shortcutEnabled, ConfigManager.hasId, canonical.
  destruct (ServiceSite.shortcuts s) as [sc|]; [|rewrite andb_false_r; exact IH].
  destruct (negb (String.eqb (ServiceSite.id s) siteId)); cbn [andb]; [|exact IH].
  destruct (ShortcutKey.enabled sc) as [[]|]; try exact IH.
  destruct (ConfigManager.formatShortcutString sc) as [existing sc'] eqn:Ef.
  cbn [fst]. destruct (String.eqb existing str); cbn [fst map]; [now rewrite IH | exact IH].
Qed.

Lemma checkShortcutConflicts_names (sites : list ServiceSite.t) (siteId : string)
    (chord : ShortcutKey.t) :
  map ShortcutConflict.siteName (fst (ConfigManager.checkShortcutConflicts sites siteId chord))
  = map ServiceSite.name (filter (conflictsWith siteId (canonical chord)) sites).
Proof.
  unfold ConfigManager.checkShortcutConflicts, canonical.
  destruct (ConfigManager.formatShortcutString chord) as [str chord'].
  pose proof (scanConflicts_names str siteId sites) as H.
  destruct (ConfigManager.scanConflicts str siteId sites) as [conflicts sites'].
  exact H.
Qed.

End Conflicts.

Section UpdateSiteShortcutConflict.

(** C2. When another site owns the canonical string of an enabled chord,
    [updateSiteShortcut] throws the conflict error with the names of all the
    sites that own it, and the storage is what it was; so it is for
    ctrl+shift+1 on [github_dev] from the defaults, [github1s] owning it. *)
Theorem updateSiteShortcut_conflict :
  (forall (st : Storage) (siteId : string) (chord : ShortcutKey.t),
     hasSite siteId (ExtensionConfig.sites (loaded st)) ->
     ShortcutKey.enabled chord = Some true ->
     (exists other, In other (ExtensionConfig.sites (loaded st)) /\
                    ServiceSite.id other <> siteId /\
                    ownsChord (canonical chord) other) ->
     exists names,
       ConfigManager.updateSiteShortcut siteId (Some chord) st
       = (inl (ShortcutConflictError names), st) /\
       names <> [] /\
       names = map ServiceSite.name
                 (filter (conflictsWith siteId (canonical chord))
                         (ExtensionConfig.sites (loaded st)))) /\
  (forall st : Storage,
     loaded st = Defaults.DEFAULT_CONFIG ->
     ConfigManager.updateSiteShortcut "github_dev"
       (Some (ShortcutKey.mk "1" ["ctrl"; "shift"] (Some true))) st
     = (inl (ShortcutConflictError ["GitHub1s"]), st)).
Proof.
  assert (forall (st : Storage) (siteId : string) (chord : ShortcutKey.t),
     hasSite siteId (ExtensionConfig.sites (loaded st)) ->
     ShortcutKey.enabled chord = Some true ->
     (exists other, In other (ExtensionConfig.sites (loaded st)) /\
                    ServiceSite.id other <> siteId /\
                    ownsChord (canonical chord) other) ->
     exists names,
       ConfigManager.updateSiteShortcut siteId (Some chord) st
       = (inl (ShortcutConflictError names), st) /\
       names <> [] /\
       names = map ServiceSite.name
                 (filter (conflictsWith siteId (canonical chord))
                         (ExtensionConfig.sites (loaded st)))) as Hgen.
  { intros st siteId chord Hsite Hen [other (Hin & Hid & Howns)].
    set (sites := ExtensionConfig.sites (loaded st)) in *.
    exists (map ServiceSite.name (filter (conflictsWith siteId (canonical chord)) sites)).
    assert (map ServiceSite.name (filter (conflictsWith siteId (canonical chord)) sites)
            <> []) as Hne.
    { intro E. apply map_eq_nil in E.
      assert (In other (filter (conflictsWith siteId (canonical chord)) sites)) as Hf.
      { apply filter_In. split; [assumption|]. now apply conflictsWith_spec. }
      rewrite E in Hf. destruct Hf. }
    split; [|split; [exact Hne | reflexivity]].
    read_sites ConfigManager.updateSiteShortcut. fold sites.
    destruct (findIndex_hasSite _ _ Hsite) as [i [site (Hf & _ & _)]]. rewrite Hf.
    rewrite Hen. cbn [ConfigManager.orElse].
    pose proof (checkShortcutConflicts_names sites siteId chord) as Hnames.
    destruct (ConfigManager.checkShortcutConflicts sites siteId chord)
      as [conflicts [sites' chord']].
    cbn [fst] in Hnames.
    destruct conflicts as [|c cs].
    - simpl in Hnames. congruence.
    - cbn [length Nat.ltb Nat.leb]. unfold throw. now rewrite Hnames. }
  split; [exact Hgen|].
  intros st Hdef.
  read_sites ConfigManager.updateSiteShortcut.
  rewrite Hdef. reflexivity.
Qed.

Lemma updateSiteShortcut_conflict_witness :
  let st := mkStorage JsUndefined false false in
  let chord := ShortcutKey.mk "3" ["shift"; "ctrl"] (Some true) in
  (exists names,
     ConfigManager.updateSiteShortcut "zread" (Some chord) st
     = (inl (ShortcutConflictError names), st) /\
     names <> [] /\
     names = map ServiceSite.name
               (filter (conflictsWith "zread" (canonical chord))
                       (ExtensionConfig.sites (loaded st)))) /\
  ConfigManager.updateSiteShortcut "github_dev"
    (Some (ShortcutKey.mk "1" ["ctrl"; "shift"] (Some true))) st
  = (inl (ShortcutConflictError ["GitHub1s"]), st).
Proof.
  intros st chord. split.
  - apply (proj1 updateSiteShortcut_conflict st "zread" chord).
    + exists (ServiceSite.mk "zread" "ZRead" "sites.descriptions.zread" "ai"
                "https://zread.ai/{REPO_PATH}" "external-link" true 4 true
                (Defaults.ctrlShift "4")).
      split; [simpl; tauto | reflexivity].
    + reflexivity.
    + exists (ServiceSite.mk "sourcegraph" "Sourcegraph" "sites.descriptions.sourcegraph"
                "source" "https://sourcegraph.com/github.com/{REPO_PATH}" "search" true 3
                true (Defaults.ctrlShift "3")).
      split; [simpl; tauto|]. split; [discriminate|].
      exists (ShortcutKey.mk "3" ["ctrl"; "shift"] (Some true)). repeat split.
  - apply (proj2 updateSiteShortcut_conflict st). reflexivity.
Defined.

End UpdateSiteShortcutConflict.

(** ** Suggested shortcuts *)

Section Suggestion.

Lemma usedShortcuts_inUse (siteId : string) (sites : list ServiceSite.t) (str : string) :
  JsString.arrayIncludes str (ConfigManager.usedShortcuts siteId sites) = true <->
  inUse siteId sites str.
Proof.
  rewrite arrayIncludes_In. unfold inUse.
  induction sites as [|s l IH]; simpl.
  - split; [tauto | intros [x [[] _]]].
  - assert (forall (P : ServiceSite.t -> Prop),
              (exists site, (s = site \/ In site l) /\ P site) <->
              P s \/ exists site, In site l /\ P site) as Hex.
    { intro P. split.
      - intros [x [[<-|Hx] HP]]; [now left | right; now exists x].
      - intros [HP|[x [Hx HP]]]; [exists s | exists x]; auto. }
    rewrite (Hex (fun site => ServiceSite.id site <> siteId /\ ownsChord str site)).
    rewrite <- IH. clear Hex IH.
    pose proof (conflictsWith_spec siteId str s) as Hc.
    unfold conflictsWith, ConfigManager.shortcutEnabled, ConfigManager.hasId in *.
    destruct (ServiceSite.shortcuts s) as [sc|].
    + destruct (negb (String.eqb (ServiceSite.id s) siteId)); cbn [andb] in *.
      * destruct (ShortcutKey.enabled sc) as [[]|].
        -- simpl. rewrite <- Hc, String.eqb_eq. unfold canonical.
           split; (intros [H|H]; [left | right]); auto.
        -- rewrite <- Hc. split; [now right | intros [H|H]; [discriminate | exact H]].
        -- rewrite <- Hc. split; [now right | intros [H|H]; [discriminate | exact H]].
      * rewrite <- Hc. split; [now right | intros [H|H]; [discriminate | exact H]].
    + rewrite andb_false_r in Hc.
      rewrite <- Hc. split; [now right | intros [H|H]; [discriminate | exact H]].
Qed.

(** The loop keeps [baseModifiers] as it is and stops at the first key whose
    string is not in [used]. *)
Lemma suggestFrom_find (used keys : list string) :
  ConfigManager.suggestFrom used ["ctrl"; "shift"] keys
  = option_map chordFor
      (find (fun k => negb (JsString.arrayIncludes (canonical (chordFor k)) used)) keys).
Proof.
  induction keys as [|k rest IH]; [reflexivity|].
  cbn [ConfigManager.suggestFrom find].
  change (ConfigManager.formatShortcutString (ShortcutKey.mk k ["ctrl"; "shift"] (Some true)))
    with (canonical (chordFor k), chordFor k).
  cbn [ShortcutKey.modifiers chordFor].
  destruct (negb (JsString.arrayIncludes (canonical (chordFor k)) used)); [reflexivity|].
  exact IH.
Qed.

Lemma find_first {A : Type} (f : A -> bool) (l : list A) :
  match find f l with
  | Some x => exists pre post, l = pre ++ x :: post /\
                               (forall y, In y pre -> f y = false) /\ f x = true
  | None => forall y, In y l -> f y = false
  end.
Proof.
  induction l as [|a l IH]; simpl; [tauto|].
  destruct (f a) eqn:E.
  - exists [], l. repeat split; [intros y []| assumption].
  - destruct (find f l) as [x|].
    + destruct IH as [pre [post (-> & Hpre & Hx)]].
      exists (a :: pre), post. repeat split; [|assumption].
      intros y [<-|Hy]; auto.
    + intros y [<-|Hy]; auto.
Qed.

End Suggestion.

Section SuggestedShortcut.

Lemma usedShortcuts_ext (a b : string) (sites : list ServiceSite.t) :
  (forall s, In s sites -> ConfigManager.hasId a s = ConfigManager.hasId b s) ->
  ConfigManager.usedShortcuts a sites = ConfigManager.usedShortcuts b sites.
Proof.
  induction sites as [|s l IH]; intro H; [reflexivity|]. simpl.
  rewrite (H s (or_introl eq_refl)), IH; [reflexivity|].
  intros x Hx. apply H. now right.
Qed.

(** C5, as the code has it.  [getSuggestedShortcut] visits the digits in the
    order 1, 2, ..., 9, 0 and returns ctrl+shift with the first one whose
    canonical string no other site owns with an enabled shortcut, nothing
    when the ten are owned; on the defaults, for an id that is none of
    theirs, that is the key 6. *)
Theorem getSuggestedShortcut_first_free :
  (forall (st : Storage) (siteId : string),
     exists r,
       ConfigManager.getSuggestedShortcut siteId st = (inr r, st) /\
       firstFree SUGGESTION_KEYS (inUse siteId (ExtensionConfig.sites (loaded st))) r) /\
  (forall (st : Storage) (siteId : string),
     loaded st = Defaults.DEFAULT_CONFIG ->
     ~ hasSite siteId Defaults.DEFAULT_SITES ->
     ConfigManager.getSuggestedShortcut siteId st = (inr (Some (chordFor "6")), st)).
Proof.
  split.
  - intros st siteId.
    read_sites ConfigManager.getSuggestedShortcut. unfold ret. eexists. split; [reflexivity|].
    set (sites := ExtensionConfig.sites (loaded st)).
    change ["1"; "2"; "3"; "4"; "5"; "6"; "7"; "8"; "9"; "0"] with SUGGESTION_KEYS.
    rewrite suggestFrom_find.
    pose proof (find_first
      (fun k => negb (JsString.arrayIncludes (canonical (chordFor k))
                        (ConfigManager.usedShortcuts siteId sites))) SUGGESTION_KEYS) as Hf.
    destruct (find _ SUGGESTION_KEYS) as [k|]; cbn [option_map firstFree].
    + destruct Hf as [pre [post (E & Hpre & Hk)]].
      exists pre, k, post. split; [exact E|]. split; [reflexivity|]. split.
      * intros k' Hk'. apply usedShortcuts_inUse.
        specialize (Hpre k' Hk'). now apply negb_false_iff in Hpre.
      * intro Hin. apply usedShortcuts_inUse in Hin. rewrite Hin in Hk. discriminate.
    + intros k Hk. apply usedShortcuts_inUse.
      specialize (Hf k Hk). now apply negb_false_iff in Hf.
  - intros st siteId Hdef Hnot.
    read_sites ConfigManager.getSuggestedShortcut. unfold ret.
    rewrite Hdef.
    change (ExtensionConfig.sites Defaults.DEFAULT_CONFIG) with Defaults.DEFAULT_SITES.
    rewrite (usedShortcuts_ext siteId "" Defaults.DEFAULT_SITES); [reflexivity|].
    intros s Hs.
    assert (ConfigManager.hasId "" s = false) as ->.
    { simpl in Hs. decompose [or] Hs; subst; try reflexivity; contradiction. }
    destruct (ConfigManager.hasId siteId s) eqn:E; [|reflexivity].
    exfalso. apply Hnot. exists s. split; [assumption | now apply hasId_true].
Qed.

Lemma getSuggestedShortcut_first_free_witness :
  let st := mkStorage JsUndefined false false in
  ~ hasSite "custom-mirror-1" Defaults.DEFAULT_SITES /\
  ConfigManager.getSuggestedShortcut "custom-mirror-1" st = (inr (Some (chordFor "6")), st).
Proof.
  intro st.
  assert (~ hasSite "custom-mirror-1" Defaults.DEFAULT_SITES) as Hnot.
  { intros [s [Hs Hid]]. simpl in Hs. decompose [or] Hs; subst; try discriminate; contradiction. }
  split; [exact Hnot|].
  apply (proj2 getSuggestedShortcut_first_free st "custom-mirror-1"); [reflexivity | exact Hnot].
Defined.

(** C5 as stated fails: with no shortcut in use the digit 0 is free and
    comes first in ascending order, and the result is the key 1; and on the
    defaults the suggestion for [github1s] is its own key 1, not 6. *)
Lemma getSuggestedShortcut_counterexample :
  let empty :=
    mkStorage (JsObject (StorageManager.toJs
                 (ExtensionConfig.mk [] Defaults.DEFAULT_SETTINGS (Some "1.0.0"))))
              false false in
  let fresh := mkStorage JsUndefined false false in
  (ConfigManager.getSuggestedShortcut "custom-mirror-1" empty
   = (inr (Some (chordFor "1")), empty) /\
   ~ firstFree ASCENDING_DIGITS
       (inUse "custom-mirror-1" (ExtensionConfig.sites (loaded empty)))
       (Some (chordFor "1"))) /\
  (loaded fresh = Defaults.DEFAULT_CONFIG /\
   ConfigManager.getSuggestedShortcut "github1s" fresh
   = (inr (Some (chordFor "1")), fresh)).
Proof.
  intros empty fresh. split; [split | split]; try reflexivity.
  intros [pre [k [post (E & Hc & Hpre & _)]]].
  injection Hc as <-.
  destruct pre as [|x pre]; [discriminate E|].
  injection E as <- E.
  destruct (Hpre "0" (or_introl eq_refl)) as [site [[] _]].
Qed.

End SuggestedShortcut.

(** ** Site lookup in a list with distinct ids *)

Section UniqueIds.

Lemma loaded_savedSites (sites : list ServiceSite.t) (st : Storage) :
  getFails st = false ->
  loaded (savedSites sites st)
  = ExtensionConfig.mk sites (ExtensionConfig.settings (loaded st)) currentVersion.
Proof. intro Hr. unfold savedSites. rewrite loaded_cases. cbn. now rewrite Hr. Qed.

(** A site of a list with distinct ids is the only one with its id. *)
Lemma uniqueIds_split (sites : list ServiceSite.t) (site : ServiceSite.t) :
  uniqueIds sites -> In site sites ->
  exists l1 l2, sites = l1 ++ site :: l2 /\
                (forall x, In x l1 -> ConfigManager.hasId (ServiceSite.id site) x = false) /\
                (forall x, In x l2 -> ConfigManager.hasId (ServiceSite.id site) x = false).
Proof.
  intros Hu Hin. destruct (in_split _ _ Hin) as [l1 [l2 ->]].
  exists l1, l2. split; [reflexivity|].
  unfold uniqueIds in Hu. rewrite map_app in Hu. cbn [map] in Hu.
  apply NoDup_remove_2 in Hu.
  assert (forall x, In x (l1 ++ l2) ->
                    ConfigManager.hasId (ServiceSite.id site) x = false) as H.
  { intros x Hx. destruct (ConfigManager.hasId (ServiceSite.id site) x) eqn:E;
      [|reflexivity].
    exfalso. apply Hu. apply hasId_true in E. rewrite <- E, <- map_app.
    now apply in_map. }
  split; intros x Hx; apply H, in_or_app; auto.
Qed.

Lemma findIndex_at {A : Type} (f : A -> bool) (l1 l2 : list A) (x : A) :
  (forall y, In y l1 -> f y = false) -> f x = true ->
  ConfigManager.findIndex f (l1 ++ x :: l2) = Some (length l1, x).
Proof.
  intros H1 Hx. induction l1 as [|a l1 IH]; simpl.
  - now rewrite Hx.
  - rewrite (H1 a (or_introl eq_refl)), IH; [reflexivity|].
    intros y Hy. apply H1. now right.
Qed.

Lemma find_at {A : Type} (f : A -> bool) (l1 l2 : list A) (x : A) :
  (forall y, In y l1 -> f y = false) -> f x = true ->
  find f (l1 ++ x :: l2) = Some x.
Proof.
  intros H1 Hx. induction l1 as [|a l1 IH]; simpl.
  - now rewrite Hx.
  - rewrite (H1 a (or_introl eq_refl)). apply IH.
    intros y Hy. apply H1. now right.
Qed.

Lemma setAt_at {A : Type} (l1 l2 : list A) (x v : A) :
  ConfigManager.setAt (length l1) v (l1 ++ x :: l2) = l1 ++ v :: l2.
Proof. induction l1 as [|a l1 IH]; simpl; [reflexivity | now rewrite IH]. Qed.

Lemma nth_at {A : Type} (l1 l2 : list A) (x d : A) :
  nth (length l1) (l1 ++ x :: l2) d = x.
Proof. induction l1 as [|a l1 IH]; simpl; [reflexivity | exact IH]. Qed.

Lemma filter_all {A : Type} (f : A -> bool) (l : list A) :
  (forall y, In y l -> f y = true) -> filter f l = l.
Proof.
  induction l as [|a l IH]; intro H; simpl; [reflexivity|].
  rewrite (H a (or_introl eq_refl)), IH; [reflexivity|].
  intros y Hy. apply H. now right.
Qed.

Lemma filter_out_at {A : Type} (f : A -> bool) (l1 l2 : list A) (x : A) :
  (forall y, In y l1 -> f y = false) -> (forall y, In y l2 -> f y = false) ->
  f x = true ->
  filter (fun y => negb (f y)) (l1 ++ x :: l2) = l1 ++ l2.
Proof.
  intros H1 H2 Hx. rewrite filter_app. cbn [filter]. rewrite Hx. cbn [negb].
  rewrite !filter_all; [reflexivity | |]; intros y Hy;
    [rewrite (H2 y Hy) | rewrite (H1 y Hy)]; reflexivity.
Qed.

Lemma hasId_self (site : ServiceSite.t) :
  ConfigManager.hasId (ServiceSite.id site) site = true.
Proof. now apply hasId_true. Qed.

End UniqueIds.

(** ** Deleting and disabling sites *)

Section DeleteAndToggle.

Lemma toggleSite_at (st : Storage) (l1 l2 : list ServiceSite.t) (site : ServiceSite.t)
    (enabled : bool) :
  ExtensionConfig.sites (loaded st) = l1 ++ site :: l2 ->
  (forall x, In x l1 -> ConfigManager.hasId (ServiceSite.id site) x = false) ->
  setFails st = false ->
  ConfigManager.toggleSite (ServiceSite.id site) enabled st
  = (inr (withEnabled site enabled),
     savedSites (l1 ++ withEnabled site enabled :: l2) st).
Proof.
  intros Hs H1 Hw.
  unfold ConfigManager.toggleSite.
  read_sites ConfigManager.updateSite.
  rewrite Hs.
  rewrite (findIndex_at _ l1 l2 site H1 (hasId_self site)).
  cbn [UpdateSiteInput.name UpdateSiteInput.urlTemplate UpdateSiteInput.category
       UpdateSiteInput.icon ConfigManager.truthyStr orb].
  change (ConfigManager.spreadUpdates site
            (UpdateSiteInput.mk None None None None None (Some enabled) None None))
    with (withEnabled site enabled).
  rewrite setAt_at, saveSites_ok by assumption. reflexivity.
Qed.

(** C6. In a configuration with distinct ids: [deleteSite] on a built-in
    site throws the error of the built-in sites and writes nothing, while
    [toggleSite] with [false] on it goes through and stores the site
    disabled, the rest as it was; [deleteSite] on an id that no site has
    throws too; on any other site it stores the list without that site. *)
Theorem deleteSite_builtin_toggle :
  (forall (st : Storage) (site : ServiceSite.t),
     uniqueIds (ExtensionConfig.sites (loaded st)) ->
     In site (ExtensionConfig.sites (loaded st)) ->
     ServiceSite.isBuiltIn site = true ->
     ConfigManager.deleteSite (ServiceSite.id site) st = (inl BuiltInNotDeletable, st) /\
     (storageWorks st ->
      exists l1 l2 st',
        ExtensionConfig.sites (loaded st) = l1 ++ site :: l2 /\
        ConfigManager.toggleSite (ServiceSite.id site) false st
        = (inr (withEnabled site false), st') /\
        loaded st' = ExtensionConfig.mk (l1 ++ withEnabled site false :: l2)
                       (ExtensionConfig.settings (loaded st))
                       (ExtensionConfig.version (loaded st)))) /\
  (forall (st : Storage) (id : string),
     ~ hasSite id (ExtensionConfig.sites (loaded st)) ->
     ConfigManager.deleteSite id st = (inl SiteDoesNotExist, st)) /\
  (forall (st : Storage) (site : ServiceSite.t),
     uniqueIds (ExtensionConfig.sites (loaded st)) ->
     In site (ExtensionConfig.sites (loaded st)) ->
     ServiceSite.isBuiltIn site = false ->
     storageWorks st ->
     exists l1 l2 st',
       ExtensionConfig.sites (loaded st) = l1 ++ site :: l2 /\
       ConfigManager.deleteSite (ServiceSite.id site) st = (inr tt, st') /\
       loaded st' = ExtensionConfig.mk (l1 ++ l2)
                      (ExtensionConfig.settings (loaded st))
                      (ExtensionConfig.version (loaded st))).
Proof.
  split; [|split].
  - intros st site Hu Hin Hb.
    destruct (uniqueIds_split _ _ Hu Hin) as [l1 [l2 (Hs & H1 & H2)]].
    split.
    + read_sites ConfigManager.deleteSite.
      rewrite Hs, (find_at _ l1 l2 site H1 (hasId_self site)), Hb.
      reflexivity.
    + intros [Hr Hw]. exists l1, l2. eexists. split; [exact Hs|]. split.
      * exact (toggleSite_at st l1 l2 site false Hs H1 Hw).
      * rewrite loaded_savedSites, loaded_version by assumption. reflexivity.
  - intros st id Hno.
    read_sites ConfigManager.deleteSite.
    destruct (find (ConfigManager.hasId id) (ExtensionConfig.sites (loaded st)))
      as [s|] eqn:E; [|reflexivity].
    exfalso. apply Hno. apply find_some in E as [Hin Hid].
    exists s. split; [assumption | now apply hasId_true].
  - intros st site Hu Hin Hb [Hr Hw].
    destruct (uniqueIds_split _ _ Hu Hin) as [l1 [l2 (Hs & H1 & H2)]].
    exists l1, l2. eexists. split; [exact Hs|]. split.
    + read_sites ConfigManager.deleteSite.
      rewrite Hs, (find_at _ l1 l2 site H1 (hasId_self site)), Hb.
      rewrite (filter_out_at _ l1 l2 site H1 H2 (hasId_self site)).
      exact (saveSites_ok (l1 ++ l2) st Hw).
    + rewrite loaded_savedSites, loaded_version by assumption. reflexivity.
Qed.

End DeleteAndToggle.

Section DeleteAndToggleExamples.

Lemma uniqueIds_defaults : uniqueIds Defaults.DEFAULT_SITES.
Proof.
  unfold uniqueIds. simpl.
  repeat (constructor; [simpl; intuition discriminate|]). constructor.
Qed.

Lemma deleteSite_builtin_toggle_witness :
  let st := mkStorage JsUndefined false false in
  let github1s :=
    ServiceSite.mk "github1s" "GitHub1s" "sites.descriptions.github1s" "source"
      "https://github1s.com/{REPO_PATH}" "github" true 1 true (Defaults.ctrlShift "1") in
  let mirror :=
    ServiceSite.mk "custom-mirror-1" "Mirror" "" "source"
      "https://example.com/{REPO_PATH}" "code" true 6 false None in
  let st2 :=
    mkStorage (JsObject (StorageManager.toJs
                 (ExtensionConfig.mk (Defaults.DEFAULT_SITES ++ [mirror])
                    Defaults.DEFAULT_SETTINGS (Some "1.0.0")))) false false in
  Forall (fun site =>
            ConfigManager.deleteSite (ServiceSite.id site) st
            = (inl BuiltInNotDeletable, st))
         Defaults.DEFAULT_SITES /\
  (exists l1 l2 st',
     ExtensionConfig.sites (loaded st) = l1 ++ github1s :: l2 /\
     ConfigManager.toggleSite "github1s" false st
     = (inr (withEnabled github1s false), st') /\
     loaded st' = ExtensionConfig.mk (l1 ++ withEnabled github1s false :: l2)
                    (ExtensionConfig.settings (loaded st))
                    (ExtensionConfig.version (loaded st))) /\
  ConfigManager.deleteSite "custom-mirror-9" st = (inl SiteDoesNotExist, st) /\
  (exists l1 l2 st',
     ExtensionConfig.sites (loaded st2) = l1 ++ mirror :: l2 /\
     ConfigManager.deleteSite "custom-mirror-1" st2 = (inr tt, st') /\
     loaded st' = ExtensionConfig.mk (l1 ++ l2)
                    (ExtensionConfig.settings (loaded st2))
                    (ExtensionConfig.version (loaded st2))).
Proof.
  intros st github1s mirror st2.
  destruct deleteSite_builtin_toggle as (Hbuiltin & Hunknown & Hcustom).
  split; [|split; [|split]].
  - apply Forall_forall. intros site Hin.
    apply (proj1 (Hbuiltin st site uniqueIds_defaults Hin
                    ltac:(simpl in Hin; decompose [or] Hin; subst;
                          try reflexivity; contradiction))).
  - apply (proj2 (Hbuiltin st github1s uniqueIds_defaults (or_introl eq_refl) eq_refl)).
    split; reflexivity.
  - apply Hunknown. intros [s [Hin Hid]].
    simpl in Hin. decompose [or] Hin; subst; try discriminate; contradiction.
  - apply (Hcustom st2 mirror).
    + unfold uniqueIds. simpl.
      repeat (constructor; [simpl; intuition discriminate|]). constructor.
    + simpl. tauto.
    + reflexivity.
    + split; reflexivity.
Defined.

(** C6 as stated fails where two stored sites have one id, which the code
    lets happen: [reorderSites] with an id given twice stores the site
    twice, and [importConfig] stores the array it is given.  After the
    first, [toggleSite] with [false] disables the first copy and the second,
    built in and of that id, stays stored and enabled.  After the second,
    [deleteSite] on the id of a built-in site that follows a custom site of
    the same id returns, and the built-in site is gone. *)
Lemma deleteSite_builtin_counterexample :
  let st := mkStorage JsUndefined false false in
  let github1s order enabled :=
    ServiceSite.mk "github1s" "GitHub1s" "sites.descriptions.github1s" "source"
      "https://github1s.com/{REPO_PATH}" "github" enabled order true
      (Defaults.ctrlShift "1") in
  let twice := snd (ConfigManager.reorderSites ["github1s"; "github1s"] st) in
  let toggled := snd (ConfigManager.toggleSite "github1s" false twice) in
  let shadow :=
    ServiceSite.mk "zread" "Mirror" "" "source" "https://example.com/{REPO_PATH}" "code"
      true 0 false None in
  let zread :=
    ServiceSite.mk "zread" "ZRead" "sites.descriptions.zread" "ai"
      "https://zread.ai/{REPO_PATH}" "external-link" true 4 true (Defaults.ctrlShift "4") in
  let imported :=
    snd (ConfigManager.importConfig
           (Some (JsObject (mkRaw (SitesArray (shadow :: Defaults.DEFAULT_SITES))
                              (SettingsObject Defaults.DEFAULT_SETTINGS)
                              (Some "1.0.0") None))) st) in
  let deleted := snd (ConfigManager.deleteSite "zread" imported) in
  (storageWorks twice /\
   In (github1s 2%Z true) (ExtensionConfig.sites (loaded twice)) /\
   ServiceSite.isBuiltIn (github1s 2%Z true) = true /\
   ConfigManager.toggleSite "github1s" false twice
   = (inr (github1s 1%Z false), toggled) /\
   In (github1s 2%Z true) (ExtensionConfig.sites (loaded toggled)) /\
   ServiceSite.enabled (github1s 2%Z true) = true) /\
  (In zread (ExtensionConfig.sites (loaded imported)) /\
   ServiceSite.isBuiltIn zread = true /\
   ConfigManager.deleteSite (ServiceSite.id zread) imported = (inr tt, deleted) /\
   ConfigManager.deleteSite (ServiceSite.id zread) imported
   <> (inl BuiltInNotDeletable, imported) /\
   ~ In zread (ExtensionConfig.sites (loaded deleted)) /\
   length (ExtensionConfig.sites (loaded deleted)) + 2
   = length (ExtensionConfig.sites (loaded imported))).
Proof.
  intros st github1s twice toggled shadow zread imported deleted.
  split.
  - split; [split; reflexivity|].
    split; [right; left; reflexivity|].
    split; [reflexivity|].
    split; [reflexivity|].
    split; [right; left; reflexivity | reflexivity].
  - split; [right; right; right; right; left; reflexivity|].
    split; [reflexivity|].
    split; [reflexivity|].
    split; [discriminate|].
    split; [|reflexivity].
    intro Hin. vm_compute in Hin.
    decompose [or] Hin; try discriminate; contradiction.
Qed.

End DeleteAndToggleExamples.

(** ** Reordering *)

Section Reorder.

Lemma hasSite_ids (id : string) (sites : list ServiceSite.t) :
  hasSite id sites <-> In id (map ServiceSite.id sites).
Proof.
  unfold hasSite. rewrite in_map_iff. split; intros [s [H1 H2]]; exists s; auto.
Qed.

Lemma siteMapGet_Some (sites : list ServiceSite.t) (id : string) :
  hasSite id sites ->
  exists site, ConfigManager.siteMapGet sites id = Some site /\
               In site sites /\ ServiceSite.id site = id.
Proof.
  intros [s [Hin Hid]]. unfold ConfigManager.siteMapGet.
  destruct (find (ConfigManager.hasId id) (rev sites)) as [x|] eqn:E.
  - apply find_some in E as [Hx Hxid]. exists x. repeat split.
    + now apply in_rev.
    + now apply hasId_true.
  - exfalso. pose proof (find_none _ _ E s) as Hn.
    rewrite <- in_rev in Hn. specialize (Hn Hin).
    assert (ConfigManager.hasId id s = true) as Ht by now apply hasId_true.
    congruence.
Qed.

Lemma reorderListed_spec (sites : list ServiceSite.t) (siteIds : list string) :
  (forall id, In id siteIds -> hasSite id sites) ->
  forall start,
    length (ConfigManager.reorderListed sites siteIds start) = length siteIds /\
    forall k id, nth_error siteIds k = Some id ->
      exists site, In site sites /\ ServiceSite.id site = id /\
                   nth_error (ConfigManager.reorderListed sites siteIds start) k
                   = Some (ConfigManager.withOrder site (Z.of_nat (start + k) + 1)).
Proof.
  induction siteIds as [|id0 rest IH]; intros Hall start.
  - split; [reflexivity|]. intros [|k] id; discriminate.
  - cbn [ConfigManager.reorderListed].
    destruct (siteMapGet_Some sites id0 (Hall id0 (or_introl eq_refl)))
      as [s0 (Hget & Hin0 & Hid0)].
    rewrite Hget.
    destruct (IH (fun id H => Hall id (or_intror H)) (S start)) as [Hlen Hnth].
    split; [simpl; now rewrite Hlen|].
    intros [|k] id; simpl.
    + intros [= <-]. exists s0. rewrite Nat.add_0_r. auto.
    + intro Hk. destruct (Hnth k id Hk) as [s (Hin & Hid & Hs)].
      exists s. replace (start + S k) with (S start + k) by lia. auto.
Qed.

Lemma mapi_spec {A B : Type} (f : A -> nat -> B) (l : list A) :
  forall start,
    length (ConfigManager.mapi f start l) = length l /\
    forall j x, nth_error l j = Some x ->
                nth_error (ConfigManager.mapi f start l) j = Some (f x (start + j)).
Proof.
  induction l as [|a l IH]; intro start.
  - split; [reflexivity|]. intros [|j] x; discriminate.
  - destruct (IH (S start)) as [Hlen Hnth]. split; [simpl; now rewrite Hlen|].
    intros [|j] x; simpl.
    + intros [= <-]. now rewrite Nat.add_0_r.
    + intro Hj. rewrite (Hnth j x Hj). now replace (start + S j) with (S start + j) by lia.
Qed.

(** The ids the check of [reorderSites] reports are the unknown ones. *)
Lemma missingIds_spec (sites : list ServiceSite.t) (siteIds : list string) (id : string) :
  In id (filter (fun i => negb (JsString.arrayIncludes i (map ServiceSite.id sites))) siteIds)
  <-> In id siteIds /\ ~ hasSite id sites.
Proof.
  rewrite filter_In, negb_true_iff, hasSite_ids.
  rewrite <- (arrayIncludes_In id (map ServiceSite.id sites)).
  destruct (JsString.arrayIncludes id (map ServiceSite.id sites)); intuition congruence.
Qed.

End Reorder.

Section ReorderSites.

(** C7. [reorderSites] throws when an id of the list is the id of no site;
    otherwise the result is a site for every listed id, in the given
    sequence with the orders 1 to N, then every site not mentioned, in the
    original relative order with the orders that follow, and that list is
    stored and returned.  Over sites a, b, c the list b, a gives b the
    order 1, a the order 2 and c the order 3. *)
Theorem reorderSites_spec :
  (forall (st : Storage) (siteIds : list string),
     (exists id, In id siteIds /\ ~ hasSite id (ExtensionConfig.sites (loaded st))) ->
     exists missing,
       ConfigManager.reorderSites siteIds st = (inl (SitesDoNotExist missing), st) /\
       forall id, In id missing <->
                  In id siteIds /\ ~ hasSite id (ExtensionConfig.sites (loaded st))) /\
  (forall (st : Storage) (siteIds : list string),
     (forall id, In id siteIds -> hasSite id (ExtensionConfig.sites (loaded st))) ->
     storageWorks st ->
     exists all st',
       ConfigManager.reorderSites siteIds st = (inr all, st') /\
       reordered (ExtensionConfig.sites (loaded st)) siteIds all /\
       loaded st' = ExtensionConfig.mk all (ExtensionConfig.settings (loaded st))
                      (ExtensionConfig.version (loaded st))) /\
  (forall (st : Storage) (a b c : ServiceSite.t),
     ExtensionConfig.sites (loaded st) = [a; b; c] ->
     ServiceSite.id a = "a" -> ServiceSite.id b = "b" -> ServiceSite.id c = "c" ->
     storageWorks st ->
     exists st',
       ConfigManager.reorderSites ["b"; "a"] st
       = (inr [ConfigManager.withOrder b 1; ConfigManager.withOrder a 2;
               ConfigManager.withOrder c 3], st') /\
       ExtensionConfig.sites (loaded st')
       = [ConfigManager.withOrder b 1; ConfigManager.withOrder a 2;
          ConfigManager.withOrder c 3]).
Proof.
  split; [|split].
  - intros st siteIds [id0 [Hin0 Hno0]].
    read_sites ConfigManager.reorderSites.
    set (sites := ExtensionConfig.sites (loaded st)) in *.
    set (missing := filter _ siteIds).
    exists missing. split; [|intro id; apply missingIds_spec].
    assert (In id0 missing) as Hm by (apply missingIds_spec; auto).
    destruct missing as [|m ms]; [destruct Hm | reflexivity].
  - intros st siteIds Hall [Hr Hw].
    read_sites ConfigManager.reorderSites.
    set (sites := ExtensionConfig.sites (loaded st)) in *.
    assert (filter (fun id => negb (JsString.arrayIncludes id (map ServiceSite.id sites)))
                   siteIds = []) as ->.
    { destruct (filter _ siteIds) as [|m ms] eqn:E; [reflexivity|].
      assert (In m (m :: ms)) as Hm by now left.
      rewrite <- E in Hm. apply missingIds_spec in Hm as [Hin Hno].
      exfalso. apply Hno, Hall, Hin. }
    cbn [length Nat.ltb Nat.leb].
    rewrite saveSites_ok by assumption. unfold ret.
    eexists. eexists. split; [reflexivity|]. split.
    + destruct (reorderListed_spec sites siteIds Hall 0) as [Hlen Hnth].
      pose proof (mapi_spec
        (fun site index =>
           ConfigManager.withOrder site
             (Z.of_nat (length (ConfigManager.reorderListed sites siteIds 0))
              + Z.of_nat index + 1))
        (unmentioned siteIds sites) 0) as [Hlen' Hnth'].
      eexists. eexists. split; [reflexivity|].
      split; [exact Hlen|]. split; [exact Hnth|].
      split; [exact Hlen'|].
      intros j site Hj. unfold unmentioned in Hnth'.
      rewrite (Hnth' j site Hj), Hlen. reflexivity.
    + rewrite loaded_savedSites, loaded_version by assumption. reflexivity.
  - intros st [ida na da ca ua ia ea oa ba sa] [idb nb db cb ub ib eb ob bb sb]
           [idc nc dc cc uc ic ec oc bc sc] Hs Ha Hb Hc [Hr Hw].
    simpl in Ha, Hb, Hc. subst ida idb idc.
    read_sites ConfigManager.reorderSites.
    rewrite Hs. cbn.
    rewrite saveSites_ok by assumption. unfold ret.
    eexists. split; [reflexivity|].
    now rewrite loaded_savedSites.
Qed.

Lemma reorderSites_spec_witness :
  let st := mkStorage JsUndefined false false in
  let site id order :=
    ServiceSite.mk id id "" "source" "https://example.com/{REPO_PATH}" "code" true order
      false None in
  let abc :=
    mkStorage (JsObject (StorageManager.toJs
                 (ExtensionConfig.mk [site "a" 1%Z; site "b" 2%Z; site "c" 3%Z]
                    Defaults.DEFAULT_SETTINGS (Some "1.0.0")))) false false in
  (exists missing,
     ConfigManager.reorderSites ["zread"; "nowhere"] st
     = (inl (SitesDoNotExist missing), st) /\
     forall id, In id missing <->
                In id ["zread"; "nowhere"] /\
                ~ hasSite id (ExtensionConfig.sites (loaded st))) /\
  (exists all st',
     ConfigManager.reorderSites ["zread"; "github1s"] st = (inr all, st') /\
     reordered (ExtensionConfig.sites (loaded st)) ["zread"; "github1s"] all /\
     loaded st' = ExtensionConfig.mk all (ExtensionConfig.settings (loaded st))
                    (ExtensionConfig.version (loaded st))) /\
  (exists st',
     ConfigManager.reorderSites ["b"; "a"] abc
     = (inr [site "b" 1%Z; site "a" 2%Z; site "c" 3%Z], st') /\
     ExtensionConfig.sites (loaded st') = [site "b" 1%Z; site "a" 2%Z; site "c" 3%Z]).
Proof.
  intros st site abc.
  destruct reorderSites_spec as (Hunknown & Hknown & Habc).
  split; [|split].
  - apply Hunknown. exists "nowhere". split; [simpl; tauto|].
    intros [s [Hin Hid]]. simpl in Hin.
    decompose [or] Hin; subst; try discriminate; contradiction.
  - apply Hknown; [|split; reflexivity].
    intros id Hin. simpl in Hin. decompose [or] Hin; subst; try contradiction.
    + eexists. split; [right; right; right; left; reflexivity | reflexivity].
    + eexists. split; [left; reflexivity | reflexivity].
  - apply (Habc abc (site "a" 1%Z) (site "b" 2%Z) (site "c" 3%Z));
      try reflexivity. split; reflexivity.
Defined.

End ReorderSites.

(** ** Export and import *)

Section ExportImport.

Lemma spreadSettings_complete (defaults s : ExtensionSettings.t) :
  settingsComplete s -> StorageManager.spreadSettings defaults s = s.
Proof.
  destruct s as [[a|] [b|] [c|] [d|]]; unfold settingsComplete; simpl;
    intros (Ha & Hb & Hc & Hd); try congruence; reflexivity.
Qed.

Lemma spreadSettings_overrides (defaults s : ExtensionSettings.t) :
  overrides defaults s (StorageManager.spreadSettings defaults s).
Proof. repeat split. Qed.

Lemma exportConfig_loaded (exportDate : string) (st : Storage) :
  StorageManager.exportConfig exportDate st
  = (inr (Some (JsObject
            (mkRaw (SitesArray (ExtensionConfig.sites (loaded st)))
                   (SettingsObject (ExtensionConfig.settings (loaded st)))
                   (ExtensionConfig.version (loaded st))
                   (Some exportDate)))), st).
Proof. unfold StorageManager.exportConfig, bind. now rewrite getConfig_loaded. Qed.

(** [importConfig] on a document of the right shape, the write going through. *)
Lemma importConfig_valid (o : RawObject) (l : list ServiceSite.t)
    (s : ExtensionSettings.t) (st : Storage) :
  raw_sites o = SitesArray l ->
  raw_settings o = SettingsObject s ->
  setFails st = false ->
  let merged :=
    ExtensionConfig.mk l
      (StorageManager.spreadSettings Defaults.DEFAULT_SETTINGS s) currentVersion in
  StorageManager.importConfig (Some (JsObject o)) st
  = (inr merged, mkStorage (JsObject (StorageManager.toJs merged)) (getFails st) (setFails st)).
Proof.
  intros Hs Ht Hw merged.
  unfold StorageManager.importConfig, StorageManager.isValidConfig.
  rewrite Hs, Ht. cbn [ExtensionConfig.sites ExtensionConfig.settings].
  unfold bind. rewrite saveConfig_ok by assumption. reflexivity.
Qed.

(** C8. With the four settings in place and writes going through,
    importing what [exportConfig] gives returns the configuration read
    before the export and stores it, without [exportDate]; what is read
    afterwards is that configuration.  In general the imported sites are the
    sites of the result, and the imported settings override the default
    ones key by key. *)
Theorem export_import_roundtrip :
  (forall (st : Storage) (exportDate : string),
     settingsComplete (ExtensionConfig.settings (loaded st)) ->
     setFails st = false ->
     exists text st',
       ConfigManager.exportConfig exportDate st = (inr text, st) /\
       ConfigManager.importConfig text st = (inr (loaded st), st') /\
       item st' = JsObject (StorageManager.toJs (loaded st)) /\
       loaded st' = loaded st) /\
  (forall (st : Storage) (o : RawObject) (l : list ServiceSite.t) (s : ExtensionSettings.t),
     raw_sites o = SitesArray l ->
     raw_settings o = SettingsObject s ->
     setFails st = false ->
     exists merged st',
       ConfigManager.importConfig (Some (JsObject o)) st = (inr merged, st') /\
       ExtensionConfig.sites merged = l /\
       overrides Defaults.DEFAULT_SETTINGS s (ExtensionConfig.settings merged) /\
       ExtensionConfig.version merged = currentVersion /\
       item st' = JsObject (StorageManager.toJs merged)).
Proof.
  split.
  - intros st exportDate Hc Hw.
    unfold ConfigManager.exportConfig, ConfigManager.importConfig.
    rewrite exportConfig_loaded. eexists. eexists. split; [reflexivity|].
    rewrite (importConfig_valid
               (mkRaw (SitesArray (ExtensionConfig.sites (loaded st)))
                      (SettingsObject (ExtensionConfig.settings (loaded st)))
                      (ExtensionConfig.version (loaded st)) (Some exportDate))
               (ExtensionConfig.sites (loaded st))
               (ExtensionConfig.settings (loaded st)) st eq_refl eq_refl Hw).
    rewrite (spreadSettings_complete _ _ Hc), <- (loaded_version st).
    assert (ExtensionConfig.mk (ExtensionConfig.sites (loaded st))
              (ExtensionConfig.settings (loaded st))
              (ExtensionConfig.version (loaded st)) = loaded st) as ->
      by now destruct (loaded st).
    split; [reflexivity|]. split; [reflexivity|].
    rewrite loaded_cases. cbn [getFails item].
    rewrite isValidConfig_toJs.
    destruct (getFails st) eqn:Hr.
    + symmetry. now apply (proj2 getConfig_other_cases).
    + unfold StorageManager.migrateConfig.
      rewrite (proj2 (versionDiffers_false _) (loaded_version st)). reflexivity.
  - intros st o l s Hs Ht Hw.
    unfold ConfigManager.importConfig.
    rewrite (importConfig_valid o l s st Hs Ht Hw).
    eexists. eexists. split; [reflexivity|].
    repeat split.
Qed.

Lemma export_import_roundtrip_witness :
  let custom :=
    ServiceSite.mk "custom-mirror-1" "Mirror" "" "source"
      "https://example.com/{REPO_PATH}" "code" true 6 false
      (Some (ShortcutKey.mk "7" ["shift"; "alt"] None)) in
  let settings := ExtensionSettings.mk (Some "custom-mirror-1") (Some false) (Some false)
                    (Some true) in
  let st := mkStorage (JsObject (StorageManager.toJs
                         (ExtensionConfig.mk [custom] settings (Some "0.9.0"))))
                      false false in
  (exists text st',
     ConfigManager.exportConfig "2024-01-01T00:00:00.000Z" st = (inr text, st) /\
     ConfigManager.importConfig text st = (inr (loaded st), st') /\
     item st' = JsObject (StorageManager.toJs (loaded st)) /\
     loaded st' = loaded st) /\
  (exists merged st',
     ConfigManager.importConfig
       (Some (JsObject (mkRaw (SitesArray [custom])
                          (SettingsObject (ExtensionSettings.mk None (Some false) None None))
                          None (Some "2024-01-01T00:00:00.000Z")))) st
     = (inr merged, st') /\
     ExtensionConfig.sites merged = [custom] /\
     overrides Defaults.DEFAULT_SETTINGS (ExtensionSettings.mk None (Some false) None None)
       (ExtensionConfig.settings merged) /\
     ExtensionConfig.version merged = currentVersion /\
     item st' = JsObject (StorageManager.toJs merged)).
Proof.
  intros custom settings st. split.
  - apply (proj1 export_import_roundtrip st); [|reflexivity].
    repeat split; discriminate.
  - apply (proj2 export_import_roundtrip st); reflexivity.
Defined.

(** C8 as stated fails for a stored document that passes the shape check
    and lacks a key of the settings: [getConfig] returns the settings as
    they are stored, and [importConfig] fills the keys that are missing from
    the defaults, so what the round trip returns and stores is not the
    configuration there was before the export. *)
Lemma export_import_counterexample :
  let partial := ExtensionSettings.mk (Some "zread") (Some false) None None in
  let stored := ExtensionConfig.mk Defaults.DEFAULT_SITES partial (Some "1.0.0") in
  let st := mkStorage (JsObject (StorageManager.toJs stored)) false false in
  let exported :=
    Some (JsObject (mkRaw (SitesArray Defaults.DEFAULT_SITES) (SettingsObject partial)
                      (Some "1.0.0") (Some "2024-01-01T00:00:00.000Z"))) in
  let merged :=
    ExtensionConfig.mk Defaults.DEFAULT_SITES
      (ExtensionSettings.mk (Some "zread") (Some false) (Some false) (Some true))
      (Some "1.0.0") in
  let st' := snd (ConfigManager.importConfig exported st) in
  StorageManager.isValidConfig (item st) = Some stored /\
  ConfigManager.getConfig st = (inr stored, st) /\
  ConfigManager.exportConfig "2024-01-01T00:00:00.000Z" st = (inr exported, st) /\
  ConfigManager.importConfig exported st = (inr merged, st') /\
  merged <> stored /\
  ExtensionSettings.showOnHover (ExtensionConfig.settings stored) = None /\
  ExtensionSettings.showOnHover (ExtensionConfig.settings merged) = Some false /\
  loaded st' = merged /\
  loaded st' <> loaded st.
Proof.
  intros partial stored st exported merged st'.
  split; [reflexivity|]. split; [reflexivity|]. split; [reflexivity|].
  split; [reflexivity|]. split; [discriminate|]. split; [reflexivity|].
  split; [reflexivity|]. split; [reflexivity|].
  intro H. vm_compute in H. discriminate H.
Qed.

End ExportImport.

(** ** Validation of site input *)

Section Validation.

(** What [validateSiteInput] lets through. *)
Lemma validateSiteInput_spec (input : CreateSiteInput.t) :
  ConfigManager.validateSiteInput input = None <->
  JsString.trim (CreateSiteInput.name input) <> EmptyString /\
  Defaults.URL_TEMPLATE_REGEX_test (CreateSiteInput.urlTemplate input) = true /\
  (CreateSiteInput.category input = "source" \/ CreateSiteInput.category input = "ai") /\
  JsString.trim (CreateSiteInput.icon input) <> EmptyString.
Proof.
  assert (forall s, String.eqb s EmptyString || Nat.eqb (String.length (JsString.trim s)) 0
                    = false <-> JsString.trim s <> EmptyString) as Hblank.
  { intro s. rewrite orb_false_iff. split.
    - intros [_ H]. destruct (JsString.trim s); [discriminate | discriminate].
    - intro H. split.
      + destruct s; [now contradiction H | reflexivity].
      + destruct (JsString.trim s); [now contradiction H | reflexivity]. }
  assert (forall s, String.eqb s EmptyString || negb (Defaults.URL_TEMPLATE_REGEX_test s)
                    = false <-> Defaults.URL_TEMPLATE_REGEX_test s = true) as Hurl.
  { intro s. rewrite orb_false_iff, negb_false_iff. split; [tauto|].
    intro H. split; [|assumption]. destruct s; [discriminate H | reflexivity]. }
  unfold ConfigManager.validateSiteInput.
  rewrite <- (Hblank (CreateSiteInput.name input)), <- (Hblank (CreateSiteInput.icon input)),
    <- (Hurl (CreateSiteInput.urlTemplate input)).
  destruct (String.eqb (CreateSiteInput.name input) EmptyString || _);
    [split; [discriminate | intros [H _]; discriminate]|].
  destruct (String.eqb (CreateSiteInput.urlTemplate input) EmptyString || _);
    [split; [discriminate | intros (_ & H & _); discriminate]|].
  unfold JsString.arrayIncludes. cbn [existsb].
  destruct (String.eqb_spec (CreateSiteInput.category input) "source") as [Hc|Hc];
    cbn [orb negb].
  - destruct (String.eqb (CreateSiteInput.icon input) EmptyString || _);
      [split; [discriminate | intros (_ & _ & _ & H); discriminate] | tauto].
  - destruct (String.eqb_spec (CreateSiteInput.category input) "ai") as [Hc'|Hc'];
      cbn [orb negb].
    + destruct (String.eqb (CreateSiteInput.icon input) EmptyString || _);
        [split; [discriminate | intros (_ & _ & _ & H); discriminate] | tauto].
    + split; [discriminate | intros (_ & _ & [H|H] & _); contradiction].
Qed.

(** What [URL_TEMPLATE_REGEX] matches: [http://] or [https://], one code
    unit at least, none of them a line terminator, then [{repoPath}]. *)
Lemma dotsThen_spec (pat s : string) :
  Defaults.dotsThen pat s = true <->
  exists mid rest, s = mid +s+ pat +s+ rest /\ dotsOnly mid = true.
Proof.
  split.
  - induction s as [|c s IH]; simpl.
    + destruct (JsString.stripPrefix pat EmptyString) as [rest|] eqn:E; [|discriminate].
      intros _. exists EmptyString, rest.
        split; [exact (proj1 (stripPrefix_Some _ _ _) E) | reflexivity].
    + destruct (JsString.stripPrefix pat (String c s)) as [rest|] eqn:E.
      * intros _. exists EmptyString, rest.
        split; [exact (proj1 (stripPrefix_Some _ _ _) E) | reflexivity].
      * intros [Hc Hs]%andb_prop. destruct (IH Hs) as [mid [rest [-> Hmid]]].
        exists (String c mid), rest. split; [reflexivity|]. simpl. now rewrite Hc, Hmid.
  - intros [mid [rest [-> Hmid]]]. induction mid as [|c mid IH].
    + simpl. destruct (pat +s+ rest) eqn:E; simpl;
        rewrite <- E, (proj2 (stripPrefix_Some pat (pat +s+ rest) rest) eq_refl);
        reflexivity.
    + simpl in Hmid. apply andb_prop in Hmid as [Hc Hmid].
      cbn [String.append Defaults.dotsThen].
      destruct (JsString.stripPrefix pat _); [reflexivity|].
      now rewrite Hc, (IH Hmid).
Qed.

Lemma URL_TEMPLATE_REGEX_spec (s : string) :
  Defaults.URL_TEMPLATE_REGEX_test s = true <->
  exists scheme c mid rest,
    (scheme = "http://" \/ scheme = "https://") /\
    s = scheme +s+ String c mid +s+ "{repoPath}" +s+ rest /\
    dotsOnly (String c mid) = true.
Proof.
  assert (forall r, Defaults.dotPlusThen "{repoPath}" r = true <->
                    exists c mid rest, r = String c mid +s+ "{repoPath}" +s+ rest /\
                                       dotsOnly (String c mid) = true) as Hplus.
  { intro r. unfold Defaults.dotPlusThen. destruct r as [|c r].
    - split; [discriminate | intros [c [mid [rest [H _]]]]; discriminate].
    - rewrite andb_true_iff, dotsThen_spec. split.
      + intros [Hc [mid [rest [-> Hmid]]]]. exists c, mid, rest.
        split; [reflexivity|]. simpl. now rewrite Hc, Hmid.
      + intros [c' [mid [rest [E Hd]]]]. simpl in E. injection E as <- ->.
        simpl in Hd. apply andb_prop in Hd as [Hc Hmid].
        split; [assumption|]. now exists mid, rest. }
  unfold Defaults.URL_TEMPLATE_REGEX_test.
  destruct (JsString.stripPrefix "https://" s) as [r|] eqn:Es.
  - apply stripPrefix_Some in Es. subst s. rewrite Hplus. split.
    + intros [c [mid [rest [-> Hd]]]]. exists "https://", c, mid, rest. auto.
    + intros [scheme [c [mid [rest [[->| ->] [E Hd]]]]]].
      * simpl in E. discriminate E.
      * simpl in E. injection E as ->. now exists c, mid, rest.
  - destruct (JsString.stripPrefix "http://" s) as [r|] eqn:Ep.
    + apply stripPrefix_Some in Ep. subst s. rewrite Hplus. split.
      * intros [c [mid [rest [-> Hd]]]]. exists "http://", c, mid, rest. auto.
      * intros [scheme [c [mid [rest [[->| ->] [E Hd]]]]]].
        -- simpl in E. injection E as ->. now exists c, mid, rest.
        -- simpl in E. discriminate E.
    + split; [discriminate|].
      intros [scheme [c [mid [rest [[->| ->] [E _]]]]]].
      * rewrite (proj2 (stripPrefix_Some "http://" s _) E) in Ep. discriminate.
      * rewrite (proj2 (stripPrefix_Some "https://" s _) E) in Es. discriminate.
Qed.

(** The templates of the five default sites do not pass the test. *)
Lemma default_templates_fail_regex :
  forallb (fun site => negb (Defaults.URL_TEMPLATE_REGEX_test (ServiceSite.urlTemplate site)))
          Defaults.DEFAULT_SITES = true.
Proof. reflexivity. Qed.

(** C1 fails on the code both ways.  [URL_TEMPLATE_REGEX] asks for the text
    [{repoPath}]: an input that is valid in every field, its template with
    [http(s)://] and [{REPO_PATH}], is refused with the error whose text
    asks for [{REPO_PATH}], and a template without [{REPO_PATH}] is let in. *)
Theorem addSite_url_template_check :
  let st := mkStorage JsUndefined false false in
  let good := CreateSiteInput.mk "Mirror" "" "source" "https://example.com/{REPO_PATH}"
                "code" true None in
  let bad := CreateSiteInput.mk "Mirror" "" "source" "https://example.com/{repoPath}"
               "code" true None in
  (forall now : Z, ConfigManager.addSite now good st = (inl InvalidUrlTemplate, st)) /\
  message InvalidUrlTemplate
  = "Invalid URL template format, must contain {REPO_PATH} placeholder" /\
  JsString.includes "{REPO_PATH}" (CreateSiteInput.urlTemplate bad) = false /\
  (exists site st',
     ConfigManager.addSite 1700000000000 bad st = (inr site, st') /\
     ServiceSite.id site = "custom-mirror-1700000000000" /\
     ServiceSite.urlTemplate site = "https://example.com/{repoPath}" /\
     ExtensionConfig.sites (loaded st') = Defaults.DEFAULT_SITES ++ [site]).
Proof.
  intros st good bad. split; [|split; [|split]].
  - intro now. reflexivity.
  - reflexivity.
  - reflexivity.
  - set (site := ServiceSite.mk "custom-mirror-1700000000000" "Mirror" "" "source"
                   "https://example.com/{repoPath}" "code" true 6 false None).
    exists site, (savedSites (Defaults.DEFAULT_SITES ++ [site]) st).
    repeat split; vm_compute; reflexivity.
Qed.

End Validation.

(** ** What a mutation of one site leaves alone *)

Section Frame.

Lemma saveSites_fails (sites : list ServiceSite.t) (st : Storage) :
  setFails st = true ->
  StorageManager.saveSites sites st = (inl StorageFailure, st).
Proof.
  intro Hw. unfold StorageManager.saveSites, bind. rewrite getConfig_loaded.
  now rewrite saveConfig_fails.
Qed.

Lemma findIndex_split {A : Type} (f : A -> bool) (l : list A) (i : nat) (x : A) :
  ConfigManager.findIndex f l = Some (i, x) ->
  exists l1 l2, l = l1 ++ x :: l2 /\ length l1 = i /\ f x = true /\
                forall y, In y l1 -> f y = false.
Proof.
  revert i. induction l as [|a l IH]; intro i; simpl; [discriminate|].
  destruct (f a) eqn:E.
  - intros [= <- <-]. exists [], l. repeat split; [assumption | intros y []].
  - destruct (ConfigManager.findIndex f l) as [[j y]|]; [|discriminate].
    intros [= <- <-]. destruct (IH j eq_refl) as [l1 [l2 (-> & <- & Hx & H1)]].
    exists (a :: l1), l2. repeat split; [assumption|].
    intros z [<-|Hz]; auto.
Qed.

(** [updateSite], and so [toggleSite], writes back the list with the one
    site replaced, inside the configuration as it was read. *)
Lemma updateSite_frame (st st' : Storage) (id : string) (updates : UpdateSiteInput.t)
    (site' : ServiceSite.t) :
  ConfigManager.updateSite id updates st = (inr site', st') ->
  getFails st = false ->
  exists l1 site l2,
    ExtensionConfig.sites (loaded st) = l1 ++ site :: l2 /\
    ServiceSite.id site = id /\
    ExtensionConfig.sites (loaded st') = l1 ++ site' :: l2 /\
    ServiceSite.id site' = ServiceSite.id site /\
    ServiceSite.isBuiltIn site' = ServiceSite.isBuiltIn site /\
    ExtensionConfig.settings (loaded st') = ExtensionConfig.settings (loaded st) /\
    ExtensionConfig.version (loaded st') = ExtensionConfig.version (loaded st).
Proof.
  intros Hrun Hr. revert Hrun.
  read_sites ConfigManager.updateSite.
  destruct (ConfigManager.findIndex _ _) as [[i site]|] eqn:Ef; [|discriminate].
  destruct (findIndex_split _ _ _ _ Ef) as [l1 [l2 (Hs & Hi & Hid & _)]].
  match goal with |- context [match ?v with Some e => throw e | None => _ end] =>
    destruct v; [discriminate|] end.
  destruct (setFails st) eqn:Hw.
  - rewrite saveSites_fails by assumption. discriminate.
  - rewrite saveSites_ok by assumption. unfold ret. intros [= <- <-].
    exists l1, site, l2. rewrite Hs, <- Hi, setAt_at, loaded_savedSites by assumption.
    rewrite loaded_version. apply hasId_true in Hid. repeat split; assumption.
Qed.

Lemma normalizeOther_unfold (siteId : string) (s : ServiceSite.t) :
  normalizeOther siteId s =
  match ServiceSite.shortcuts s with
  | Some sc =>
      if negb (ConfigManager.hasId siteId s) && ConfigManager.shortcutEnabled s
      then ConfigManager.withShortcuts s (Some (sortedChord sc))
      else s
  | None => s
  end.
Proof.
  unfold normalizeOther, ConfigManager.shortcutEnabled.
  destruct (ServiceSite.shortcuts s); [reflexivity|].
  now rewrite andb_false_r.
Qed.

Lemma scanConflicts_sites (str siteId : string) (sites : list ServiceSite.t) :
  snd (ConfigManager.scanConflicts str siteId sites) = map (normalizeOther siteId) sites.
Proof.
  induction sites as [|s l IH]; [reflexivity|].
  cbn [ConfigManager.scanConflicts map].
  destruct (ConfigManager.scanConflicts str siteId l) as [conflicts rest'].
  cbn [snd] in IH. subst rest'.
  rewrite (normalizeOther_unfold siteId s).
  destruct (ServiceSite.shortcuts s) as [sc|]; [|reflexivity].
  destruct (negb (ConfigManager.hasId siteId s) && ConfigManager.shortcutEnabled s);
    [|reflexivity].
  unfold sortedChord.
  destruct (ConfigManager.formatShortcutString sc) as [existing sc'].
  cbn [snd]. destruct (String.eqb existing str); reflexivity.
Qed.

End Frame.

Section ShortcutFrame.

Lemma checkShortcutConflicts_sites (sites : list ServiceSite.t) (siteId : string)
    (chord : ShortcutKey.t) :
  snd (ConfigManager.checkShortcutConflicts sites siteId chord)
  = (map (normalizeOther siteId) sites, sortedChord chord).
Proof.
  unfold ConfigManager.checkShortcutConflicts, sortedChord.
  destruct (ConfigManager.formatShortcutString chord) as [str chord'].
  pose proof (scanConflicts_sites str siteId sites) as H.
  destruct (ConfigManager.scanConflicts str siteId sites) as [conflicts sites'].
  cbn [snd] in *. now subst.
Qed.

Lemma normalizeOther_self (siteId : string) (site : ServiceSite.t) :
  ConfigManager.hasId siteId site = true -> normalizeOther siteId site = site.
Proof. intro H. unfold normalizeOther. now rewrite H. Qed.

(** Without a chord, or with a chord that is not enabled, [updateSiteShortcut]
    replaces the one site and nothing else. *)
Lemma updateSiteShortcut_frame (st st' : Storage) (siteId : string)
    (shortcut : option ShortcutKey.t) (site' : ServiceSite.t) :
  ConfigManager.updateSiteShortcut siteId shortcut st = (inr site', st') ->
  getFails st = false ->
  match shortcut with
  | Some sc => ShortcutKey.enabled sc <> Some true
  | None => True
  end ->
  exists l1 site l2,
    ExtensionConfig.sites (loaded st) = l1 ++ site :: l2 /\
    ServiceSite.id site = siteId /\
    site' = ConfigManager.withShortcuts site shortcut /\
    ExtensionConfig.sites (loaded st') = l1 ++ site' :: l2 /\
    ExtensionConfig.settings (loaded st') = ExtensionConfig.settings (loaded st) /\
    ExtensionConfig.version (loaded st') = ExtensionConfig.version (loaded st).
Proof.
  intros Hrun Hr Hoff. revert Hrun.
  read_sites ConfigManager.updateSiteShortcut.
  destruct (ConfigManager.findIndex _ _) as [[i site]|] eqn:Ef; [|discriminate].
  destruct (findIndex_split _ _ _ _ Ef) as [l1 [l2 (Hs & Hi & Hid & _)]].
  assert (match shortcut with
          | Some sc =>
              if ConfigManager.orElse (ShortcutKey.enabled sc) false
              then
                let '(conflicts, (sites', sc')) :=
                  ConfigManager.checkShortcutConflicts
                    (ExtensionConfig.sites (loaded st)) siteId sc in
                (conflicts, (sites', Some sc'))
              else ([], (ExtensionConfig.sites (loaded st), shortcut))
          | None => ([], (ExtensionConfig.sites (loaded st), shortcut))
          end = ([], (ExtensionConfig.sites (loaded st), shortcut))) as ->.
  { destruct shortcut as [sc|]; [|reflexivity].
    destruct (ShortcutKey.enabled sc) as [[]|]; [congruence | reflexivity | reflexivity]. }
  cbn [length Nat.ltb Nat.leb].
  destruct (setFails st) eqn:Hw.
  - rewrite saveSites_fails by assumption. discriminate.
  - rewrite saveSites_ok by assumption. unfold ret.
    rewrite Hs, <- Hi, nth_at, setAt_at. intros [= <- <-].
    exists l1, site, l2. rewrite loaded_savedSites, loaded_version by assumption.
    apply hasId_true in Hid. repeat split; assumption.
Qed.

(** With an enabled chord that goes through, the site gets the chord with
    its modifiers sorted, and every other site with an enabled shortcut is
    stored with its modifiers sorted too. *)
Lemma updateSiteShortcut_effect (st st' : Storage) (siteId : string)
    (chord : ShortcutKey.t) (site' : ServiceSite.t) :
  ConfigManager.updateSiteShortcut siteId (Some chord) st = (inr site', st') ->
  getFails st = false ->
  ShortcutKey.enabled chord = Some true ->
  exists l1 site l2,
    ExtensionConfig.sites (loaded st) = l1 ++ site :: l2 /\
    ServiceSite.id site = siteId /\
    site' = ConfigManager.withShortcuts site (Some (sortedChord chord)) /\
    ExtensionConfig.sites (loaded st')
    = map (normalizeOther siteId) l1 ++ site' :: map (normalizeOther siteId) l2 /\
    ExtensionConfig.settings (loaded st') = ExtensionConfig.settings (loaded st) /\
    ExtensionConfig.version (loaded st') = ExtensionConfig.version (loaded st).
Proof.
  intros Hrun Hr Hon. revert Hrun.
  read_sites ConfigManager.updateSiteShortcut.
  destruct (ConfigManager.findIndex _ _) as [[i site]|] eqn:Ef; [|discriminate].
  destruct (findIndex_split _ _ _ _ Ef) as [l1 [l2 (Hs & Hi & Hid & _)]].
  rewrite Hon. cbn [ConfigManager.orElse].
  pose proof (checkShortcutConflicts_sites (ExtensionConfig.sites (loaded st)) siteId chord)
    as Hc.
  destruct (ConfigManager.checkShortcutConflicts _ siteId chord)
    as [conflicts [sites' chord']].
  cbn [snd] in Hc. injection Hc as -> ->.
  destruct conflicts as [|c cs]; [|discriminate].
  cbn [length Nat.ltb Nat.leb].
  destruct (setFails st) eqn:Hw.
  - rewrite saveSites_fails by assumption. discriminate.
  - rewrite saveSites_ok by assumption. unfold ret.
    rewrite Hs, map_app. cbn [map].
    rewrite (normalizeOther_self siteId site Hid).
    replace i with (length (map (normalizeOther siteId) l1))
      by (now rewrite length_map).
    rewrite nth_at, setAt_at. intros [= <- <-].
    exists l1, site, l2. rewrite loaded_savedSites, loaded_version by assumption.
    apply hasId_true in Hid. repeat split; assumption.
Qed.

(** C10 fails on the code for [updateSiteShortcut]: the chord of another
    site, stored with the modifiers shift, alt, is written back with the
    modifiers alt, shift when [github_dev] gets an enabled chord.  The
    stored list is one that [importConfig] accepts. *)
Theorem updateSiteShortcut_rewrites_other_site :
  let github_dev :=
    ServiceSite.mk "github_dev" "GitHub.dev" "sites.descriptions.github_dev" "source"
      "https://github.dev/{REPO_PATH}/" "github" true 2 true None in
  let mirror modifiers :=
    ServiceSite.mk "custom-mirror-1" "Mirror" "" "source" "https://example.com/{REPO_PATH}"
      "code" true 6 false (Some (ShortcutKey.mk "7" modifiers (Some true))) in
  let document :=
    JsObject (StorageManager.toJs
                (ExtensionConfig.mk [github_dev; mirror ["shift"; "alt"]]
                   Defaults.DEFAULT_SETTINGS (Some "1.0.0"))) in
  let st := mkStorage document false false in
  let chord := ShortcutKey.mk "9" ["ctrl"; "shift"] (Some true) in
  snd (ConfigManager.importConfig (Some document) (mkStorage JsUndefined false false)) = st /\
  ExtensionConfig.sites (loaded st) = [github_dev; mirror ["shift"; "alt"]] /\
  exists st',
    ConfigManager.updateSiteShortcut "github_dev" (Some chord) st
    = (inr (ConfigManager.withShortcuts github_dev (Some chord)), st') /\
    ExtensionConfig.sites (loaded st')
    = [ConfigManager.withShortcuts github_dev (Some chord); mirror ["alt"; "shift"]] /\
    mirror ["alt"; "shift"] <> mirror ["shift"; "alt"].
Proof.
  intros github_dev mirror document st chord.
  split; [reflexivity|]. split; [reflexivity|].
  exists (savedSites [ConfigManager.withShortcuts github_dev (Some chord);
                      mirror ["alt"; "shift"]] st).
  split; [vm_compute; reflexivity|]. split; [reflexivity | discriminate].
Qed.

End ShortcutFrame.

(** * Further properties of the code *)

(** ** Parsing a shortcut string *)

Section ParseShortcut.

Lemma join_split (sep : ascii) (s : string) :
  JsString.join (String sep EmptyString) (JsString.split sep s) = s.
Proof.
  unfold JsString.join. induction s as [|c s IH]; [reflexivity|].
  cbn [JsString.split]. destruct (Ascii.eqb_spec c sep) as [->|Hne].
  - pose proof (split_nonempty sep s) as Hn.
    destruct (JsString.split sep s) as [|h t]; [congruence|].
    change (String.concat (String sep EmptyString) (EmptyString :: h :: t))
      with (String sep (String.concat (String sep EmptyString) (h :: t))).
    now rewrite IH.
  - pose proof (split_nonempty sep s) as Hn.
    destruct (JsString.split sep s) as [|h t]; [congruence|].
    destruct t as [|h' t].
    + simpl in *. now rewrite IH.
    + change (String.concat (String sep EmptyString) (String c h :: h' :: t))
        with (String c (String.concat (String sep EmptyString) (h :: h' :: t))).
      now rewrite IH.
Qed.

Lemma split_parts_lack (sep : ascii) (s : string) :
  Forall (fun p => lacks sep p = true) (JsString.split sep s).
Proof.
  induction s as [|c s IH]; [repeat constructor|].
  cbn [JsString.split]. destruct (Ascii.eqb c sep) eqn:E.
  - constructor; [reflexivity | exact IH].
  - destruct (JsString.split sep s) as [|h t]; [repeat constructor; simpl; now rewrite E|].
    inversion IH as [|? ? Hh Ht]; subst. constructor; [|assumption].
    simpl. now rewrite E, Hh.
Qed.

Lemma split_single (sep : ascii) (s : string) :
  length (JsString.split sep s) < 2 <-> lacks sep s = true.
Proof.
  split.
  - intro H. pose proof (join_split sep s) as Hj. pose proof (split_parts_lack sep s) as Hl.
    pose proof (split_nonempty sep s) as Hn.
    destruct (JsString.split sep s) as [|h [|h' t]]; simpl in H; try lia.
    + congruence.
    + unfold JsString.join in Hj. simpl in Hj. subst h. now inversion Hl.
  - intro H. rewrite (split_lacks _ _ H). simpl. lia.
Qed.

(** [parseShortcutString] gives nothing exactly for a text without [+];
    otherwise the key is what follows the last [+], the modifiers are the
    parts before it, and joining them by [+] gives the text back. *)
Theorem parseShortcutString_spec :
  forall str : string,
    (ConfigManager.parseShortcutString str = None <-> lacks "+" str = true) /\
    (forall p, ConfigManager.parseShortcutString str = Some p ->
       JsString.join "+" (ShortcutKey.modifiers p ++ [ShortcutKey.key p]) = str /\
       ShortcutKey.modifiers p <> [] /\
       lacks "+" (ShortcutKey.key p) = true /\
       Forall (fun m => lacks "+" m = true) (ShortcutKey.modifiers p) /\
       ShortcutKey.enabled p = Some true).
Proof.
  intro str. unfold ConfigManager.parseShortcutString.
  pose proof (split_single "+" str) as Hsingle.
  pose proof (join_split "+" str) as Hjoin.
  pose proof (split_parts_lack "+" str) as Hlack.
  pose proof (split_nonempty "+" str) as Hne.
  destruct (Nat.ltb_spec (length (JsString.split "+" str)) 2) as [Hlt|Hge].
  - split; [split; [intros _; now apply Hsingle | reflexivity] | discriminate].
  - split.
    + split; [discriminate|]. intro H. apply Hsingle in H. lia.
    + intros p [= <-]. cbn [ShortcutKey.modifiers ShortcutKey.key ShortcutKey.enabled].
      rewrite <- (app_removelast_last EmptyString Hne).
      rewrite (app_removelast_last EmptyString Hne) in Hlack.
      apply Forall_app in Hlack as [Hmods Hkey].
      repeat split; try assumption.
      * intro E. apply (f_equal (@length string)) in E.
        pose proof (app_removelast_last EmptyString Hne) as Hsplit.
        apply (f_equal (@length string)) in Hsplit.
        rewrite length_app in Hsplit. simpl in *. lia.
      * now inversion Hkey.
Qed.

Lemma parseShortcutString_spec_witness :
  exists p,
    ConfigManager.parseShortcutString "shift+ctrl+F5" = Some p /\
    JsString.join "+" (ShortcutKey.modifiers p ++ [ShortcutKey.key p]) = "shift+ctrl+F5" /\
    ShortcutKey.modifiers p = ["shift"; "ctrl"] /\ ShortcutKey.key p = "F5".
Proof.
  exists (ShortcutKey.mk "F5" ["shift"; "ctrl"] (Some true)).
  split; [reflexivity|].
  destruct (proj2 (parseShortcutString_spec "shift+ctrl+F5")
              (ShortcutKey.mk "F5" ["shift"; "ctrl"] (Some true)) eq_refl) as [H _].
  split; [exact H | split; reflexivity].
Defined.

End ParseShortcut.

(** ** The enabled sites, in order *)

Section EnabledSites.

Lemma insertByOrder_perm (x : ServiceSite.t) (l : list ServiceSite.t) :
  Permutation (ConfigManager.insertByOrder x l) (x :: l).
Proof.
  induction l as [|y t IH]; simpl; [apply Permutation_refl|].
  destruct (Z.leb _ _); [apply Permutation_refl|].
  eapply perm_trans; [apply perm_skip, IH | apply perm_swap].
Qed.

Lemma sortByOrder_perm (l : list ServiceSite.t) :
  Permutation (ConfigManager.sortByOrder l) l.
Proof.
  induction l as [|x t IH]; simpl; [constructor|].
  eapply perm_trans; [apply insertByOrder_perm | now apply perm_skip].
Qed.

Lemma insertByOrder_sorted (x : ServiceSite.t) (l : list ServiceSite.t) :
  Sorted orderLe l -> Sorted orderLe (ConfigManager.insertByOrder x l).
Proof.
  induction 1 as [|y t Hs IH Hhd]; simpl; [repeat constructor|].
  destruct (Z.leb_spec (ServiceSite.order x) (ServiceSite.order y)) as [Hle|Hgt].
  - constructor; [now constructor | now constructor].
  - constructor; [assumption|].
    destruct t as [|z t]; simpl.
    + constructor. unfold orderLe. lia.
    + destruct (Z.leb _ _); constructor; [unfold orderLe; lia | now inversion Hhd].
Qed.

Lemma sortByOrder_sorted (l : list ServiceSite.t) :
  StronglySorted orderLe (ConfigManager.sortByOrder l).
Proof.
  apply Sorted_StronglySorted; [intros a b c; unfold orderLe; lia|].
  induction l as [|x t IH]; simpl; [constructor | now apply insertByOrder_sorted].
Qed.

(** The sort is stable: the sites of one order keep their sequence. *)
Lemma insertByOrder_stable (o : Z) (x : ServiceSite.t) (l : list ServiceSite.t) :
  withOrderOf o (ConfigManager.insertByOrder x l) = withOrderOf o (x :: l).
Proof.
  unfold withOrderOf. induction l as [|y t IH]; [reflexivity|].
  cbn [ConfigManager.insertByOrder].
  destruct (Z.leb_spec (ServiceSite.order x) (ServiceSite.order y)) as [Hle|Hgt];
    [reflexivity|].
  cbn [filter] in *. rewrite IH.
  destruct (Z.eqb_spec (ServiceSite.order y) o) as [Hy|Hy];
    destruct (Z.eqb_spec (ServiceSite.order x) o) as [Hx|Hx]; try reflexivity.
  lia.
Qed.

Lemma sortByOrder_stable (o : Z) (l : list ServiceSite.t) :
  withOrderOf o (ConfigManager.sortByOrder l) = withOrderOf o l.
Proof.
  induction l as [|x t IH]; [reflexivity|].
  cbn [ConfigManager.sortByOrder]. rewrite insertByOrder_stable.
  unfold withOrderOf in *. cbn [filter]. now rewrite IH.
Qed.

Lemma getEnabledSites_run (st : Storage) :
  ConfigManager.getEnabledSites st
  = (inr (ConfigManager.sortByOrder
            (filter ServiceSite.enabled (ExtensionConfig.sites (loaded st)))), st).
Proof. read_sites ConfigManager.getEnabledSites. reflexivity. Qed.

(** [getEnabledSites] returns the sites whose [enabled] is true, each as
    often as it is stored, in ascending [order], sites of one order in the
    stored sequence; it writes nothing. *)
Theorem getEnabledSites_spec :
  forall st : Storage,
    exists l,
      ConfigManager.getEnabledSites st = (inr l, st) /\
      Permutation l (filter ServiceSite.enabled (ExtensionConfig.sites (loaded st))) /\
      (forall site, In site l <->
                    In site (ExtensionConfig.sites (loaded st)) /\
                    ServiceSite.enabled site = true) /\
      StronglySorted orderLe l /\
      (forall o, withOrderOf o l
                 = withOrderOf o (filter ServiceSite.enabled
                                    (ExtensionConfig.sites (loaded st)))).
Proof.
  intro st. eexists. split; [apply getEnabledSites_run|].
  split; [apply sortByOrder_perm|]. split; [|split].
  - intro site. rewrite <- filter_In. split; apply Permutation_in;
      [apply sortByOrder_perm | apply Permutation_sym, sortByOrder_perm].
  - apply sortByOrder_sorted.
  - intro o. apply sortByOrder_stable.
Qed.

Lemma StronglySorted_filter {A : Type} (R : A -> A -> Prop) (f : A -> bool) (l : list A) :
  StronglySorted R l -> StronglySorted R (filter f l).
Proof.
  induction 1 as [|x t Hs IH Hall]; simpl; [constructor|].
  destruct (f x); [|assumption]. constructor; [assumption|].
  apply Forall_forall. intros y Hy. apply filter_In in Hy as [Hy _].
  rewrite Forall_forall in Hall. now apply Hall.
Qed.

Lemma buckets_length (l : list ServiceSite.t) :
  length (filter (fun site => String.eqb (ServiceSite.category site) "source") l)
  + length (filter (fun site => String.eqb (ServiceSite.category site) "ai") l)
  <= length l.
Proof.
  induction l as [|x t IH]; simpl; [lia|].
  destruct (String.eqb_spec (ServiceSite.category x) "source") as [E|E].
  - rewrite E. simpl. lia.
  - destruct (String.eqb (ServiceSite.category x) "ai"); simpl; lia.
Qed.

Lemma getSitesByCategory_run (st : Storage) :
  ConfigManager.getSitesByCategory st
  = (inr (ConfigManager.mkByCategory
            (filter (fun site => String.eqb (ServiceSite.category site) "source")
               (ConfigManager.sortByOrder
                  (filter ServiceSite.enabled (ExtensionConfig.sites (loaded st)))))
            (filter (fun site => String.eqb (ServiceSite.category site) "ai")
               (ConfigManager.sortByOrder
                  (filter ServiceSite.enabled (ExtensionConfig.sites (loaded st)))))),
     st).
Proof.
  unfold ConfigManager.getSitesByCategory, bind. now rewrite getEnabledSites_run.
Qed.

(** [getSitesByCategory] puts into [source] the enabled sites of category
    source and into [ai] those of category ai, each bucket in ascending
    [order]; a site of any other category is in neither, and no site is in
    both. *)
Theorem getSitesByCategory_spec :
  forall st : Storage,
    exists r,
      ConfigManager.getSitesByCategory st = (inr r, st) /\
      (forall site, In site (ConfigManager.source r) <->
                    In site (ExtensionConfig.sites (loaded st)) /\
                    ServiceSite.enabled site = true /\
                    ServiceSite.category site = "source") /\
      (forall site, In site (ConfigManager.ai r) <->
                    In site (ExtensionConfig.sites (loaded st)) /\
                    ServiceSite.enabled site = true /\
                    ServiceSite.category site = "ai") /\
      StronglySorted orderLe (ConfigManager.source r) /\
      StronglySorted orderLe (ConfigManager.ai r) /\
      length (ConfigManager.source r) + length (ConfigManager.ai r)
      <= length (filter ServiceSite.enabled (ExtensionConfig.sites (loaded st))).
Proof.
  intro st. eexists. split; [apply getSitesByCategory_run|].
  cbn [ConfigManager.source ConfigManager.ai].
  set (enabled := ConfigManager.sortByOrder _).
  assert (forall site, In site enabled <->
                       In site (ExtensionConfig.sites (loaded st)) /\
                       ServiceSite.enabled site = true) as Hin.
  { intro site. rewrite <- filter_In. split; apply Permutation_in;
      [apply sortByOrder_perm | apply Permutation_sym, sortByOrder_perm]. }
  split; [|split; [|split; [|split]]].
  - intro site. rewrite filter_In, Hin, String.eqb_eq. tauto.
  - intro site. rewrite filter_In, Hin, String.eqb_eq. tauto.
  - apply StronglySorted_filter, sortByOrder_sorted.
  - apply StronglySorted_filter, sortByOrder_sorted.
  - rewrite <- (Permutation_length (sortByOrder_perm
                  (filter ServiceSite.enabled (ExtensionConfig.sites (loaded st))))).
    apply buckets_length.
Qed.

End EnabledSites.

(** ** A call that throws has written nothing *)

Section FailsClean.

Lemma failsClean_ret {A : Type} (a : A) : failsClean (ret a).
Proof. intro st. exact I. Qed.

Lemma failsClean_throw {A : Type} (e : Error) : failsClean (@throw A e).
Proof. intro st. reflexivity. Qed.

Lemma failsClean_saveConfig (config : ExtensionConfig.t) :
  failsClean (StorageManager.saveConfig config).
Proof.
  intro st. destruct (setFails st) eqn:Hw.
  - now rewrite saveConfig_fails.
  - now rewrite saveConfig_ok.
Qed.

Lemma failsClean_saveSites (sites : list ServiceSite.t) :
  failsClean (StorageManager.saveSites sites).
Proof.
  intro st. destruct (setFails st) eqn:Hw.
  - now rewrite saveSites_fails.
  - now rewrite saveSites_ok.
Qed.

(** A write followed by a [return] throws only when the write does. *)
Lemma failsClean_then {A : Type} (m : M unit) (a : A) :
  failsClean m -> failsClean (m ;;; ret a).
Proof.
  intros Hm st. unfold bind. specialize (Hm st).
  destruct (m st) as [[e|[]] st']; [exact Hm | exact I].
Qed.

(** Reading the sites first changes nothing. *)
Lemma failsClean_after_getSites {A : Type} (k : list ServiceSite.t -> M A) :
  (forall sites, failsClean (k sites)) ->
  failsClean (sites <- ConfigManager.getSites ;; k sites).
Proof.
  intros Hk st. unfold bind, ConfigManager.getSites. rewrite getSites_loaded.
  apply Hk.
Qed.

Lemma failsClean_saveSettings (settings : ExtensionSettings.t) :
  failsClean (StorageManager.saveSettings settings).
Proof.
  intro st. unfold StorageManager.saveSettings, bind. rewrite getConfig_loaded.
  apply failsClean_saveConfig.
Qed.

Lemma failsClean_addSite (now : Z) (input : CreateSiteInput.t) :
  failsClean (ConfigManager.addSite now input).
Proof.
  apply failsClean_after_getSites. intro sites. cbv beta zeta.
  destruct (Nat.leb _ _); [apply failsClean_throw|].
  destruct (ConfigManager.validateSiteInput input); [apply failsClean_throw|].
  destruct (existsb _ sites); [apply failsClean_throw|].
  apply failsClean_then, failsClean_saveSites.
Qed.

Lemma failsClean_updateSite (id : string) (updates : UpdateSiteInput.t) :
  failsClean (ConfigManager.updateSite id updates).
Proof.
  apply failsClean_after_getSites. intro sites. cbv beta zeta.
  destruct (ConfigManager.findIndex _ sites) as [[i site]|]; [|apply failsClean_throw].
  cbv zeta.
  match goal with |- failsClean (match ?v with Some e => throw e | None => _ end) =>
    destruct v; [apply failsClean_throw|] end.
  apply failsClean_then, failsClean_saveSites.
Qed.

Lemma failsClean_deleteSite (id : string) : failsClean (ConfigManager.deleteSite id).
Proof.
  apply failsClean_after_getSites. intro sites. cbv beta zeta.
  destruct (find _ sites) as [site|]; [|apply failsClean_throw].
  destruct (ServiceSite.isBuiltIn site); [apply failsClean_throw|].
  apply failsClean_saveSites.
Qed.

Lemma failsClean_reorderSites (siteIds : list string) :
  failsClean (ConfigManager.reorderSites siteIds).
Proof.
  apply failsClean_after_getSites. intro sites. cbv beta zeta.
  destruct (Nat.ltb _ _); [apply failsClean_throw|].
  apply failsClean_then, failsClean_saveSites.
Qed.

Lemma failsClean_updateSiteShortcut (id : string) (shortcut : option ShortcutKey.t) :
  failsClean (ConfigManager.updateSiteShortcut id shortcut).
Proof.
  apply failsClean_after_getSites. intro sites. cbv beta zeta.
  destruct (ConfigManager.findIndex _ sites) as [[i site]|]; [|apply failsClean_throw].
  destruct shortcut as [sc|];
    [destruct (ConfigManager.orElse (ShortcutKey.enabled sc) false);
     [destruct (ConfigManager.checkShortcutConflicts sites id sc)
        as [conflicts [sites' sc']]|]|];
    cbv beta iota;
    (destruct (Nat.ltb _ _);
     [apply failsClean_throw | apply failsClean_then, failsClean_saveSites]).
Qed.

Lemma failsClean_importConfig (text : JsonText) :
  failsClean (ConfigManager.importConfig text).
Proof.
  destruct text as [v|]; [|apply failsClean_throw].
  unfold ConfigManager.importConfig, StorageManager.importConfig.
  destruct (StorageManager.isValidConfig v); [|apply failsClean_throw].
  apply failsClean_then, failsClean_saveConfig.
Qed.

Lemma failsClean_updateSetting (u : ConfigManager.SettingUpdate) :
  failsClean (ConfigManager.updateSetting u).
Proof.
  intro st. unfold ConfigManager.updateSetting, bind, ConfigManager.getSettings,
    StorageManager.getSettings, bind. rewrite getConfig_loaded. unfold ret.
  apply failsClean_saveSettings.
Qed.

(** Every operation of the manager that writes does so in its last step:
    when one of them throws, whatever the error, the stored document is
    the one there was before the call. *)
Theorem errors_leave_storage_unchanged :
  (forall now input, failsClean (ConfigManager.addSite now input)) /\
  (forall id updates, failsClean (ConfigManager.updateSite id updates)) /\
  (forall id, failsClean (ConfigManager.deleteSite id)) /\
  (forall id enabled, failsClean (ConfigManager.toggleSite id enabled)) /\
  (forall siteIds, failsClean (ConfigManager.reorderSites siteIds)) /\
  (forall id shortcut, failsClean (ConfigManager.updateSiteShortcut id shortcut)) /\
  (forall text, failsClean (ConfigManager.importConfig text)) /\
  (forall settings, failsClean (ConfigManager.saveSettings settings)) /\
  (forall u, failsClean (ConfigManager.updateSetting u)) /\
  failsClean ConfigManager.resetToDefault.
Proof.
  repeat split.
  - exact failsClean_addSite.
  - exact failsClean_updateSite.
  - exact failsClean_deleteSite.
  - intros id enabled. apply failsClean_updateSite.
  - exact failsClean_reorderSites.
  - exact failsClean_updateSiteShortcut.
  - exact failsClean_importConfig.
  - exact failsClean_saveSettings.
  - exact failsClean_updateSetting.
  - apply failsClean_then, failsClean_saveConfig.
Qed.

End FailsClean.

(** ** Settings, reset and clear *)

Section SettingsAndReset.

Lemma saveSettings_ok (settings : ExtensionSettings.t) (st : Storage) :
  setFails st = false ->
  StorageManager.saveSettings settings st
  = (inr tt,
     mkStorage
       (JsObject (StorageManager.toJs
          (ExtensionConfig.mk (ExtensionConfig.sites (loaded st)) settings currentVersion)))
       (getFails st) (setFails st)).
Proof.
  intro Hw. unfold StorageManager.saveSettings, bind. rewrite getConfig_loaded.
  now rewrite saveConfig_ok.
Qed.

Lemma getSettings_loaded (st : Storage) :
  StorageManager.getSettings st = (inr (ExtensionConfig.settings (loaded st)), st).
Proof. unfold StorageManager.getSettings, bind. now rewrite getConfig_loaded. Qed.

(** What [saveSettings] stores is what [getSettings] reads next, and the
    sites stay; [updateSetting] changes the one key it is given. *)
Theorem settings_roundtrip :
  (forall (st : Storage) (settings : ExtensionSettings.t),
     storageWorks st ->
     exists st',
       ConfigManager.saveSettings settings st = (inr tt, st') /\
       ConfigManager.getSettings st' = (inr settings, st') /\
       ExtensionConfig.sites (loaded st') = ExtensionConfig.sites (loaded st)) /\
  (forall (st : Storage) (u : ConfigManager.SettingUpdate),
     storageWorks st ->
     exists st' after,
       ConfigManager.updateSetting u st = (inr tt, st') /\
       ConfigManager.getSettings st' = (inr after, st') /\
       ExtensionConfig.sites (loaded st') = ExtensionConfig.sites (loaded st) /\
       let before := ExtensionConfig.settings (loaded st) in
       match u with
       | ConfigManager.SetDefaultSiteId v =>
           ExtensionSettings.defaultSiteId after = Some v /\
           ExtensionSettings.openInNewTab after = ExtensionSettings.openInNewTab before /\
           ExtensionSettings.showOnHover after = ExtensionSettings.showOnHover before /\
           ExtensionSettings.enableShortcuts after = ExtensionSettings.enableShortcuts before
       | ConfigManager.SetOpenInNewTab v =>
           ExtensionSettings.defaultSiteId after = ExtensionSettings.defaultSiteId before /\
           ExtensionSettings.openInNewTab after = Some v /\
           ExtensionSettings.showOnHover after = ExtensionSettings.showOnHover before /\
           ExtensionSettings.enableShortcuts after = ExtensionSettings.enableShortcuts before
       | ConfigManager.SetShowOnHover v =>
           ExtensionSettings.defaultSiteId after = ExtensionSettings.defaultSiteId before /\
           ExtensionSettings.openInNewTab after = ExtensionSettings.openInNewTab before /\
           ExtensionSettings.showOnHover after = Some v /\
           ExtensionSettings.enableShortcuts after = ExtensionSettings.enableShortcuts before
       | ConfigManager.SetEnableShortcuts v =>
           ExtensionSettings.defaultSiteId after = ExtensionSettings.defaultSiteId before /\
           ExtensionSettings.openInNewTab after = ExtensionSettings.openInNewTab before /\
           ExtensionSettings.showOnHover after = ExtensionSettings.showOnHover before /\
           ExtensionSettings.enableShortcuts after = Some v
       end).
Proof.
  assert (forall (st : Storage) (settings : ExtensionSettings.t),
     storageWorks st ->
     exists st',
       ConfigManager.saveSettings settings st = (inr tt, st') /\
       ConfigManager.getSettings st' = (inr settings, st') /\
       ExtensionConfig.sites (loaded st') = ExtensionConfig.sites (loaded st)) as Hsave.
  { intros st settings [Hr Hw]. eexists. split; [now apply saveSettings_ok|].
    unfold ConfigManager.getSettings. rewrite getSettings_loaded.
    rewrite loaded_cases. cbn [getFails item].
    rewrite Hr, isValidConfig_toJs. split; reflexivity. }
  split; [exact Hsave|].
  intros st u Hworks.
  destruct (Hsave st (ConfigManager.assignSetting (ExtensionConfig.settings (loaded st)) u)
              Hworks) as [st' (Hrun & Hget & Hsites)].
  exists st', (ConfigManager.assignSetting (ExtensionConfig.settings (loaded st)) u).
  split; [|split; [exact Hget | split; [exact Hsites|]]].
  - unfold ConfigManager.updateSetting, bind, ConfigManager.getSettings.
    rewrite getSettings_loaded. exact Hrun.
  - destruct u; repeat split.
Qed.

Lemma settings_roundtrip_witness :
  let st := mkStorage JsUndefined false false in
  (exists st',
     ConfigManager.saveSettings (ExtensionSettings.mk (Some "zread") (Some false) None None) st
     = (inr tt, st') /\
     ConfigManager.getSettings st'
     = (inr (ExtensionSettings.mk (Some "zread") (Some false) None None), st') /\
     ExtensionConfig.sites (loaded st') = ExtensionConfig.sites (loaded st)) /\
  (exists st' after,
     ConfigManager.updateSetting (ConfigManager.SetOpenInNewTab false) st = (inr tt, st') /\
     ConfigManager.getSettings st' = (inr after, st') /\
     ExtensionConfig.sites (loaded st') = ExtensionConfig.sites (loaded st) /\
     ExtensionSettings.defaultSiteId after = Some "github_dev" /\
     ExtensionSettings.openInNewTab after = Some false /\
     ExtensionSettings.showOnHover after = Some false /\
     ExtensionSettings.enableShortcuts after = Some true).
Proof.
  intro st. split.
  - apply (proj1 settings_roundtrip st). split; reflexivity.
  - destruct (proj2 settings_roundtrip st (ConfigManager.SetOpenInNewTab false)
                (conj eq_refl eq_refl)) as [st' [after (H1 & H2 & H3 & H4)]].
    exists st', after. repeat split; try assumption; apply H4.
Defined.

(** [resetToDefault] stores the defaults and [clearAll] removes the
    document; after either, whatever was stored before, [getConfig] reads
    the defaults. *)
Theorem reset_and_clear_restore_defaults :
  (forall st : Storage,
     storageWorks st ->
     exists st',
       ConfigManager.resetToDefault st = (inr Defaults.DEFAULT_CONFIG, st') /\
       item st' = JsObject (StorageManager.toJs Defaults.DEFAULT_CONFIG) /\
       loaded st' = Defaults.DEFAULT_CONFIG) /\
  (forall st : Storage,
     setFails st = false ->
     exists st',
       StorageManager.clearAll st = (inr tt, st') /\
       item st' = JsUndefined /\
       loaded st' = Defaults.DEFAULT_CONFIG).
Proof.
  split.
  - intros st [Hr Hw]. eexists. split; [|split].
    + unfold ConfigManager.resetToDefault, StorageManager.resetToDefault, bind.
      rewrite saveConfig_ok by assumption. reflexivity.
    + reflexivity.
    + rewrite loaded_cases. cbn. now rewrite Hr.
  - intros st Hw. eexists. split; [|split].
    + unfold StorageManager.clearAll. rewrite Hw. reflexivity.
    + reflexivity.
    + rewrite loaded_cases. cbn. now destruct (getFails st).
Qed.

Lemma reset_and_clear_restore_defaults_witness :
  let st := mkStorage (JsPrim (PStr "not a configuration")) false false in
  (exists st',
     ConfigManager.resetToDefault st = (inr Defaults.DEFAULT_CONFIG, st') /\
     item st' = JsObject (StorageManager.toJs Defaults.DEFAULT_CONFIG) /\
     loaded st' = Defaults.DEFAULT_CONFIG) /\
  (exists st',
     StorageManager.clearAll st = (inr tt, st') /\
     item st' = JsUndefined /\
     loaded st' = Defaults.DEFAULT_CONFIG).
Proof.
  intro st. split.
  - apply (proj1 reset_and_clear_restore_defaults st). split; reflexivity.
  - apply (proj2 reset_and_clear_restore_defaults st). reflexivity.
Defined.

End SettingsAndReset.

(** ** Adding a site *)

Section AddSite.

Lemma maxOrder_bound (sites : list ServiceSite.t) :
  (0 <= ConfigManager.maxOrder sites)%Z /\
  forall s, In s sites -> (ServiceSite.order s <= ConfigManager.maxOrder sites)%Z.
Proof.
  unfold ConfigManager.maxOrder. induction sites as [|x l [IH0 IH]]; simpl.
  - split; [lia | intros s []].
  - split; [lia|]. intros s [<-|Hs]; [lia|]. specialize (IH s Hs). lia.
Qed.

Lemma existsb_hasId (id : string) (sites : list ServiceSite.t) :
  existsb (ConfigManager.hasId id) sites = true <-> hasSite id sites.
Proof.
  rewrite existsb_exists. unfold hasSite.
  split; intros [s [Hin H]]; exists s; (split; [assumption | now apply hasId_true]).
Qed.

Lemma maxOrder_safe (sites : list ServiceSite.t) :
  safeOrders sites -> (ConfigManager.maxOrder sites <= MAX_SAFE_INTEGER)%Z.
Proof.
  unfold ConfigManager.maxOrder, safeOrders.
  induction sites as [|x l IH]; intro H; cbn [map fold_right].
  - unfold MAX_SAFE_INTEGER. lia.
  - pose proof (H x (or_introl eq_refl)).
    assert (fold_right Z.max 0%Z (map ServiceSite.order l) <= MAX_SAFE_INTEGER)%Z
      by (apply IH; intros s Hs; apply H; now right).
    lia.
Qed.

(** Up to 2^53 the sum of two integers is the number the code gets. *)
Lemma roundToNumber_exact (n : Z) :
  (Z.abs n <= 2 ^ 53)%Z -> ConfigManager.roundToNumber n = n.
Proof.
  intro H. unfold ConfigManager.roundToNumber.
  apply Z.leb_le in H. now rewrite H.
Qed.

(** What a call of [addSite] that returns has gone through. *)
Lemma addSite_inv (st st' : Storage) (now : Z) (input : CreateSiteInput.t)
    (site : ServiceSite.t) :
  ConfigManager.addSite now input st = (inr site, st') ->
  customCount (ExtensionConfig.sites (loaded st)) < Defaults.MAX_CUSTOM_SITES /\
  ConfigManager.validateSiteInput input = None /\
  ~ hasSite (ServiceSite.id site) (ExtensionConfig.sites (loaded st)) /\
  site = ServiceSite.mk (ConfigManager.generateSiteId (CreateSiteInput.name input) now)
           (CreateSiteInput.name input) (CreateSiteInput.description input)
           (CreateSiteInput.category input) (CreateSiteInput.urlTemplate input)
           (CreateSiteInput.icon input) (CreateSiteInput.enabled input)
           (ConfigManager.roundToNumber
              (ConfigManager.maxOrder (ExtensionConfig.sites (loaded st)) + 1)) false
           (CreateSiteInput.shortcuts input) /\
  st' = savedSites (ExtensionConfig.sites (loaded st) ++ [site]) st.
Proof.
  read_sites ConfigManager.addSite. fold (customCount (ExtensionConfig.sites (loaded st))).
  destruct (Nat.leb_spec Defaults.MAX_CUSTOM_SITES
              (customCount (ExtensionConfig.sites (loaded st)))) as [Hge|Hlt];
    [discriminate|].
  destruct (ConfigManager.validateSiteInput input); [discriminate|].
  destruct (existsb _ _) eqn:Eid; [discriminate|].
  destruct (setFails st) eqn:Hw.
  - rewrite saveSites_fails by assumption. discriminate.
  - rewrite saveSites_ok by assumption. unfold ret. intros [= <- <-].
    repeat split; try assumption.
    intro Hh. apply existsb_hasId in Hh. cbn [ServiceSite.id] in Hh. congruence.
Qed.

(** [addSite] never takes the custom sites beyond twenty: at twenty it
    throws before it looks at the input, and below it adds one at most. *)
Theorem addSite_keeps_limit :
  (forall (st : Storage) (now : Z) (input : CreateSiteInput.t),
     Defaults.MAX_CUSTOM_SITES <= customCount (ExtensionConfig.sites (loaded st)) ->
     ConfigManager.addSite now input st = (inl MaxCustomSitesReached, st)) /\
  (forall (st : Storage) (now : Z) (input : CreateSiteInput.t),
     getFails st = false ->
     customCount (ExtensionConfig.sites (loaded (snd (ConfigManager.addSite now input st))))
     <= Nat.max Defaults.MAX_CUSTOM_SITES (customCount (ExtensionConfig.sites (loaded st)))).
Proof.
  split.
  - intros st now input Hge. read_sites ConfigManager.addSite.
    fold (customCount (ExtensionConfig.sites (loaded st))).
    apply Nat.leb_le in Hge. now rewrite Hge.
  - intros st now input Hr.
    destruct (ConfigManager.addSite now input st) as [[e|site] st'] eqn:E.
    + pose proof (failsClean_addSite now input st) as Hc.
      rewrite E in Hc. cbn [snd]. subst st'. lia.
    + destruct (addSite_inv _ _ _ _ _ E) as (Hlt & _ & _ & Hsite & ->).
      cbn [snd]. rewrite loaded_savedSites by assumption. cbn [ExtensionConfig.sites].
      unfold customCount in *. rewrite filter_app, length_app.
      rewrite Hsite. cbn [filter ServiceSite.isBuiltIn negb length].
      unfold Defaults.MAX_CUSTOM_SITES in *. lia.
Qed.

Lemma addSite_keeps_limit_witness :
  let mirror :=
    ServiceSite.mk "custom-mirror-1" "Mirror" "" "source" "https://example.com/{REPO_PATH}"
      "code" true 6 false None in
  let full :=
    mkStorage (JsObject (StorageManager.toJs
                 (ExtensionConfig.mk (Defaults.DEFAULT_SITES ++ repeat mirror 20)
                    Defaults.DEFAULT_SETTINGS (Some "1.0.0")))) false false in
  let input := CreateSiteInput.mk "" "" "neither" "" "" true None in
  ConfigManager.addSite 1700000000000 input full = (inl MaxCustomSitesReached, full) /\
  customCount (ExtensionConfig.sites
                 (loaded (snd (ConfigManager.addSite 1700000000000 input full))))
  <= Nat.max Defaults.MAX_CUSTOM_SITES (customCount (ExtensionConfig.sites (loaded full))).
Proof.
  intros mirror full input. split.
  - apply (proj1 addSite_keeps_limit full). vm_compute. lia.
  - apply (proj2 addSite_keeps_limit full). reflexivity.
Defined.

(** A call of [addSite] that returns has stored the old list with the new
    site at its end: the id is one no site had, the site is not built in,
    the other fields are the input's, and [getSiteById] with the new id
    finds it.  When every stored order is at most [MAX_SAFE_INTEGER], the
    [order] of the new site is positive and above every order there was;
    when the greatest stored order is 2^53, the sum with 1 is rounded and
    the new site gets 2^53 again. *)
Theorem addSite_appends_fresh_site :
  forall (st st' : Storage) (now : Z) (input : CreateSiteInput.t) (site : ServiceSite.t),
    ConfigManager.addSite now input st = (inr site, st') ->
    getFails st = false ->
    ExtensionConfig.sites (loaded st') = ExtensionConfig.sites (loaded st) ++ [site] /\
    ExtensionConfig.settings (loaded st') = ExtensionConfig.settings (loaded st) /\
    ~ hasSite (ServiceSite.id site) (ExtensionConfig.sites (loaded st)) /\
    (uniqueIds (ExtensionConfig.sites (loaded st)) ->
     uniqueIds (ExtensionConfig.sites (loaded st'))) /\
    ServiceSite.isBuiltIn site = false /\
    (safeOrders (ExtensionConfig.sites (loaded st)) ->
     (0 < ServiceSite.order site)%Z /\
     forall s, In s (ExtensionConfig.sites (loaded st)) ->
               (ServiceSite.order s < ServiceSite.order site)%Z) /\
    (ConfigManager.maxOrder (ExtensionConfig.sites (loaded st)) = (2 ^ 53)%Z ->
     ServiceSite.order site = (2 ^ 53)%Z) /\
    (ServiceSite.name site, ServiceSite.description site, ServiceSite.category site,
     ServiceSite.urlTemplate site, ServiceSite.icon site, ServiceSite.enabled site,
     ServiceSite.shortcuts site)
    = (CreateSiteInput.name input, CreateSiteInput.description input,
       CreateSiteInput.category input, CreateSiteInput.urlTemplate input,
       CreateSiteInput.icon input, CreateSiteInput.enabled input,
       CreateSiteInput.shortcuts input) /\
    ConfigManager.getSiteById (ServiceSite.id site) st' = (inr (Some site), st').
Proof.
  intros st st' now input site Hrun Hr.
  destruct (addSite_inv _ _ _ _ _ Hrun) as (_ & _ & Hfresh & Hsite & ->).
  pose proof (maxOrder_bound (ExtensionConfig.sites (loaded st))) as [H0 Hmax].
  assert (ExtensionConfig.sites (loaded (savedSites
            (ExtensionConfig.sites (loaded st) ++ [site]) st))
          = ExtensionConfig.sites (loaded st) ++ [site]) as Hsites
    by now rewrite loaded_savedSites.
  split; [exact Hsites|].
  split; [now rewrite loaded_savedSites|].
  split; [exact Hfresh|].
  split; [|split; [|split; [|split; [|split]]]].
  - intro Hu. rewrite Hsites. unfold uniqueIds in *. rewrite map_app. cbn [map].
    apply NoDup_app; [assumption | |].
    + repeat constructor. intros [].
    + intros x Hx [<-|[]]. apply Hfresh. now apply hasSite_ids.
  - now rewrite Hsite.
  - intro Hsafe.
    pose proof (maxOrder_safe (ExtensionConfig.sites (loaded st)) Hsafe) as Hle.
    rewrite Hsite. cbn [ServiceSite.order].
    rewrite roundToNumber_exact by (unfold MAX_SAFE_INTEGER in Hle; lia).
    split; [lia|]. intros s Hs. specialize (Hmax s Hs). lia.
  - intro E. rewrite Hsite. cbn [ServiceSite.order]. rewrite E. reflexivity.
  - now rewrite Hsite.
  - read_sites ConfigManager.getSiteById. rewrite Hsites. unfold ret. do 2 f_equal.
    apply (find_at _ (ExtensionConfig.sites (loaded st)) [] site); [|apply hasId_self].
    intros y Hy. destruct (ConfigManager.hasId (ServiceSite.id site) y) eqn:E; [|reflexivity].
    exfalso. apply Hfresh. exists y. split; [assumption | now apply hasId_true].
Qed.

Lemma addSite_appends_fresh_site_witness :
  let st := mkStorage JsUndefined false false in
  let input := CreateSiteInput.mk "My Mirror" "" "ai" "https://example.com/{repoPath}"
                 "globe" true None in
  exists site st',
    ConfigManager.addSite 1700000000000 input st = (inr site, st') /\
    ServiceSite.id site = "custom-my-mirror-1700000000000" /\
    ExtensionConfig.sites (loaded st') = ExtensionConfig.sites (loaded st) ++ [site] /\
    ServiceSite.order site = 6%Z /\
    (forall s, In s (ExtensionConfig.sites (loaded st)) ->
               (ServiceSite.order s < ServiceSite.order site)%Z) /\
    ConfigManager.getSiteById (ServiceSite.id site) st' = (inr (Some site), st').
Proof.
  intros st input.
  set (site := ServiceSite.mk "custom-my-mirror-1700000000000" "My Mirror" "" "ai"
                 "https://example.com/{repoPath}" "globe" true 6 false None).
  assert (ConfigManager.addSite 1700000000000 input st
          = (inr site, savedSites (Defaults.DEFAULT_SITES ++ [site]) st)) as Hrun
    by (vm_compute; reflexivity).
  exists site, (savedSites (Defaults.DEFAULT_SITES ++ [site]) st).
  destruct (addSite_appends_fresh_site _ _ _ _ _ Hrun eq_refl)
    as (H1 & _ & _ & _ & _ & Horder & _ & _ & H9).
  split; [exact Hrun|]. split; [reflexivity|]. split; [exact H1|].
  split; [reflexivity|]. split; [|exact H9].
  apply Horder. intros s Hs. simpl in Hs.
  decompose [or] Hs; subst; try contradiction; vm_compute; discriminate.
Defined.

End AddSite.

(** ** Updating a site: the checks and what slips past them *)

Section UpdateSite.

Lemma updateSite_at (st : Storage) (l1 l2 : list ServiceSite.t) (site : ServiceSite.t)
    (updates : UpdateSiteInput.t) :
  ExtensionConfig.sites (loaded st) = l1 ++ site :: l2 ->
  (forall x, In x l1 -> ConfigManager.hasId (ServiceSite.id site) x = false) ->
  ConfigManager.updateSite (ServiceSite.id site) updates st
  = let validation :=
      if ConfigManager.truthyStr (UpdateSiteInput.name updates)
         || ConfigManager.truthyStr (UpdateSiteInput.urlTemplate updates)
         || ConfigManager.truthyStr (UpdateSiteInput.category updates)
         || ConfigManager.truthyStr (UpdateSiteInput.icon updates)
      then
        ConfigManager.validateSiteInput
          (CreateSiteInput.mk
             (ConfigManager.strOr (UpdateSiteInput.name updates) (ServiceSite.name site))
             (ConfigManager.strOr (UpdateSiteInput.description updates)
                (ServiceSite.description site))
             (ConfigManager.strOr (UpdateSiteInput.category updates)
                (ServiceSite.category site))
             (ConfigManager.strOr (UpdateSiteInput.urlTemplate updates)
                (ServiceSite.urlTemplate site))
             (ConfigManager.strOr (UpdateSiteInput.icon updates) (ServiceSite.icon site))
             (ConfigManager.orElse (UpdateSiteInput.enabled updates)
                (ServiceSite.enabled site))
             None)
      else None in
    match validation with
    | Some e => (inl e, st)
    | None =>
        (StorageManager.saveSites
           (l1 ++ ConfigManager.spreadUpdates site updates :: l2) ;;;
         ret (ConfigManager.spreadUpdates site updates)) st
    end.
Proof.
  intros Hs H1. read_sites ConfigManager.updateSite. rewrite Hs.
  rewrite (findIndex_at _ l1 l2 site H1 (hasId_self site)). cbv zeta.
  match goal with |- context [match ?v with Some e => throw e | None => _ end] =>
    destruct v; [reflexivity|] end.
  now rewrite setAt_at.
Qed.

Lemma find_split {A : Type} (f : A -> bool) (l : list A) (x : A) :
  find f l = Some x ->
  exists l1 l2, l = l1 ++ x :: l2 /\ f x = true /\ forall y, In y l1 -> f y = false.
Proof.
  induction l as [|a l IH]; cbn [find]; [discriminate|].
  destruct (f a) eqn:E.
  - intros [= <-]. exists [], l. repeat split; [assumption | intros y []].
  - intro H. destruct (IH H) as [l1 [l2 (-> & Hx & H1)]].
    exists (a :: l1), l2. repeat split; [assumption|].
    intros z [<-|Hz]; auto.
Qed.

(** [updateSite] throws for an id that no site has, and writes nothing.
    Otherwise it works on the first stored site with the id.  With a storage
    that works, a patch whose name, urlTemplate, category and icon are absent
    or empty is stored without any check: that site is replaced by the
    patched one, the sites before and after it stay, and a name given as the
    empty text is stored as the name.  And when the urlTemplate of that site
    does not match [URL_TEMPLATE_REGEX], a patch that gives a name, a
    category or an icon and no urlTemplate is refused and nothing is written:
    with the error of the empty name when the name that results is blank,
    and otherwise with the error of the template, which the patch does not
    touch. *)
Theorem updateSite_checks :
  (forall (st : Storage) (id : string) (updates : UpdateSiteInput.t),
     ~ hasSite id (ExtensionConfig.sites (loaded st)) ->
     ConfigManager.updateSite id updates st = (inl SiteDoesNotExist, st)) /\
  (forall (st : Storage) (id : string) (site : ServiceSite.t) (updates : UpdateSiteInput.t),
     find (ConfigManager.hasId id) (ExtensionConfig.sites (loaded st)) = Some site ->
     storageWorks st ->
     ConfigManager.truthyStr (UpdateSiteInput.name updates) = false ->
     ConfigManager.truthyStr (UpdateSiteInput.urlTemplate updates) = false ->
     ConfigManager.truthyStr (UpdateSiteInput.category updates) = false ->
     ConfigManager.truthyStr (UpdateSiteInput.icon updates) = false ->
     exists l1 l2 st',
       ExtensionConfig.sites (loaded st) = l1 ++ site :: l2 /\
       ~ hasSite id l1 /\
       ConfigManager.updateSite id updates st
       = (inr (ConfigManager.spreadUpdates site updates), st') /\
       ExtensionConfig.sites (loaded st')
       = l1 ++ ConfigManager.spreadUpdates site updates :: l2 /\
       (UpdateSiteInput.name updates = Some EmptyString ->
        ServiceSite.name (ConfigManager.spreadUpdates site updates) = EmptyString)) /\
  (forall (st : Storage) (id : string) (site : ServiceSite.t) (updates : UpdateSiteInput.t),
     find (ConfigManager.hasId id) (ExtensionConfig.sites (loaded st)) = Some site ->
     Defaults.URL_TEMPLATE_REGEX_test (ServiceSite.urlTemplate site) = false ->
     ConfigManager.truthyStr (UpdateSiteInput.urlTemplate updates) = false ->
     ConfigManager.truthyStr (UpdateSiteInput.name updates)
     || ConfigManager.truthyStr (UpdateSiteInput.category updates)
     || ConfigManager.truthyStr (UpdateSiteInput.icon updates) = true ->
     let name := ConfigManager.strOr (UpdateSiteInput.name updates)
                   (ServiceSite.name site) in
     (JsString.trim name = EmptyString ->
      ConfigManager.updateSite id updates st = (inl SiteNameEmpty, st)) /\
     (JsString.trim name <> EmptyString ->
      ConfigManager.updateSite id updates st = (inl InvalidUrlTemplate, st))).
Proof.
  split; [|split].
  - intros st id updates Hno. read_sites ConfigManager.updateSite.
    now rewrite (proj2 (findIndex_None id _) Hno).
  - intros st id site updates Hfind [Hr Hw] Hn Ht Hc Hi.
    destruct (find_split _ _ _ Hfind) as [l1 [l2 (Hs & Hid & H1)]].
    apply hasId_true in Hid. subst id.
    exists l1, l2. eexists. split; [exact Hs|]. split.
    { intros [x [Hx Hxid]]. apply hasId_true in Hxid. rewrite (H1 x Hx) in Hxid.
      discriminate. }
    rewrite (updateSite_at st l1 l2 site updates Hs H1), Hn, Ht, Hc, Hi.
    cbn [orb]. cbv zeta. unfold bind. rewrite saveSites_ok by assumption.
    split; [reflexivity|]. split; [now rewrite loaded_savedSites|].
    intro E. unfold ConfigManager.spreadUpdates. cbn [ServiceSite.name]. now rewrite E.
  - intros st id site updates Hfind Hbad Ht Hany name.
    destruct (find_split _ _ _ Hfind) as [l1 [l2 (Hs & Hid & H1)]].
    apply hasId_true in Hid. subst id.
    rewrite (updateSite_at st l1 l2 site updates Hs H1), Ht.
    rewrite orb_false_r.
    replace (ConfigManager.truthyStr (UpdateSiteInput.name updates)
             || ConfigManager.truthyStr (UpdateSiteInput.category updates)
             || ConfigManager.truthyStr (UpdateSiteInput.icon updates)) with true.
    cbv zeta. unfold ConfigManager.validateSiteInput.
    cbn [CreateSiteInput.name CreateSiteInput.urlTemplate]. fold name.
    assert (ConfigManager.strOr (UpdateSiteInput.urlTemplate updates)
              (ServiceSite.urlTemplate site) = ServiceSite.urlTemplate site) as ->.
    { unfold ConfigManager.strOr, ConfigManager.truthyStr in *.
      destruct (UpdateSiteInput.urlTemplate updates) as [u|]; [|reflexivity].
      destruct (String.eqb u EmptyString); [reflexivity | discriminate]. }
    rewrite Hbad. split.
    + intro Hblank. rewrite Hblank. cbn [String.length Nat.eqb].
      now rewrite orb_true_r.
    + intro Hname.
      destruct name as [|c n] eqn:En; [now contradiction Hname|].
      destruct (JsString.trim (String c n)) eqn:Etrim; [now contradiction Hname|].
      cbn. now rewrite orb_true_r.
Qed.

Lemma updateSite_checks_witness :
  let st := mkStorage JsUndefined false false in
  let github1s :=
    ServiceSite.mk "github1s" "GitHub1s" "sites.descriptions.github1s" "source"
      "https://github1s.com/{REPO_PATH}" "github" true 1 true (Defaults.ctrlShift "1") in
  let rename name := UpdateSiteInput.mk (Some name) None None None None None None None in
  let blank :=
    mkStorage (JsObject (StorageManager.toJs
                 (ExtensionConfig.mk [ConfigManager.spreadUpdates github1s (rename "")]
                    Defaults.DEFAULT_SETTINGS (Some "1.0.0")))) false false in
  ConfigManager.updateSite "custom-mirror-9" (rename "Mirror") st
  = (inl SiteDoesNotExist, st) /\
  (exists l1 l2 st',
     ExtensionConfig.sites (loaded st) = l1 ++ github1s :: l2 /\
     ~ hasSite "github1s" l1 /\
     ConfigManager.updateSite "github1s" (rename "") st
     = (inr (ConfigManager.spreadUpdates github1s (rename "")), st') /\
     ExtensionConfig.sites (loaded st')
     = l1 ++ ConfigManager.spreadUpdates github1s (rename "") :: l2 /\
     (UpdateSiteInput.name (rename "") = Some EmptyString ->
      ServiceSite.name (ConfigManager.spreadUpdates github1s (rename "")) = EmptyString)) /\
  ConfigManager.updateSite "github1s" (rename "GitHub One S") st
  = (inl InvalidUrlTemplate, st) /\
  ConfigManager.updateSite "github1s"
    (UpdateSiteInput.mk None None None None (Some "star") None None None) blank
  = (inl SiteNameEmpty, blank).
Proof.
  intros st github1s rename blank.
  destruct updateSite_checks as (Hunknown & Hquiet & Hstale).
  split; [|split; [|split]].
  - apply Hunknown. intros [s [Hin Hid]]. simpl in Hin.
    decompose [or] Hin; subst; try discriminate; contradiction.
  - apply (Hquiet st "github1s" github1s (rename ""));
      try reflexivity. split; reflexivity.
  - apply (proj2 (Hstale st "github1s" github1s (rename "GitHub One S")
                    eq_refl eq_refl eq_refl eq_refl)).
    discriminate.
  - apply (proj1 (Hstale blank "github1s"
                    (ConfigManager.spreadUpdates github1s (rename ""))
                    (UpdateSiteInput.mk None None None None (Some "star") None None None)
                    eq_refl eq_refl eq_refl eq_refl)).
    reflexivity.
Defined.

End UpdateSite.

(** ** The shortcut mapping *)

Section ShortcutMapping.

Lemma ownsChordb_spec (str : string) (site : ServiceSite.t) :
  ownsChordb str site = true <-> ownsChord str site.
Proof.
  unfold ownsChordb, ownsChord. split.
  - destruct (ServiceSite.shortcuts site) as [sc|]; [|discriminate].
    destruct (ShortcutKey.enabled sc) as [[]|] eqn:E; try discriminate.
    intro H. exists sc. repeat split; [assumption | now apply String.eqb_eq].
  - intros [sc (-> & -> & E)]. now apply String.eqb_eq.
Qed.

Lemma canonical_sortedChord (sc : ShortcutKey.t) : canonical (sortedChord sc) = canonical sc.
Proof.
  unfold canonical, sortedChord, ConfigManager.formatShortcutString. cbn.
  now rewrite sort_idempotent.
Qed.

Lemma sortedChord_idempotent (sc : ShortcutKey.t) :
  sortedChord (sortedChord sc) = sortedChord sc.
Proof.
  unfold sortedChord, ConfigManager.formatShortcutString. cbn.
  now rewrite sort_idempotent.
Qed.

Lemma recordGet_assignOwn (key str : string) (site : ServiceSite.t)
    (mapping : ConfigManager.ShortcutMapping) :
  ConfigManager.recordGet str (ConfigManager.assignOwn key site mapping)
  = if String.eqb key str then Some site else ConfigManager.recordGet str mapping.
Proof.
  induction mapping as [|[k x] t IH]; simpl.
  - reflexivity.
  - destruct (String.eqb_spec k key) as [->|Hk]; simpl.
    + destruct (String.eqb key str); reflexivity.
    + destruct (String.eqb_spec k str) as [->|Hs].
      * destruct (String.eqb_spec key str) as [->|_]; [congruence | reflexivity].
      * exact IH.
Qed.

Lemma recordGet_recordSet (key str : string) (site : ServiceSite.t)
    (mapping : ConfigManager.ShortcutMapping) :
  str <> "__proto__" ->
  ConfigManager.recordGet str (ConfigManager.recordSet key site mapping)
  = if String.eqb key str then Some site else ConfigManager.recordGet str mapping.
Proof.
  intro Hstr. unfold ConfigManager.recordSet.
  destruct (String.eqb_spec key "__proto__") as [->|_].
  - destruct (String.eqb_spec "__proto__" str); [congruence | reflexivity].
  - apply recordGet_assignOwn.
Qed.

Lemma find_append {A : Type} (f : A -> bool) (l1 l2 : list A) :
  find f (l1 ++ l2) = match find f l1 with Some x => Some x | None => find f l2 end.
Proof.
  induction l1 as [|a l1 IH]; simpl; [reflexivity|]. now destruct (f a).
Qed.

(** The loop leaves under [str] the last site of the list that owns it. *)
Lemma collectMapping_get (str : string) (sites : list ServiceSite.t) :
  str <> "__proto__" ->
  forall mapping,
    ConfigManager.recordGet str (ConfigManager.collectMapping sites mapping)
    = match find (ownsChordb str) (rev sites) with
      | Some site => Some (normalizeChord site)
      | None => ConfigManager.recordGet str mapping
      end.
Proof.
  intro Hstr. induction sites as [|s l IH]; intro mapping; [reflexivity|].
  cbn [ConfigManager.collectMapping rev]. rewrite find_append. cbn [find].
  assert (ownsChordb str s = false ->
          ConfigManager.recordGet str (ConfigManager.collectMapping l mapping)
          = match
              match find (ownsChordb str) (rev l) with
              | Some x => Some x
              | None => if ownsChordb str s then Some s else None
              end
            with
            | Some site => Some (normalizeChord site)
            | None => ConfigManager.recordGet str mapping
            end) as Hskip.
  { intros ->. rewrite IH. now destruct (find (ownsChordb str) (rev l)). }
  destruct (ServiceSite.shortcuts s) as [sc|] eqn:Es.
  2: { apply Hskip. unfold ownsChordb. now rewrite Es. }
  unfold ConfigManager.shortcutEnabled. rewrite Es.
  destruct (ShortcutKey.enabled sc) as [[]|] eqn:Een.
  2, 3: apply Hskip; unfold ownsChordb; now rewrite Es, Een.
  change (ConfigManager.formatShortcutString sc) with (canonical sc, sortedChord sc).
  cbv beta iota. rewrite IH.
  assert (ownsChordb str s = String.eqb (canonical sc) str) as ->
    by (unfold ownsChordb; now rewrite Es, Een).
  assert (normalizeChord s = ConfigManager.withShortcuts s (Some (sortedChord sc))) as Hn
    by (unfold normalizeChord; now rewrite Es).
  destruct (find (ownsChordb str) (rev l)); [reflexivity|].
  rewrite recordGet_recordSet by assumption.
  destruct (String.eqb (canonical sc) str); [now rewrite Hn | reflexivity].
Qed.

Lemma find_rev_last {A : Type} (f : A -> bool) (l : list A) (x : A) :
  find f (rev l) = Some x ->
  exists l1 l2, l = l1 ++ x :: l2 /\ f x = true /\ forall y, In y l2 -> f y = false.
Proof.
  intro H. pose proof (find_first f (rev l)) as Hf. rewrite H in Hf.
  destruct Hf as [pre [post (E & Hpre & Hx)]].
  exists (rev post), (rev pre). split; [|split; [assumption|]].
  - rewrite <- (rev_involutive l), E, rev_app_distr. cbn [rev].
    now rewrite <- app_assoc.
  - intros y Hy. apply Hpre. now apply in_rev.
Qed.

Lemma getShortcutMapping_run (st : Storage) :
  ConfigManager.getShortcutMapping st
  = (inr (ConfigManager.collectMapping
            (ConfigManager.sortByOrder
               (filter ServiceSite.enabled (ExtensionConfig.sites (loaded st)))) []), st).
Proof.
  unfold ConfigManager.getShortcutMapping, bind. now rewrite getEnabledSites_run.
Qed.

Lemma StronglySorted_app_before {A : Type} (R : A -> A -> Prop) (l1 l2 : list A) (x : A) :
  StronglySorted R (l1 ++ x :: l2) -> forall y, In y l1 -> R y x.
Proof.
  induction l1 as [|a l1 IH]; intros Hs y Hy; [destruct Hy|].
  cbn in Hs. inversion Hs as [|? ? Hs' Hall]; subst.
  destruct Hy as [<-|Hy]; [|now apply IH].
  rewrite Forall_forall in Hall. apply Hall, in_or_app. right. now left.
Qed.

(** [getShortcutMapping]: under a canonical string the mapping holds a site
    that is enabled and owns the string with an enabled shortcut, with the
    modifiers of its chord sorted; every string owned by such a site has an
    entry; among several owners the entry is one of greatest [order]. *)
Theorem getShortcutMapping_spec :
  forall (st : Storage) (str : string),
    str <> "__proto__" ->
    exists mapping,
      ConfigManager.getShortcutMapping st = (inr mapping, st) /\
      (forall x, ConfigManager.recordGet str mapping = Some x ->
         exists site,
           x = normalizeChord site /\
           In site (ExtensionConfig.sites (loaded st)) /\
           ServiceSite.enabled site = true /\
           ownsChord str site /\
           forall other,
             In other (ExtensionConfig.sites (loaded st)) ->
             ServiceSite.enabled other = true ->
             ownsChord str other ->
             (ServiceSite.order other <= ServiceSite.order site)%Z) /\
      (ConfigManager.recordGet str mapping = None <->
       forall site,
         In site (ExtensionConfig.sites (loaded st)) ->
         ServiceSite.enabled site = true ->
         ~ ownsChord str site).
Proof.
  intros st str Hstr. eexists. split; [apply getShortcutMapping_run|].
  set (sites := ExtensionConfig.sites (loaded st)).
  set (sorted := ConfigManager.sortByOrder (filter ServiceSite.enabled sites)).
  assert (forall site, In site sorted <-> In site sites /\ ServiceSite.enabled site = true)
    as Hin.
  { intro site. rewrite <- filter_In. split; apply Permutation_in;
      [apply sortByOrder_perm | apply Permutation_sym, sortByOrder_perm]. }
  rewrite (collectMapping_get str sorted Hstr []). cbn [ConfigManager.recordGet].
  destruct (find (ownsChordb str) (rev sorted)) as [s|] eqn:Ef.
  - split.
    + intros x [= <-]. exists s.
      destruct (find_rev_last _ _ _ Ef) as [l1 [l2 (El & Hs & Hl2)]].
      assert (In s sorted) as Hs_in by (rewrite El; apply in_or_app; right; now left).
      apply Hin in Hs_in as [Hs1 Hs2].
      split; [reflexivity|]. split; [assumption|]. split; [assumption|].
      split; [now apply ownsChordb_spec|].
      intros other Ho1 Ho2 Ho3.
      assert (In other sorted) as Ho by (apply Hin; auto).
      rewrite El in Ho. apply in_app_or in Ho as [Ho|[<-|Ho]].
      * pose proof (sortByOrder_sorted (filter ServiceSite.enabled sites)) as Hsorted.
        fold sorted in Hsorted. rewrite El in Hsorted.
        exact (StronglySorted_app_before _ _ _ _ Hsorted other Ho).
      * lia.
      * apply ownsChordb_spec in Ho3. rewrite (Hl2 other Ho) in Ho3. discriminate.
    + split; [discriminate|]. intro Hnone. exfalso.
      destruct (find_rev_last _ _ _ Ef) as [l1 [l2 (El & Hs & _)]].
      assert (In s sorted) as Hs_in by (rewrite El; apply in_or_app; right; now left).
      apply Hin in Hs_in as [Hs1 Hs2].
      apply (Hnone s Hs1 Hs2). now apply ownsChordb_spec.
  - split; [discriminate|]. split; [|reflexivity].
    intros _ site Hs1 Hs2 Hown.
    pose proof (find_none _ _ Ef site) as Hn.
    rewrite <- in_rev in Hn. apply ownsChordb_spec in Hown.
    rewrite Hn in Hown; [discriminate | apply Hin; auto].
Qed.

Lemma getShortcutMapping_spec_witness :
  let st := mkStorage JsUndefined false false in
  exists mapping,
    ConfigManager.getShortcutMapping st = (inr mapping, st) /\
    (forall x, ConfigManager.recordGet "ctrl+shift+3" mapping = Some x ->
       exists site,
         x = normalizeChord site /\
         In site (ExtensionConfig.sites (loaded st)) /\
         ServiceSite.enabled site = true /\
         ownsChord "ctrl+shift+3" site /\
         forall other,
           In other (ExtensionConfig.sites (loaded st)) ->
           ServiceSite.enabled other = true ->
           ownsChord "ctrl+shift+3" other ->
           (ServiceSite.order other <= ServiceSite.order site)%Z) /\
    (ConfigManager.recordGet "ctrl+shift+3" mapping = None <->
     forall site,
       In site (ExtensionConfig.sites (loaded st)) ->
       ServiceSite.enabled site = true ->
       ~ ownsChord "ctrl+shift+3" site).
Proof.
  intro st.
  exact (getShortcutMapping_spec st "ctrl+shift+3" ltac:(discriminate)).
Defined.

End ShortcutMapping.

(** ** The invariants the shortcut assignment keeps *)

Section ChordInvariant.

Lemma activeChords_app (l1 l2 : list ServiceSite.t) :
  activeChords (l1 ++ l2) = activeChords l1 ++ activeChords l2.
Proof. unfold activeChords. apply flat_map_app. Qed.

Lemma activeChords_In (str : string) (sites : list ServiceSite.t) :
  In str (activeChords sites) <-> exists site, In site sites /\ ownsChord str site.
Proof.
  unfold activeChords. rewrite in_flat_map. split.
  - intros [site [Hin H]]. exists site. split; [assumption|].
    unfold ownsChord. destruct (ServiceSite.shortcuts site) as [sc|]; [|destruct H].
    destruct (ShortcutKey.enabled sc) as [[]|] eqn:E; try destruct H as [H|[]]; try destruct H.
    exists sc. auto.
  - intros [site [Hin [sc (Hs & He & Hc)]]]. exists site. split; [assumption|].
    rewrite Hs, He. now left.
Qed.

Lemma sortedChord_enabled (sc : ShortcutKey.t) :
  ShortcutKey.enabled (sortedChord sc) = ShortcutKey.enabled sc.
Proof. reflexivity. Qed.

Lemma normalizeOther_id (siteId : string) (site : ServiceSite.t) :
  ServiceSite.id (normalizeOther siteId site) = ServiceSite.id site.
Proof. unfold normalizeOther. now destruct (_ && _). Qed.

Lemma normalizeOther_enabled (siteId : string) (site : ServiceSite.t) :
  ServiceSite.enabled (normalizeOther siteId site) = ServiceSite.enabled site.
Proof. unfold normalizeOther. now destruct (_ && _). Qed.

Lemma normalizeOther_owns (siteId str : string) (site : ServiceSite.t) :
  ownsChord str (normalizeOther siteId site) <-> ownsChord str site.
Proof.
  rewrite normalizeOther_unfold. unfold ownsChord.
  destruct (ServiceSite.shortcuts site) as [sc|] eqn:Es; [|now rewrite Es].
  destruct (_ && _); [|now rewrite Es]. cbn [ConfigManager.withShortcuts ServiceSite.shortcuts].
  split.
  - intros [sc' ([= <-] & He & Hc)]. exists sc. rewrite canonical_sortedChord in Hc. auto.
  - intros [sc' ([= <-] & He & Hc)]. exists (sortedChord sc).
    rewrite canonical_sortedChord. auto.
Qed.

Lemma activeChords_normalize (siteId : string) (l : list ServiceSite.t) :
  activeChords (map (normalizeOther siteId) l) = activeChords l.
Proof.
  induction l as [|s l IH]; [reflexivity|].
  change (activeChords (normalizeOther siteId s :: map (normalizeOther siteId) l)
          = activeChords (s :: l)).
  change (activeChords ([normalizeOther siteId s] ++ map (normalizeOther siteId) l)
          = activeChords ([s] ++ l)).
  rewrite !activeChords_app, IH. f_equal.
  rewrite normalizeOther_unfold. unfold activeChords. cbn [flat_map].
  destruct (ServiceSite.shortcuts s) as [sc|] eqn:Es; [|now rewrite Es].
  destruct (_ && _); [|now rewrite Es].
  cbn [ConfigManager.withShortcuts ServiceSite.shortcuts].
  rewrite canonical_sortedChord. reflexivity.
Qed.

(** A call of [updateSiteShortcut] with an enabled chord that returns has
    found no other site that owns the chord. *)
Lemma updateSiteShortcut_no_conflict (st st' : Storage) (siteId : string)
    (chord : ShortcutKey.t) (site' : ServiceSite.t) :
  ConfigManager.updateSiteShortcut siteId (Some chord) st = (inr site', st') ->
  ShortcutKey.enabled chord = Some true ->
  forall s, In s (ExtensionConfig.sites (loaded st)) ->
            ServiceSite.id s <> siteId -> ~ ownsChord (canonical chord) s.
Proof.
  intros Hrun Hon s Hin Hid Hown. revert Hrun.
  read_sites ConfigManager.updateSiteShortcut.
  destruct (ConfigManager.findIndex _ _) as [[i site]|]; [|discriminate].
  rewrite Hon. cbn [ConfigManager.orElse].
  pose proof (checkShortcutConflicts_names (ExtensionConfig.sites (loaded st)) siteId chord)
    as Hnames.
  destruct (ConfigManager.checkShortcutConflicts _ siteId chord)
    as [conflicts [sites' chord']].
  cbn [fst] in Hnames.
  destruct conflicts as [|c cs]; [|discriminate].
  intros _. symmetry in Hnames. apply map_eq_nil in Hnames.
  assert (In s (filter (conflictsWith siteId (canonical chord))
                  (ExtensionConfig.sites (loaded st)))) as Hf.
  { apply filter_In. split; [assumption|]. now apply conflictsWith_spec. }
  rewrite Hnames in Hf. destruct Hf.
Qed.

Lemma uniqueIds_others (l1 l2 : list ServiceSite.t) (site : ServiceSite.t) :
  uniqueIds (l1 ++ site :: l2) ->
  forall s, In s (l1 ++ l2) -> ServiceSite.id s <> ServiceSite.id site.
Proof.
  unfold uniqueIds. rewrite map_app. cbn [map]. intros Hu s Hs E.
  apply NoDup_remove_2 in Hu. apply Hu. rewrite <- E, <- map_app. now apply in_map.
Qed.

Lemma NoDup_insert {A : Type} (l1 l2 : list A) (x : A) :
  NoDup (l1 ++ l2) -> ~ In x (l1 ++ l2) -> NoDup (l1 ++ x :: l2).
Proof.
  intros Hn Hx. apply (Permutation_NoDup (Permutation_middle l1 l2 x)).
  now constructor.
Qed.

Lemma activeChords_drop (l1 l2 : list ServiceSite.t) (site : ServiceSite.t) :
  chordsDistinct (l1 ++ site :: l2) -> NoDup (activeChords l1 ++ activeChords l2).
Proof.
  unfold chordsDistinct.
  change (l1 ++ site :: l2) with (l1 ++ [site] ++ l2). rewrite !activeChords_app.
  unfold activeChords at 2. cbn [flat_map]. rewrite app_nil_r.
  destruct (ServiceSite.shortcuts site) as [sc|]; [|now intros].
  destruct (ShortcutKey.enabled sc) as [[]|]; try now intros.
  intro H. now apply NoDup_remove_1 in H.
Qed.

(** When the ids of the stored sites are distinct and no two sites have
    enabled shortcuts with one canonical string, every call of
    [updateSiteShortcut] that returns leaves a list of which both are true. *)
Theorem updateSiteShortcut_keeps_chords_distinct :
  forall (st st' : Storage) (siteId : string) (shortcut : option ShortcutKey.t)
         (site' : ServiceSite.t),
    ConfigManager.updateSiteShortcut siteId shortcut st = (inr site', st') ->
    getFails st = false ->
    uniqueIds (ExtensionConfig.sites (loaded st)) ->
    chordsDistinct (ExtensionConfig.sites (loaded st)) ->
    uniqueIds (ExtensionConfig.sites (loaded st')) /\
    chordsDistinct (ExtensionConfig.sites (loaded st')).
Proof.
  intros st st' siteId shortcut site' Hrun Hr Hu Hd.
  assert ((exists chord, shortcut = Some chord /\ ShortcutKey.enabled chord = Some true) \/
          match shortcut with
          | Some sc => ShortcutKey.enabled sc <> Some true
          | None => True
          end) as [[chord [-> Hon]]|Hoff].
  { destruct shortcut as [sc|]; [|now right].
    destruct (ShortcutKey.enabled sc) as [[]|] eqn:E;
      [left; now exists sc | right; discriminate | right; discriminate]. }
  - destruct (updateSiteShortcut_effect _ _ _ _ _ Hrun Hr Hon)
      as [l1 [site [l2 (Hs & Hid & Hsite' & Hs' & _)]]].
    rewrite Hs in Hu, Hd. rewrite Hs'. split.
    + unfold uniqueIds in *. rewrite map_app in *. cbn [map] in *.
      rewrite !map_map.
      rewrite (map_ext _ ServiceSite.id (normalizeOther_id siteId)).
      rewrite (map_ext (fun x => ServiceSite.id (normalizeOther siteId x)) ServiceSite.id
                 (normalizeOther_id siteId)).
      now rewrite Hsite'.
    + unfold chordsDistinct.
      change (map (normalizeOther siteId) l1 ++ site' :: map (normalizeOther siteId) l2)
        with (map (normalizeOther siteId) l1 ++ [site'] ++ map (normalizeOther siteId) l2).
      rewrite !activeChords_app, !activeChords_normalize.
      assert (activeChords [site'] = [canonical chord]) as ->.
      { rewrite Hsite'. unfold activeChords.
        cbn [flat_map ConfigManager.withShortcuts ServiceSite.shortcuts app].
        now rewrite sortedChord_enabled, Hon, canonical_sortedChord. }
      apply NoDup_insert; [now apply (activeChords_drop l1 l2 site)|].
      rewrite <- activeChords_app. intros [s [Hin Hown]]%activeChords_In.
      apply (updateSiteShortcut_no_conflict _ _ _ _ _ Hrun Hon s); [| |assumption].
      * rewrite Hs. apply in_app_or in Hin as [H|H]; apply in_or_app;
          [left | right; right]; assumption.
      * rewrite <- Hid. now apply (uniqueIds_others l1 l2 site).
  - destruct (updateSiteShortcut_frame _ _ _ _ _ Hrun Hr Hoff)
      as [l1 [site [l2 (Hs & Hid & Hsite' & Hs' & _)]]].
    rewrite Hs in Hu, Hd. rewrite Hs'. split.
    + unfold uniqueIds in *. rewrite map_app in *. cbn [map] in *. now rewrite Hsite'.
    + unfold chordsDistinct.
      change (l1 ++ site' :: l2) with (l1 ++ [site'] ++ l2).
      rewrite !activeChords_app.
      assert (activeChords [site'] = []) as ->.
      { rewrite Hsite'. unfold activeChords. cbn.
        destruct shortcut as [sc|]; [|reflexivity].
        destruct (ShortcutKey.enabled sc) as [[]|]; [congruence | reflexivity | reflexivity]. }
      now apply (activeChords_drop l1 l2 site).
Qed.

Lemma chordsDistinct_defaults : chordsDistinct Defaults.DEFAULT_SITES.
Proof.
  unfold chordsDistinct.
  change (activeChords Defaults.DEFAULT_SITES)
    with ["ctrl+shift+1"; "ctrl+shift+2"; "ctrl+shift+3"; "ctrl+shift+4"; "ctrl+shift+5"].
  repeat (constructor; [simpl; intuition discriminate|]). constructor.
Qed.

Lemma updateSiteShortcut_keeps_chords_distinct_witness :
  let st := mkStorage JsUndefined false false in
  let chord := ShortcutKey.mk "9" ["shift"; "ctrl"] (Some true) in
  exists site' st',
    ConfigManager.updateSiteShortcut "github_dev" (Some chord) st = (inr site', st') /\
    uniqueIds (ExtensionConfig.sites (loaded st')) /\
    chordsDistinct (ExtensionConfig.sites (loaded st')).
Proof.
  intros st chord.
  destruct (ConfigManager.updateSiteShortcut "github_dev" (Some chord) st)
    as [[e|site'] st'] eqn:Hrun; [vm_compute in Hrun; discriminate|].
  exists site', st'. split; [reflexivity|].
  exact (updateSiteShortcut_keeps_chords_distinct st st' "github_dev" (Some chord) site'
           Hrun eq_refl uniqueIds_defaults chordsDistinct_defaults).
Defined.

End ChordInvariant.

(** ** When a shortcut is accepted, and where it leads *)

Section ShortcutAccepted.

Lemma scanConflicts_none (str siteId : string) (sites : list ServiceSite.t) :
  ~ inUse siteId sites str -> fst (ConfigManager.scanConflicts str siteId sites) = [].
Proof.
  intro Hfree. pose proof (scanConflicts_names str siteId sites) as Hn.
  assert (filter (conflictsWith siteId str) sites = []) as Hf.
  { destruct (filter _ sites) as [|s l] eqn:E; [reflexivity|].
    exfalso. apply Hfree.
    assert (In s (filter (conflictsWith siteId str) sites)) as Hs by (rewrite E; now left).
    apply filter_In in Hs as [Hin Hc]. apply conflictsWith_spec in Hc as [Hid Hown].
    now exists s. }
  rewrite Hf in Hn. now apply map_eq_nil in Hn.
Qed.

(** Without a conflict, and with a storage that takes the write,
    [updateSiteShortcut] returns for every id of a stored site. *)
Lemma updateSiteShortcut_runs (st : Storage) (siteId : string)
    (shortcut : option ShortcutKey.t) :
  hasSite siteId (ExtensionConfig.sites (loaded st)) ->
  setFails st = false ->
  match shortcut with
  | Some sc =>
      ShortcutKey.enabled sc = Some true ->
      ~ inUse siteId (ExtensionConfig.sites (loaded st)) (canonical sc)
  | None => True
  end ->
  exists site' st', ConfigManager.updateSiteShortcut siteId shortcut st = (inr site', st').
Proof.
  intros Hsite Hw Hfree. read_sites ConfigManager.updateSiteShortcut.
  destruct (findIndex_hasSite _ _ Hsite) as [i [site (Hf & _ & _)]]. rewrite Hf.
  assert (forall sites' sc',
            exists site' st',
              (if Nat.ltb 0 (@length ShortcutConflict.t [])
               then throw (ShortcutConflictError (map ShortcutConflict.siteName []))
               else
                 StorageManager.saveSites
                   (ConfigManager.setAt i
                      (ConfigManager.withShortcuts (nth i sites' site) sc') sites') ;;;
                 ret (ConfigManager.withShortcuts (nth i sites' site) sc')) st
              = (inr site', st')) as Hsave.
  { intros sites' sc'. cbn [length Nat.ltb Nat.leb]. unfold bind.
    rewrite saveSites_ok by assumption. unfold ret. eauto. }
  destruct shortcut as [sc|]; [|apply Hsave].
  destruct (ShortcutKey.enabled sc) as [[]|] eqn:Een; cbn [ConfigManager.orElse];
    try apply Hsave.
  unfold ConfigManager.checkShortcutConflicts.
  change (ConfigManager.formatShortcutString sc) with (canonical sc, sortedChord sc).
  cbv beta iota.
  pose proof (scanConflicts_none (canonical sc) siteId _ (Hfree eq_refl)) as Hnone.
  destruct (ConfigManager.scanConflicts (canonical sc) siteId _) as [conflicts sites'].
  cbn [fst] in Hnone. subst conflicts. apply Hsave.
Qed.

(** With a storage that takes the write, [updateSiteShortcut] returns
    exactly when the id is that of a stored site and the chord is absent,
    not enabled, or owned by no other site. *)
Theorem updateSiteShortcut_accepts_iff :
  forall (st : Storage) (siteId : string) (shortcut : option ShortcutKey.t),
    setFails st = false ->
    ((exists site' st',
        ConfigManager.updateSiteShortcut siteId shortcut st = (inr site', st')) <->
     hasSite siteId (ExtensionConfig.sites (loaded st)) /\
     match shortcut with
     | Some sc =>
         ShortcutKey.enabled sc = Some true ->
         ~ inUse siteId (ExtensionConfig.sites (loaded st)) (canonical sc)
     | None => True
     end).
Proof.
  intros st siteId shortcut Hw. split.
  - intros [site' [st' Hrun]]. split.
    + destruct (ConfigManager.findIndex (ConfigManager.hasId siteId)
                  (ExtensionConfig.sites (loaded st))) as [[i s]|] eqn:Ef.
      * destruct (findIndex_split _ _ _ _ Ef) as [l1 [l2 (Hs & _ & Hid & _)]].
        exists s. split; [rewrite Hs; apply in_or_app; right; now left|].
        now apply hasId_true.
      * revert Hrun. read_sites ConfigManager.updateSiteShortcut. now rewrite Ef.
    + destruct shortcut as [sc|]; [|exact I].
      intros Hon [s (Hin & Hid & Hown)].
      exact (updateSiteShortcut_no_conflict _ _ _ _ _ Hrun Hon s Hin Hid Hown).
  - intros [Hsite Hfree]. now apply updateSiteShortcut_runs.
Qed.

Lemma updateSiteShortcut_accepts_iff_witness :
  let st := mkStorage JsUndefined false false in
  let chord := ShortcutKey.mk "9" ["ctrl"; "shift"] (Some false) in
  (exists site' st',
     ConfigManager.updateSiteShortcut "zread" (Some chord) st = (inr site', st')) <->
  hasSite "zread" (ExtensionConfig.sites (loaded st)) /\
  (ShortcutKey.enabled chord = Some true ->
   ~ inUse "zread" (ExtensionConfig.sites (loaded st)) (canonical chord)).
Proof.
  intros st chord.
  exact (updateSiteShortcut_accepts_iff st "zread" (Some chord) eq_refl).
Defined.

(** What [getSuggestedShortcut] proposes passes [validateShortcut], and
    [updateSiteShortcut] takes it for the same site without a conflict. *)
Theorem suggested_shortcut_is_accepted :
  forall (st : Storage) (siteId : string) (chord : ShortcutKey.t),
    ConfigManager.getSuggestedShortcut siteId st = (inr (Some chord), st) ->
    ConfigManager.validateShortcut chord = true /\
    ~ inUse siteId (ExtensionConfig.sites (loaded st)) (canonical chord) /\
    (hasSite siteId (ExtensionConfig.sites (loaded st)) ->
     setFails st = false ->
     exists site' st',
       ConfigManager.updateSiteShortcut siteId (Some chord) st = (inr site', st')).
Proof.
  intros st siteId chord. read_sites ConfigManager.getSuggestedShortcut. unfold ret.
  change ["1"; "2"; "3"; "4"; "5"; "6"; "7"; "8"; "9"; "0"] with SUGGESTION_KEYS.
  rewrite suggestFrom_find.
  pose proof (find_first
    (fun k => negb (JsString.arrayIncludes (canonical (chordFor k))
                      (ConfigManager.usedShortcuts siteId
                         (ExtensionConfig.sites (loaded st))))) SUGGESTION_KEYS) as Hf.
  destruct (find _ SUGGESTION_KEYS) as [k|]; [|discriminate].
  cbn [option_map]. intros [= <-].
  destruct Hf as [pre [post (E & _ & Hk)]].
  assert (~ inUse siteId (ExtensionConfig.sites (loaded st)) (canonical (chordFor k)))
    as Hfree.
  { intro Hin. apply usedShortcuts_inUse in Hin. rewrite Hin in Hk. discriminate. }
  split; [|split; [exact Hfree|]].
  - assert (In k SUGGESTION_KEYS) as Hin by (rewrite E; apply in_or_app; right; now left).
    simpl in Hin. decompose [or] Hin; subst; try reflexivity; contradiction.
  - intros Hsite Hw. apply updateSiteShortcut_runs; [assumption | assumption|].
    intros _. exact Hfree.
Qed.

Lemma suggested_shortcut_is_accepted_witness :
  let st := mkStorage JsUndefined false false in
  ConfigManager.getSuggestedShortcut "zread" st = (inr (Some (chordFor "4")), st) /\
  ConfigManager.validateShortcut (chordFor "4") = true /\
  ~ inUse "zread" (ExtensionConfig.sites (loaded st)) (canonical (chordFor "4")) /\
  exists site' st',
    ConfigManager.updateSiteShortcut "zread" (Some (chordFor "4")) st = (inr site', st').
Proof.
  intro st. split; [reflexivity|].
  destruct (suggested_shortcut_is_accepted st "zread" (chordFor "4") eq_refl)
    as (Hvalid & Hfree & Hruns).
  split; [exact Hvalid|]. split; [exact Hfree|].
  apply Hruns; [|reflexivity].
  exists (ServiceSite.mk "zread" "ZRead" "sites.descriptions.zread" "ai"
            "https://zread.ai/{REPO_PATH}" "external-link" true 4 true
            (Defaults.ctrlShift "4")).
  split; [simpl; tauto | reflexivity].
Defined.

End ShortcutAccepted.

Section ShortcutReachesSite.

(** After [updateSiteShortcut] has given an enabled chord to a site that is
    itself enabled, in a list with distinct ids, [getShortcutMapping] holds
    that site, as the call returned it, under the canonical string of the
    chord. *)
Theorem assigned_shortcut_maps_to_site :
  forall (st st' : Storage) (siteId : string) (chord : ShortcutKey.t)
         (site' : ServiceSite.t),
    ConfigManager.updateSiteShortcut siteId (Some chord) st = (inr site', st') ->
    getFails st = false ->
    ShortcutKey.enabled chord = Some true ->
    uniqueIds (ExtensionConfig.sites (loaded st)) ->
    ServiceSite.enabled site' = true ->
    canonical chord <> "__proto__" ->
    exists mapping,
      ConfigManager.getShortcutMapping st' = (inr mapping, st') /\
      ConfigManager.recordGet (canonical chord) mapping = Some site'.
Proof.
  intros st st' siteId chord site' Hrun Hr Hon Hu Hen Hproto.
  destruct (updateSiteShortcut_effect _ _ _ _ _ Hrun Hr Hon)
    as [l1 [site [l2 (Hs & Hid & Hsite' & Hs' & _)]]].
  eexists. split; [apply getShortcutMapping_run|].
  rewrite (collectMapping_get _ _ Hproto). cbn [ConfigManager.recordGet].
  set (sorted := ConfigManager.sortByOrder _).
  assert (forall s, In s sorted <->
                    In s (ExtensionConfig.sites (loaded st')) /\
                    ServiceSite.enabled s = true) as Hin.
  { intro s. rewrite <- filter_In. split; apply Permutation_in;
      [apply sortByOrder_perm | apply Permutation_sym, sortByOrder_perm]. }
  assert (ownsChordb (canonical chord) site' = true) as Hown'.
  { apply ownsChordb_spec. exists (sortedChord chord). rewrite Hsite'.
    repeat split; [assumption | apply canonical_sortedChord]. }
  assert (normalizeChord site' = site') as Hnorm.
  { rewrite Hsite'. unfold normalizeChord.
    cbn [ConfigManager.withShortcuts ServiceSite.shortcuts option_map].
    rewrite sortedChord_idempotent. reflexivity. }
  destruct (find (ownsChordb (canonical chord)) (rev sorted)) as [s|] eqn:Ef.
  - f_equal. rewrite <- Hnorm. f_equal.
    apply find_some in Ef as [Hs_in Hs_own]. rewrite <- in_rev in Hs_in.
    apply Hin in Hs_in as [Hs_in _]. rewrite Hs' in Hs_in.
    apply in_app_or in Hs_in as [H|[H|H]]; [| now symmetry |]; exfalso;
      apply in_map_iff in H as [t [<- Ht]];
      apply ownsChordb_spec, normalizeOther_owns in Hs_own;
      (apply (updateSiteShortcut_no_conflict _ _ _ _ _ Hrun Hon t);
       [rewrite Hs; apply in_or_app; auto using in_cons
       | rewrite <- Hid; rewrite Hs in Hu;
         apply (uniqueIds_others l1 l2 site Hu); apply in_or_app; auto
       | assumption]).
  - exfalso. pose proof (find_none _ _ Ef site') as Hn.
    rewrite <- in_rev in Hn. rewrite Hn in Hown'; [discriminate|].
    apply Hin. split; [|assumption]. rewrite Hs'. apply in_or_app. right. now left.
Qed.

Lemma assigned_shortcut_maps_to_site_witness :
  let st := mkStorage JsUndefined false false in
  let chord := ShortcutKey.mk "9" ["shift"; "ctrl"] (Some true) in
  exists site' mapping st',
    ConfigManager.updateSiteShortcut "github_dev" (Some chord) st = (inr site', st') /\
    ServiceSite.id site' = "github_dev" /\
    ConfigManager.getShortcutMapping st' = (inr mapping, st') /\
    ConfigManager.recordGet "ctrl+shift+9" mapping = Some site'.
Proof.
  intros st chord.
  set (site' := ServiceSite.mk "github_dev" "GitHub.dev" "sites.descriptions.github_dev"
                  "source" "https://github.dev/{REPO_PATH}/" "github" true 2 true
                  (Some (ShortcutKey.mk "9" ["ctrl"; "shift"] (Some true)))).
  destruct (ConfigManager.updateSiteShortcut "github_dev" (Some chord) st)
    as [r st'] eqn:Hrun.
  assert (r = inr site') as -> by (vm_compute in Hrun; now injection Hrun as <- _).
  destruct (assigned_shortcut_maps_to_site st st' "github_dev" chord site' Hrun eq_refl
              eq_refl uniqueIds_defaults eq_refl ltac:(discriminate))
    as [mapping [Hmap Hget]].
  exists site', mapping, st'. repeat split; assumption.
Defined.

End ShortcutReachesSite.

(** ** Reordering loses no site *)

Section ReorderKeepsSites.

Lemma uniqueIds_same_id (sites : list ServiceSite.t) (a b : ServiceSite.t) :
  uniqueIds sites -> In a sites -> In b sites ->
  ServiceSite.id b = ServiceSite.id a -> a = b.
Proof.
  intros Hu Ha Hb E.
  destruct (uniqueIds_split _ _ Hu Ha) as [l1 [l2 (Hs & H1 & H2)]].
  assert (ConfigManager.hasId (ServiceSite.id a) b = true) as Ht
    by now apply hasId_true.
  rewrite Hs in Hb. apply in_app_or in Hb as [Hb | [Hb | Hb]].
  - rewrite (H1 b Hb) in Ht. discriminate.
  - exact Hb.
  - rewrite (H2 b Hb) in Ht. discriminate.
Qed.

Lemma siteMapGet_unique (sites : list ServiceSite.t) (site : ServiceSite.t) :
  uniqueIds sites -> In site sites ->
  ConfigManager.siteMapGet sites (ServiceSite.id site) = Some site.
Proof.
  intros Hu Hin.
  destruct (siteMapGet_Some sites (ServiceSite.id site)) as [x (Hg & Hx & Hid)].
  { exists site. auto. }
  rewrite Hg. f_equal. symmetry. now apply (uniqueIds_same_id sites).
Qed.

Lemma reorderListed_erase (sites : list ServiceSite.t) (siteIds : list string) :
  forall start,
    map eraseOrder (ConfigManager.reorderListed sites siteIds start)
    = flat_map (fun id => match ConfigManager.siteMapGet sites id with
                          | Some site => [eraseOrder site]
                          | None => []
                          end) siteIds.
Proof.
  induction siteIds as [|id rest IH]; intro start;
    cbn [ConfigManager.reorderListed flat_map]; [reflexivity|].
  destruct (ConfigManager.siteMapGet sites id); cbn [map app]; now rewrite IH.
Qed.

Lemma mapi_erase (f : ServiceSite.t -> nat -> ServiceSite.t) (l : list ServiceSite.t) :
  (forall site index, eraseOrder (f site index) = eraseOrder site) ->
  forall start, map eraseOrder (ConfigManager.mapi f start l) = map eraseOrder l.
Proof.
  intro Hf. induction l as [|a l IH]; intro start; cbn [ConfigManager.mapi map];
    [reflexivity|].
  now rewrite Hf, IH.
Qed.

Lemma filter_partition_perm {A : Type} (f : A -> bool) (l : list A) :
  Permutation l (filter f l ++ filter (fun x => negb (f x)) l).
Proof.
  induction l as [|a l IH]; cbn [filter]; [constructor|].
  destruct (f a); cbn [negb app].
  - now constructor.
  - now apply Permutation_cons_app.
Qed.

Lemma NoDup_map_filter {A B : Type} (g : A -> B) (f : A -> bool) (l : list A) :
  NoDup (map g l) -> NoDup (map g (filter f l)).
Proof.
  induction l as [|a l IH]; cbn [map filter]; intro H; [constructor|].
  inversion H as [|x xs Hnot Hrest]; subst.
  destruct (f a); cbn [map]; [|now apply IH].
  constructor; [|now apply IH].
  intro Hin. apply Hnot. apply in_map_iff in Hin as [x [E Hx]].
  apply filter_In in Hx as [Hx _]. rewrite <- E. now apply in_map.
Qed.

Lemma flat_map_perm {A B : Type} (f : A -> list B) (l l' : list A) :
  Permutation l l' -> Permutation (flat_map f l) (flat_map f l').
Proof.
  induction 1 as [|x l l' _ IH|x y l|l l' l'' _ IH1 _ IH2]; cbn [flat_map].
  - constructor.
  - now apply Permutation_app_head.
  - rewrite !app_assoc. apply Permutation_app_tail, Permutation_app_comm.
  - now transitivity (flat_map f l').
Qed.

Lemma reorderListed_orders (sites : list ServiceSite.t) (siteIds : list string) :
  (forall id, In id siteIds -> hasSite id sites) ->
  forall start,
    map ServiceSite.order (ConfigManager.reorderListed sites siteIds start)
    = map (fun index => (Z.of_nat index + 1)%Z) (seq start (length siteIds)).
Proof.
  induction siteIds as [|id rest IH]; intros Hall start;
    cbn [ConfigManager.reorderListed length seq map]; [reflexivity|].
  destruct (siteMapGet_Some sites id (Hall id (or_introl eq_refl))) as [s (Hg & _ & _)].
  rewrite Hg. cbn [map]. rewrite IH; [reflexivity|].
  intros i Hi. apply Hall. now right.
Qed.

Lemma mapi_orders (n : nat) (l : list ServiceSite.t) :
  forall start,
    map ServiceSite.order
      (ConfigManager.mapi
         (fun site index =>
            ConfigManager.withOrder site (Z.of_nat n + Z.of_nat index + 1))
         start l)
    = map (fun index => (Z.of_nat index + 1)%Z) (seq (n + start) (length l)).
Proof.
  induction l as [|a l IH]; intro start; cbn [ConfigManager.mapi length seq map];
    [reflexivity|].
  rewrite IH. cbn [ConfigManager.withOrder ServiceSite.order].
  rewrite Nat2Z.inj_add, Nat.add_succ_r. reflexivity.
Qed.

Lemma reorderSites_runs (st : Storage) (siteIds : list string) :
  (forall id, In id siteIds -> hasSite id (ExtensionConfig.sites (loaded st))) ->
  setFails st = false ->
  let sites := ExtensionConfig.sites (loaded st) in
  let listed := ConfigManager.reorderListed sites siteIds 0 in
  let all :=
    listed ++
    ConfigManager.mapi
      (fun site index =>
         ConfigManager.withOrder site (Z.of_nat (length listed) + Z.of_nat index + 1))
      0 (unmentioned siteIds sites) in
  ConfigManager.reorderSites siteIds st = (inr all, savedSites all st).
Proof.
  intros Hall Hw sites listed all.
  read_sites ConfigManager.reorderSites.
  fold sites.
  assert (filter (fun id => negb (JsString.arrayIncludes id (map ServiceSite.id sites)))
                 siteIds = []) as ->.
  { destruct (filter _ siteIds) as [|m ms] eqn:E; [reflexivity|].
    assert (In m (m :: ms)) as Hm by now left.
    rewrite <- E in Hm. apply missingIds_spec in Hm as [Hin Hno].
    exfalso. apply Hno, Hall, Hin. }
  cbn [length Nat.ltb Nat.leb].
  rewrite saveSites_ok by assumption. reflexivity.
Qed.

(** [reorderSites] loses and repeats no site.  When the stored sites have
    distinct ids and the list names known ids, each once, the result holds
    the stored sites, each one once and changed in its order at most; the
    orders are 1, 2, ... up to the number of sites; the ids are distinct
    again; and the result is what is stored. *)
Theorem reorderSites_loses_no_site (st : Storage) (siteIds : list string) :
  storageWorks st ->
  uniqueIds (ExtensionConfig.sites (loaded st)) ->
  NoDup siteIds ->
  (forall id, In id siteIds -> hasSite id (ExtensionConfig.sites (loaded st))) ->
  exists all st',
    ConfigManager.reorderSites siteIds st = (inr all, st') /\
    ExtensionConfig.sites (loaded st') = all /\
    Permutation (map eraseOrder all)
                (map eraseOrder (ExtensionConfig.sites (loaded st))) /\
    map ServiceSite.order all
    = ordersUpTo (length (ExtensionConfig.sites (loaded st))) /\
    uniqueIds all.
Proof.
  intros [Hr Hw] Hu Hnd Hall.
  pose proof (reorderSites_runs st siteIds Hall Hw) as Hrun. cbv zeta in Hrun.
  set (sites := ExtensionConfig.sites (loaded st)) in *.
  set (listed := ConfigManager.reorderListed sites siteIds 0) in *.
  set (rest := ConfigManager.mapi _ 0 (unmentioned siteIds sites)) in *.
  set (mentioned :=
         filter (fun site => JsString.arrayIncludes (ServiceSite.id site) siteIds) sites).
  assert (Permutation siteIds (map ServiceSite.id mentioned)) as Hids.
  { apply NoDup_Permutation; [assumption | now apply NoDup_map_filter|].
    intro id. rewrite in_map_iff. split.
    - intro Hin. destruct (Hall id Hin) as [s [Hs Hid]]. exists s.
      split; [assumption|]. apply filter_In. split; [assumption|].
      apply arrayIncludes_In. now rewrite Hid.
    - intros [s [Hid Hs]]. apply filter_In in Hs as [_ Hs].
      apply arrayIncludes_In in Hs. now rewrite <- Hid. }
  assert (forall l, (forall s, In s l -> In s sites) ->
            flat_map (fun id => match ConfigManager.siteMapGet sites id with
                                | Some site => [eraseOrder site]
                                | None => []
                                end) (map ServiceSite.id l)
            = map eraseOrder l) as Hback.
  { induction l as [|a l IH]; intro Hl; cbn [map flat_map]; [reflexivity|].
    rewrite (siteMapGet_unique sites a Hu (Hl a (or_introl eq_refl))).
    cbn [app]. rewrite IH; [reflexivity|]. intros s Hs. apply Hl. now right. }
  assert (Permutation (map eraseOrder (listed ++ rest)) (map eraseOrder sites)) as Hperm.
  { rewrite map_app. unfold listed, rest.
    rewrite reorderListed_erase, mapi_erase by reflexivity.
    rewrite (Permutation_map eraseOrder (filter_partition_perm
               (fun site => JsString.arrayIncludes (ServiceSite.id site) siteIds) sites)).
    rewrite map_app. apply Permutation_app_tail.
    rewrite (flat_map_perm _ _ _ Hids). fold mentioned.
    rewrite Hback; [reflexivity|].
    intros s Hs. now apply filter_In in Hs as [Hs _]. }
  exists (listed ++ rest), (savedSites (listed ++ rest) st).
  split; [exact Hrun|]. split; [now rewrite loaded_savedSites|].
  split; [exact Hperm|]. split.
  - rewrite map_app. unfold rest, listed.
    rewrite (reorderListed_orders sites siteIds Hall 0), mapi_orders.
    rewrite <- map_app. unfold ordersUpTo. f_equal.
    assert (length (ConfigManager.reorderListed sites siteIds 0) = length siteIds) as ->
      by apply (reorderListed_spec sites siteIds Hall 0).
    rewrite Nat.add_0_r, <- seq_app. f_equal.
    apply Permutation_length in Hperm. rewrite !length_map, length_app in Hperm.
    unfold rest in Hperm.
    rewrite (proj1 (mapi_spec _ (unmentioned siteIds sites) 0)) in Hperm.
    assert (length listed = length siteIds) as Hl
      by apply (reorderListed_spec sites siteIds Hall 0).
    lia.
  - unfold uniqueIds.
    apply (Permutation_map ServiceSite.id) in Hperm. rewrite !map_map in Hperm.
    cbn [eraseOrder ConfigManager.withOrder ServiceSite.id] in Hperm.
    apply (Permutation_NoDup (Permutation_sym Hperm)). exact Hu.
Qed.

Lemma reorderSites_loses_no_site_witness :
  let st := mkStorage JsUndefined false false in
  exists all st',
    ConfigManager.reorderSites ["zread"; "github1s"] st = (inr all, st') /\
    ExtensionConfig.sites (loaded st') = all /\
    Permutation (map eraseOrder all)
                (map eraseOrder (ExtensionConfig.sites (loaded st))) /\
    map ServiceSite.order all
    = ordersUpTo (length (ExtensionConfig.sites (loaded st))) /\
    uniqueIds all.
Proof.
  intro st.
  apply (reorderSites_loses_no_site st ["zread"; "github1s"]).
  - split; reflexivity.
  - exact uniqueIds_defaults.
  - repeat constructor; simpl; intuition discriminate.
  - intros id Hin. simpl in Hin. decompose [or] Hin; subst; try contradiction.
    + eexists. split; [right; right; right; left; reflexivity | reflexivity].
    + eexists. split; [left; reflexivity | reflexivity].
Defined.

End ReorderKeepsSites.

(** ** The repository path of a GitHub page *)

Section RepoPath.

Lemma arrayIncludes_false (x : string) (xs : list string) :
  JsString.arrayIncludes x xs = false <-> ~ In x xs.
Proof.
  rewrite <- (arrayIncludes_In x xs).
  destruct (JsString.arrayIncludes x xs); split; intro H; congruence.
Qed.

Lemma extractGitHubRepoPath_parts (pathname owner repo : string) (rest : list string) :
  JsString.split "/" (ContentScript.stripLeadingSlash pathname) = owner :: repo :: rest ->
  owner <> EmptyString -> repo <> EmptyString ->
  ~ In owner ContentScript.excludedPaths ->
  ContentScript.extractGitHubRepoPath pathname = Some (owner +s+ "/" +s+ repo).
Proof.
  intros Hs Ho Hr Hx. unfold ContentScript.extractGitHubRepoPath. rewrite Hs.
  cbn [length Nat.ltb Nat.leb].
  apply String.eqb_neq in Ho, Hr. rewrite Ho, Hr. cbn [orb].
  apply arrayIncludes_false in Hx. now rewrite Hx.
Qed.

(** [extractGitHubRepoPath] gives a path exactly when the pathname, after
    one leading slash, starts with two segments that are not empty, the
    first of them none of the excluded names; the path is the two segments
    with a slash between them, whatever follows them.  Such a path, taken
    as a pathname again, gives itself. *)
Theorem extractGitHubRepoPath_spec (pathname repoPath : string) :
  (ContentScript.extractGitHubRepoPath pathname = Some repoPath <->
   exists owner repo,
     repoPath = owner +s+ "/" +s+ repo /\
     lacks "/" owner = true /\ lacks "/" repo = true /\
     owner <> EmptyString /\ repo <> EmptyString /\
     ~ In owner ContentScript.excludedPaths /\
     (ContentScript.stripLeadingSlash pathname = repoPath \/
      exists rest,
        ContentScript.stripLeadingSlash pathname = repoPath +s+ "/" +s+ rest)) /\
  (ContentScript.extractGitHubRepoPath pathname = Some repoPath ->
   ContentScript.extractGitHubRepoPath ("/" +s+ repoPath) = Some repoPath /\
   ContentScript.extractGitHubRepoPath repoPath = Some repoPath).
Proof.
  assert (ContentScript.extractGitHubRepoPath pathname = Some repoPath ->
          exists owner repo,
            repoPath = owner +s+ "/" +s+ repo /\
            lacks "/" owner = true /\ lacks "/" repo = true /\
            owner <> EmptyString /\ repo <> EmptyString /\
            ~ In owner ContentScript.excludedPaths /\
            (ContentScript.stripLeadingSlash pathname = repoPath \/
             exists rest,
               ContentScript.stripLeadingSlash pathname = repoPath +s+ "/" +s+ rest))
    as Hfwd.
  { unfold ContentScript.extractGitHubRepoPath.
    pose proof (join_split "/" (ContentScript.stripLeadingSlash pathname)) as Hj.
    pose proof (split_parts_lack "/" (ContentScript.stripLeadingSlash pathname)) as Hl.
    destruct (JsString.split "/" (ContentScript.stripLeadingSlash pathname))
      as [|owner [|repo rest]]; cbn [length Nat.ltb Nat.leb]; try discriminate.
    destruct (String.eqb_spec owner EmptyString) as [|Ho]; [discriminate|].
    destruct (String.eqb_spec repo EmptyString) as [|Hr]; [discriminate|].
    cbn [orb].
    destruct (JsString.arrayIncludes owner ContentScript.excludedPaths) eqn:Hx;
      [discriminate|].
    intros [= <-]. exists owner, repo.
    inversion Hl as [|? ? Hlo Hl']; subst. inversion Hl' as [|? ? Hlr _]; subst.
    apply arrayIncludes_false in Hx.
    repeat (split; [assumption || reflexivity|]).
    unfold JsString.join in Hj. destruct rest as [|h t].
    - left. now rewrite <- Hj.
    - right. exists (String.concat "/" (h :: t)). rewrite <- Hj.
      change (String.concat "/" (owner :: repo :: h :: t))
        with (owner +s+ "/" +s+ repo +s+ "/" +s+ String.concat "/" (h :: t)).
      now rewrite !append_assoc. }
  assert (forall p,
            (exists owner repo,
               repoPath = owner +s+ "/" +s+ repo /\
               lacks "/" owner = true /\ lacks "/" repo = true /\
               owner <> EmptyString /\ repo <> EmptyString /\
               ~ In owner ContentScript.excludedPaths /\
               (ContentScript.stripLeadingSlash p = repoPath \/
                exists rest,
                  ContentScript.stripLeadingSlash p = repoPath +s+ "/" +s+ rest)) ->
            ContentScript.extractGitHubRepoPath p = Some repoPath) as Hbwd.
  { intros p (owner & repo & -> & Hlo & Hlr & Ho & Hr & Hx & Hp).
    destruct Hp as [Hp | [rest Hp]].
    - apply (extractGitHubRepoPath_parts p owner repo []); try assumption.
      rewrite Hp. change (owner +s+ "/" +s+ repo) with (owner +s+ String "/" repo).
      now rewrite (split_append _ _ _ Hlo), (split_lacks _ _ Hlr).
    - apply (extractGitHubRepoPath_parts p owner repo (JsString.split "/" rest));
        try assumption.
      rewrite Hp, !append_assoc.
      change (owner +s+ "/" +s+ repo +s+ "/" +s+ rest)
        with (owner +s+ String "/" (repo +s+ String "/" rest)).
      now rewrite (split_append _ _ _ Hlo), (split_append _ _ _ Hlr). }
  split; [split; [exact Hfwd | apply Hbwd]|].
  intro H. destruct (Hfwd H) as (owner & repo & E & Hlo & Hlr & Ho & Hr & Hx & _).
  split; apply Hbwd; exists owner, repo;
    repeat (split; [assumption|]); left.
  - reflexivity.
  - subst repoPath. destruct owner as [|c owner]; [congruence|].
    cbn [lacks] in Hlo. apply andb_prop in Hlo as [Hc _].
    cbn [String.append ContentScript.stripLeadingSlash].
    destruct c as [[] [] [] [] [] [] [] []]; try reflexivity. discriminate.
Qed.

Lemma extractGitHubRepoPath_spec_witness :
  ContentScript.extractGitHubRepoPath "/millylee/ai-code-view/blob/main/README.md"
  = Some "millylee/ai-code-view" /\
  ContentScript.extractGitHubRepoPath "/millylee/ai-code-view"
  = Some "millylee/ai-code-view" /\
  ContentScript.extractGitHubRepoPath "millylee/ai-code-view"
  = Some "millylee/ai-code-view".
Proof.
  split; [reflexivity|].
  exact (proj2 (extractGitHubRepoPath_spec
                  "/millylee/ai-code-view/blob/main/README.md"
                  "millylee/ai-code-view") eq_refl).
Defined.

End RepoPath.

(** ** The button of the content page *)

Section DefaultSiteClick.

Lemma getSitesByCategory_offered (st : Storage) (site : ServiceSite.t) :
  let enabled :=
    ConfigManager.sortByOrder
      (filter ServiceSite.enabled (ExtensionConfig.sites (loaded st))) in
  In site (filter (fun s => String.eqb (ServiceSite.category s) "source") enabled
           ++ filter (fun s => String.eqb (ServiceSite.category s) "ai") enabled)
  <-> offered st site.
Proof.
  intro enabled.
  assert (In site enabled <->
          In site (ExtensionConfig.sites (loaded st)) /\
          ServiceSite.enabled site = true) as Hin.
  { rewrite <- filter_In. split; apply Permutation_in;
      [apply sortByOrder_perm | apply Permutation_sym, sortByOrder_perm]. }
  unfold offered. rewrite in_app_iff, !filter_In, Hin, !String.eqb_eq. tauto.
Qed.

Lemma sorted_head_least (x : ServiceSite.t) (t : list ServiceSite.t) (s : ServiceSite.t) :
  StronglySorted orderLe (x :: t) -> In s (x :: t) -> orderLe x s.
Proof.
  intros Hs Hin. inversion Hs as [|? ? _ Hall]; subst.
  destruct Hin as [<-|Hin]; [unfold orderLe; lia|].
  rewrite Forall_forall in Hall. now apply Hall.
Qed.

(** The button of the content page, over the sites [getSitesByCategory]
    gave the page.  A click opens nothing exactly when no stored site is
    enabled with the category source or ai; what it opens is always the URL
    of such a site.  With distinct ids, an offered site that the settings
    name as the default is the one opened.  When no offered site is the
    default, the one opened is the source site of the least order, or, when
    no source site is offered, the ai site of the least order.  In each
    case the click does what a click on the entry of that site in the menu
    does. *)
Theorem handleDefaultSiteClick_spec (st st' : Storage) (r : ConfigManager.SitesByCategory)
    (settings : ExtensionSettings.t) (repoPath : string) :
  ConfigManager.getSitesByCategory st = (inr r, st') ->
  let click := ContentApp.handleDefaultSiteClick (Some settings) r repoPath in
  (click = None <-> forall site, ~ offered st site) /\
  (forall nav, click = Some nav ->
     exists site, offered st site /\ nav = opens settings repoPath site) /\
  (forall site,
     uniqueIds (ExtensionConfig.sites (loaded st)) ->
     offered st site ->
     ExtensionSettings.defaultSiteId settings = Some (ServiceSite.id site) ->
     click = Some (opens settings repoPath site)) /\
  ((forall site, offered st site ->
      ExtensionSettings.defaultSiteId settings <> Some (ServiceSite.id site)) ->
   forall site, offered st site ->
     exists first,
       offered st first /\ click = Some (opens settings repoPath first) /\
       (forall s, offered st s -> ServiceSite.category s = ServiceSite.category first ->
                  orderLe first s) /\
       (ServiceSite.category first = "ai" ->
        forall s, offered st s -> ServiceSite.category s = "ai")).
Proof.
  intros Hrun click. rewrite getSitesByCategory_run in Hrun.
  injection Hrun as <- <-.
  pose proof (getSitesByCategory_offered st) as Hoff. cbv zeta in Hoff.
  assert (StronglySorted orderLe
            (filter (fun s => String.eqb (ServiceSite.category s) "source")
               (ConfigManager.sortByOrder
                  (filter ServiceSite.enabled (ExtensionConfig.sites (loaded st))))))
    as Hsrc by apply StronglySorted_filter, sortByOrder_sorted.
  assert (StronglySorted orderLe
            (filter (fun s => String.eqb (ServiceSite.category s) "ai")
               (ConfigManager.sortByOrder
                  (filter ServiceSite.enabled (ExtensionConfig.sites (loaded st))))))
    as Hai by apply StronglySorted_filter, sortByOrder_sorted.
  assert (forall s,
            In s (filter (fun s => String.eqb (ServiceSite.category s) "source")
                    (ConfigManager.sortByOrder
                       (filter ServiceSite.enabled (ExtensionConfig.sites (loaded st)))))
            -> ServiceSite.category s = "source") as Hcs.
  { intros s Hs. apply filter_In in Hs as [_ Hs]. now apply String.eqb_eq. }
  assert (forall s,
            In s (filter (fun s => String.eqb (ServiceSite.category s) "ai")
                    (ConfigManager.sortByOrder
                       (filter ServiceSite.enabled (ExtensionConfig.sites (loaded st)))))
            -> ServiceSite.category s = "ai") as Hca.
  { intros s Hs. apply filter_In in Hs as [_ Hs]. now apply String.eqb_eq. }
  unfold ContentApp.handleDefaultSiteClick in click.
  cbn [ConfigManager.source ConfigManager.ai] in click.
  set (source := filter (fun s => String.eqb (ServiceSite.category s) "source") _) in *.
  set (ai := filter (fun s => String.eqb (ServiceSite.category s) "ai") _) in *.
  assert (forall x, ContentApp.isDefaultSite settings x = true <->
                    ExtensionSettings.defaultSiteId settings = Some (ServiceSite.id x))
    as Hdef.
  { intro x. unfold ContentApp.isDefaultSite.
    destruct (ExtensionSettings.defaultSiteId settings) as [id|].
    - rewrite String.eqb_eq. split; [now intros -> | now intros [= ->]].
    - split; discriminate. }
  split; [|split; [|split]].
  - subst click. split.
    + intros H site Hs. apply Hoff in Hs.
      destruct (find (ContentApp.isDefaultSite settings) (source ++ ai));
        [discriminate|].
      destruct (source ++ ai); [destruct Hs | discriminate].
    + intro H. destruct (source ++ ai) as [|x t] eqn:E; [reflexivity|].
      exfalso. apply (H x), Hoff. now left.
  - subst click. intros nav H.
    destruct (find (ContentApp.isDefaultSite settings) (source ++ ai)) as [x|] eqn:E.
    + apply find_some in E as [Hx _]. injection H as <-.
      exists x. split; [now apply Hoff | reflexivity].
    + destruct (source ++ ai) as [|x t] eqn:E'; [discriminate|].
      injection H as <-. exists x. split; [|reflexivity].
      apply Hoff. now left.
  - subst click. intros site Hu Hs Hd.
    destruct (find (ContentApp.isDefaultSite settings) (source ++ ai)) as [x|] eqn:E.
    + apply find_some in E as [Hx Hxd]. apply Hdef in Hxd.
      assert (site = x) as ->; [|reflexivity].
      apply (uniqueIds_same_id (ExtensionConfig.sites (loaded st)));
        [assumption | apply Hs | apply (proj1 (Hoff x) Hx) | congruence].
    + exfalso. pose proof (find_none _ _ E site (proj2 (Hoff site) Hs)) as Hn.
      apply Hdef in Hd. congruence.
  - subst click. intros Hnone site Hs.
    destruct (find (ContentApp.isDefaultSite settings) (source ++ ai)) as [x|] eqn:E.
    { exfalso. apply find_some in E as [Hx Hxd]. apply Hdef in Hxd.
      exact (Hnone x (proj1 (Hoff x) Hx) Hxd). }
    destruct source as [|x t] eqn:Es.
    + destruct ai as [|y u] eqn:Ea; [now apply Hoff in Hs|].
      cbn [app]. exists y. split; [apply Hoff; now left|]. split; [reflexivity|].
      split.
      * intros s Hso _. apply Hoff in Hso. now apply (sorted_head_least y u).
      * intros _ s Hso. apply Hoff in Hso. now apply Hca.
    + cbn [app]. exists x.
      assert (ServiceSite.category x = "source") as Hx by (apply Hcs; now left).
      split; [apply Hoff; now left|]. split; [reflexivity|]. split.
      * intros s Hso Hc. apply Hoff in Hso. cbn [app] in Hso.
        rewrite app_comm_cons in Hso. apply in_app_or in Hso as [Hso|Hso].
        -- now apply (sorted_head_least x t).
        -- apply Hca in Hso. congruence.
      * intro Hc. rewrite Hx in Hc. discriminate.
Qed.

Lemma handleDefaultSiteClick_spec_witness :
  let st := mkStorage JsUndefined false false in
  exists r,
    ConfigManager.getSitesByCategory st = (inr r, st) /\
    ContentApp.handleDefaultSiteClick (Some Defaults.DEFAULT_SETTINGS) r
      "millylee/ai-code-view"
    = Some (ContentApp.WindowOpen "https://github.dev/millylee/ai-code-view/").
Proof.
  intro st. eexists. split; [apply getSitesByCategory_run|].
  refine (proj1 (proj2 (proj2
            (handleDefaultSiteClick_spec st st _ Defaults.DEFAULT_SETTINGS
               "millylee/ai-code-view" (getSitesByCategory_run st))))
            (ServiceSite.mk "github_dev" "GitHub.dev" "sites.descriptions.github_dev"
               "source" "https://github.dev/{REPO_PATH}/" "github" true 2 true
               (Defaults.ctrlShift "2"))
            uniqueIds_defaults _ eq_refl).
  split; [right; left; reflexivity|]. split; [reflexivity | left; reflexivity].
Defined.

End DefaultSiteClick.

(** ** The list of the options page *)

Section ConfigPageSync.

Lemma toggleSite_at_fails (st : Storage) (l1 l2 : list ServiceSite.t)
    (site : ServiceSite.t) (enabled : bool) :
  ExtensionConfig.sites (loaded st) = l1 ++ site :: l2 ->
  (forall x, In x l1 -> ConfigManager.hasId (ServiceSite.id site) x = false) ->
  setFails st = true ->
  ConfigManager.toggleSite (ServiceSite.id site) enabled st = (inl StorageFailure, st).
Proof.
  intros Hs H1 Hw.
  unfold ConfigManager.toggleSite.
  read_sites ConfigManager.updateSite.
  rewrite Hs.
  rewrite (findIndex_at _ l1 l2 site H1 (hasId_self site)).
  cbn [UpdateSiteInput.name UpdateSiteInput.urlTemplate UpdateSiteInput.category
       UpdateSiteInput.icon ConfigManager.truthyStr orb].
  rewrite saveSites_fails by assumption. reflexivity.
Qed.

Lemma map_toggle_at (l1 l2 : list ServiceSite.t) (site : ServiceSite.t) (enabled : bool) :
  (forall x, In x l1 -> ConfigManager.hasId (ServiceSite.id site) x = false) ->
  (forall x, In x l2 -> ConfigManager.hasId (ServiceSite.id site) x = false) ->
  map (fun s => if String.eqb (ServiceSite.id s) (ServiceSite.id site)
                then withEnabled s enabled else s) (l1 ++ site :: l2)
  = l1 ++ withEnabled site enabled :: l2.
Proof.
  intros H1 H2.
  assert (forall l, (forall x, In x l ->
                       ConfigManager.hasId (ServiceSite.id site) x = false) ->
            map (fun s => if String.eqb (ServiceSite.id s) (ServiceSite.id site)
                          then withEnabled s enabled else s) l = l) as Hsame.
  { induction l as [|a l IH]; intro Hl; cbn [map]; [reflexivity|].
    pose proof (Hl a (or_introl eq_refl)) as Ha. unfold ConfigManager.hasId in Ha.
    rewrite Ha, IH; [reflexivity|]. intros x Hx. apply Hl. now right. }
  rewrite map_app. cbn [map]. rewrite String.eqb_refl, !Hsame by assumption.
  reflexivity.
Qed.

(** The options page keeps its list equal to the stored one.  When the
    list of the page is the stored list and the storage can be read, it is
    the stored list again after [handleDeleteSite], and, with distinct ids,
    after [handleToggleSite], whether the operation went through or threw;
    neither handler throws. *)
Theorem configPage_stays_in_sync (st : Storage) (siteId : string) (enabled : bool) :
  getFails st = false ->
  (uniqueIds (ExtensionConfig.sites (loaded st)) ->
   exists st',
     ConfigPage.handleToggleSite (ExtensionConfig.sites (loaded st)) siteId enabled st
     = (inr (ExtensionConfig.sites (loaded st')), st')) /\
  (exists st',
     ConfigPage.handleDeleteSite (ExtensionConfig.sites (loaded st)) siteId st
     = (inr (ExtensionConfig.sites (loaded st')), st')).
Proof.
  intro Hr. split.
  - intro Hu. unfold ConfigPage.handleToggleSite, tryCatch, bind.
    destruct (ConfigManager.findIndex (ConfigManager.hasId siteId)
                (ExtensionConfig.sites (loaded st))) as [[i site]|] eqn:Ef.
    + destruct (findIndex_split _ _ _ _ Ef) as [l1 [l2 (Hs & _ & Hid & H1)]].
      apply hasId_true in Hid. subst siteId.
      assert (In site (ExtensionConfig.sites (loaded st))) as Hin
        by (rewrite Hs; apply in_elt).
      destruct (uniqueIds_split _ _ Hu Hin) as [k1 [k2 (Hs' & K1 & K2)]].
      destruct (setFails st) eqn:Hw.
      * rewrite (toggleSite_at_fails st k1 k2 site enabled Hs' K1 Hw).
        exists st. reflexivity.
      * rewrite (toggleSite_at st k1 k2 site enabled Hs' K1 Hw).
        exists (savedSites (k1 ++ withEnabled site enabled :: k2) st).
        unfold ret. rewrite loaded_savedSites by assumption.
        cbn [ExtensionConfig.sites]. rewrite Hs'.
        change (fun s : ServiceSite.t =>
                  if String.eqb (ServiceSite.id s) (ServiceSite.id site)
                  then ServiceSite.mk (ServiceSite.id s) (ServiceSite.name s)
                         (ServiceSite.description s) (ServiceSite.category s)
                         (ServiceSite.urlTemplate s) (ServiceSite.icon s)
                         enabled (ServiceSite.order s) (ServiceSite.isBuiltIn s)
                         (ServiceSite.shortcuts s)
                  else s)
          with (fun s : ServiceSite.t =>
                  if String.eqb (ServiceSite.id s) (ServiceSite.id site)
                  then withEnabled s enabled else s).
        now rewrite (map_toggle_at k1 k2 site enabled K1 K2).
    + unfold ConfigManager.toggleSite.
      read_sites ConfigManager.updateSite. rewrite Ef.
      exists st. reflexivity.
  - unfold ConfigPage.handleDeleteSite, tryCatch.
    unfold bind at 1.
    read_sites ConfigManager.deleteSite.
    destruct (find (ConfigManager.hasId siteId) (ExtensionConfig.sites (loaded st)))
      as [site|]; [|exists st; reflexivity].
    destruct (ServiceSite.isBuiltIn site); [exists st; reflexivity|].
    destruct (setFails st) eqn:Hw.
    + rewrite saveSites_fails by assumption. exists st. reflexivity.
    + rewrite saveSites_ok by assumption.
      exists (savedSites
                (filter (fun s => negb (ConfigManager.hasId siteId s))
                   (ExtensionConfig.sites (loaded st))) st).
      unfold ret. rewrite loaded_savedSites by assumption. reflexivity.
Qed.

Lemma configPage_stays_in_sync_witness :
  let st := mkStorage JsUndefined false false in
  (exists st',
     ConfigPage.handleToggleSite (ExtensionConfig.sites (loaded st)) "zread" false st
     = (inr (ExtensionConfig.sites (loaded st')), st')) /\
  (exists st',
     ConfigPage.handleDeleteSite (ExtensionConfig.sites (loaded st)) "zread" st
     = (inr (ExtensionConfig.sites (loaded st')), st')).
Proof.
  intro st.
  destruct (configPage_stays_in_sync st "zread" false eq_refl) as [Htoggle Hdelete].
  split; [exact (Htoggle uniqueIds_defaults) | exact Hdelete].
Defined.

End ConfigPageSync.

(** ** What an edit of one site leaves as it was *)

Section EditsOfOneSite.

Lemma updateSite_inv (st st' : Storage) (id : string) (updates : UpdateSiteInput.t)
    (site' : ServiceSite.t) :
  ConfigManager.updateSite id updates st = (inr site', st') ->
  exists l1 site l2,
    ExtensionConfig.sites (loaded st) = l1 ++ site :: l2 /\
    (forall x, In x l1 -> ConfigManager.hasId id x = false) /\
    ServiceSite.id site = id /\
    site' = ConfigManager.spreadUpdates site updates /\
    st' = savedSites (l1 ++ site' :: l2) st.
Proof.
  read_sites ConfigManager.updateSite.
  destruct (ConfigManager.findIndex _ _) as [[i site]|] eqn:Ef; [|discriminate].
  destruct (findIndex_split _ _ _ _ Ef) as [l1 [l2 (Hs & Hi & Hid & H1)]].
  match goal with |- context [match ?v with Some e => throw e | None => _ end] =>
    destruct v; [discriminate|] end.
  destruct (setFails st) eqn:Hw.
  - rewrite saveSites_fails by assumption. discriminate.
  - rewrite saveSites_ok by assumption. unfold ret. intros [= <- <-].
    exists l1, site, l2. rewrite Hs, <- Hi, setAt_at.
    apply hasId_true in Hid. repeat split; assumption.
Qed.

Lemma customCount_at (l1 l2 : list ServiceSite.t) (a b : ServiceSite.t) :
  ServiceSite.isBuiltIn a = ServiceSite.isBuiltIn b ->
  customCount (l1 ++ a :: l2) = customCount (l1 ++ b :: l2).
Proof.
  intro E. unfold customCount. rewrite !filter_app, !length_app. cbn [filter].
  rewrite E. now destruct (ServiceSite.isBuiltIn b).
Qed.

(** A call of [updateSite] that returns has replaced the first site with
    the id by the patched one and no other site; the patched site has the
    id and the built-in flag it had, so the ids of the list, their
    distinctness and the number of custom sites are what they were, and the
    settings too; [getSiteById] then finds the patched site. *)
Theorem updateSite_replaces_one_site (st st' : Storage) (id : string)
    (updates : UpdateSiteInput.t) (site' : ServiceSite.t) :
  ConfigManager.updateSite id updates st = (inr site', st') ->
  getFails st = false ->
  (exists l1 site l2,
     ExtensionConfig.sites (loaded st) = l1 ++ site :: l2 /\
     ExtensionConfig.sites (loaded st') = l1 ++ site' :: l2 /\
     ~ hasSite id l1 /\
     site' = ConfigManager.spreadUpdates site updates) /\
  ServiceSite.id site' = id /\
  map ServiceSite.id (ExtensionConfig.sites (loaded st'))
  = map ServiceSite.id (ExtensionConfig.sites (loaded st)) /\
  map ServiceSite.isBuiltIn (ExtensionConfig.sites (loaded st'))
  = map ServiceSite.isBuiltIn (ExtensionConfig.sites (loaded st)) /\
  customCount (ExtensionConfig.sites (loaded st'))
  = customCount (ExtensionConfig.sites (loaded st)) /\
  ExtensionConfig.settings (loaded st') = ExtensionConfig.settings (loaded st) /\
  ConfigManager.getSiteById id st' = (inr (Some site'), st').
Proof.
  intros Hrun Hr.
  destruct (updateSite_inv _ _ _ _ _ Hrun) as [l1 [site [l2 (Hs & H1 & Hid & Hsite & ->)]]].
  assert (ExtensionConfig.sites (loaded (savedSites (l1 ++ site' :: l2) st))
          = l1 ++ site' :: l2) as Hs' by now rewrite loaded_savedSites.
  assert (ServiceSite.id site' = id) as Hid' by now subst site'.
  assert (ServiceSite.isBuiltIn site' = ServiceSite.isBuiltIn site) as Hb
    by now subst site'.
  split; [|split; [|split; [|split; [|split; [|split]]]]].
  - exists l1, site, l2. repeat split; try assumption.
    intros [x [Hx Hxid]]. apply hasId_true in Hxid. rewrite (H1 x Hx) in Hxid.
    discriminate.
  - exact Hid'.
  - rewrite Hs', Hs, !map_app. cbn [map]. now rewrite Hid', Hid.
  - rewrite Hs', Hs, !map_app. cbn [map]. now rewrite Hb.
  - rewrite Hs', Hs. now apply customCount_at.
  - now rewrite loaded_savedSites.
  - read_sites ConfigManager.getSiteById. rewrite Hs'. unfold ret.
    rewrite (find_at _ l1 l2 site' H1); [reflexivity | now apply hasId_true].
Qed.

Lemma updateSite_replaces_one_site_witness :
  let st := mkStorage JsUndefined false false in
  let updates :=
    UpdateSiteInput.mk None (Some "reads a repository") None None None None (Some 9%Z)
      None in
  let site' :=
    ServiceSite.mk "zread" "ZRead" "reads a repository" "ai"
      "https://zread.ai/{REPO_PATH}" "external-link" true 9 true
      (Defaults.ctrlShift "4") in
  let st' := snd (ConfigManager.updateSite "zread" updates st) in
  customCount (ExtensionConfig.sites (loaded st'))
  = customCount (ExtensionConfig.sites (loaded st)) /\
  ConfigManager.getSiteById "zread" st' = (inr (Some site'), st').
Proof.
  intros st updates site' st'.
  destruct (updateSite_replaces_one_site st st' "zread" updates site' eq_refl eq_refl)
    as (_ & _ & _ & _ & Hcount & _ & Hget).
  split; assumption.
Defined.

Lemma NoDup_app_sub {A : Type} (x y y' : list A) :
  NoDup (x ++ y) -> NoDup y' -> (forall z, In z y' -> In z y) -> NoDup (x ++ y').
Proof.
  intros Hxy Hy' Hsub. induction x as [|c x IH]; [exact Hy'|].
  cbn [app] in *. inversion Hxy as [|? ? Hc Hrest]; subst.
  constructor; [|now apply IH].
  intro Hin. apply Hc. apply in_app_or in Hin as [Hin|Hin]; apply in_or_app; auto.
Qed.

Lemma NoDup_flat_map_filter {A B : Type} (f : A -> list B) (g : A -> bool) (l : list A) :
  NoDup (flat_map f l) -> NoDup (flat_map f (filter g l)).
Proof.
  induction l as [|a l IH]; cbn [flat_map filter]; intro H; [constructor|].
  destruct (g a); cbn [flat_map].
  - apply (NoDup_app_sub (f a) (flat_map f l)); [assumption | |].
    + apply IH. now apply NoDup_app_remove_l in H.
    + intros z Hz. apply in_flat_map in Hz as [s [Hs Hz]].
      apply in_flat_map. exists s. split; [|assumption].
      now apply filter_In in Hs as [Hs _].
  - apply IH. now apply NoDup_app_remove_l in H.
Qed.

(** A call of [deleteSite] that returns has removed every site with the
    id and no other site: the sites that remain are those of another id, in
    their sequence; fewer custom sites are left than there were; distinct
    ids and distinct enabled shortcuts stay distinct; the settings are what
    they were.  After it [getSiteById] finds nothing for the id and a second
    [deleteSite] throws. *)
Theorem deleteSite_removes_the_id (st st' : Storage) (id : string) :
  ConfigManager.deleteSite id st = (inr tt, st') ->
  getFails st = false ->
  ExtensionConfig.sites (loaded st')
  = filter (fun site => negb (String.eqb (ServiceSite.id site) id))
      (ExtensionConfig.sites (loaded st)) /\
  ~ hasSite id (ExtensionConfig.sites (loaded st')) /\
  customCount (ExtensionConfig.sites (loaded st'))
  < customCount (ExtensionConfig.sites (loaded st)) /\
  (uniqueIds (ExtensionConfig.sites (loaded st)) ->
   uniqueIds (ExtensionConfig.sites (loaded st'))) /\
  (chordsDistinct (ExtensionConfig.sites (loaded st)) ->
   chordsDistinct (ExtensionConfig.sites (loaded st'))) /\
  ExtensionConfig.settings (loaded st') = ExtensionConfig.settings (loaded st) /\
  ConfigManager.getSiteById id st' = (inr None, st') /\
  ConfigManager.deleteSite id st' = (inl SiteDoesNotExist, st').
Proof.
  intros Hrun Hr. revert Hrun.
  read_sites ConfigManager.deleteSite.
  destruct (find (ConfigManager.hasId id) (ExtensionConfig.sites (loaded st)))
    as [site|] eqn:Ef; [|discriminate].
  destruct (ServiceSite.isBuiltIn site) eqn:Hb; [discriminate|].
  destruct (setFails st) eqn:Hw.
  { rewrite saveSites_fails by assumption. discriminate. }
  rewrite saveSites_ok by assumption. intros [= <-].
  set (sites := ExtensionConfig.sites (loaded st)) in *.
  set (rest := filter (fun s => negb (ConfigManager.hasId id s)) sites).
  assert (ExtensionConfig.sites (loaded (savedSites rest st)) = rest) as Hs'
    by now rewrite loaded_savedSites.
  assert (~ hasSite id rest) as Hgone.
  { intros [x [Hx Hxid]]. apply filter_In in Hx as [_ Hx].
    apply hasId_true in Hxid. rewrite Hxid in Hx. discriminate. }
  assert (find (ConfigManager.hasId id) rest = None) as Hfind.
  { destruct (find (ConfigManager.hasId id) rest) as [x|] eqn:E; [|reflexivity].
    exfalso. apply Hgone. apply find_some in E as [Hx Hxid]. exists x.
    split; [assumption | now apply hasId_true]. }
  rewrite Hs'.
  split; [reflexivity|]. split; [exact Hgone|].
  split; [|split; [|split; [|split; [|split]]]].
  - apply find_some in Ef as [Hin Hid].
    destruct (in_split _ _ Hin) as [l1 [l2 Hsplit]].
    unfold rest, customCount. rewrite Hsplit, !filter_app, !length_app.
    cbn [filter]. rewrite Hid, Hb. cbn [negb filter length].
    assert (forall l : list ServiceSite.t,
              length (filter (fun s => negb (ServiceSite.isBuiltIn s))
                        (filter (fun s => negb (ConfigManager.hasId id s)) l))
              <= length (filter (fun s => negb (ServiceSite.isBuiltIn s)) l)) as Hle.
    { induction l as [|a l IH]; cbn [filter]; [lia|].
      destruct (ConfigManager.hasId id a); cbn [negb filter];
        destruct (ServiceSite.isBuiltIn a); cbn [negb length]; lia. }
    pose proof (Hle l1). pose proof (Hle l2). lia.
  - intro Hu. now apply NoDup_map_filter.
  - intro Hd. now apply NoDup_flat_map_filter.
  - now rewrite loaded_savedSites.
  - read_sites ConfigManager.getSiteById. now rewrite Hs', Hfind.
  - read_sites ConfigManager.deleteSite. now rewrite Hs', Hfind.
Qed.

Lemma deleteSite_removes_the_id_witness :
  let mirror :=
    ServiceSite.mk "custom-mirror-1" "Mirror" "" "source" "https://example.com/{REPO_PATH}"
      "code" true 6 false None in
  let st :=
    mkStorage (JsObject (StorageManager.toJs
                 (ExtensionConfig.mk (Defaults.DEFAULT_SITES ++ [mirror])
                    Defaults.DEFAULT_SETTINGS (Some "1.0.0")))) false false in
  let st' := snd (ConfigManager.deleteSite "custom-mirror-1" st) in
  ExtensionConfig.sites (loaded st') = Defaults.DEFAULT_SITES /\
  ConfigManager.getSiteById "custom-mirror-1" st' = (inr None, st') /\
  ConfigManager.deleteSite "custom-mirror-1" st' = (inl SiteDoesNotExist, st').
Proof.
  intros mirror st st'.
  destruct (deleteSite_removes_the_id st st' "custom-mirror-1" eq_refl eq_refl)
    as (Hs & _ & _ & _ & _ & _ & Hget & Hagain).
  split; [rewrite Hs; reflexivity|]. split; assumption.
Defined.

End EditsOfOneSite.

(** ** The modifier boxes of the shortcut editor *)

Section UpdateModifier.

(** [updateModifier] on a chord keeps its key and its [enabled]; after it
    the modifier is among the modifiers exactly when the box was checked,
    every other modifier is there exactly when it was, and modifiers that
    were distinct are distinct.  On a chord that [validateShortcut] accepts,
    checking one of the four modifiers gives a chord it accepts, and
    unchecking one gives a chord it accepts exactly when another modifier is
    left.  Without a chord there is nothing to update. *)
Theorem updateModifier_spec (sc : ShortcutKey.t) (modifier : string) (checked : bool) :
  (exists sc',
     ShortcutEditor.updateModifier (Some sc) modifier checked = Some sc' /\
     ShortcutKey.key sc' = ShortcutKey.key sc /\
     ShortcutKey.enabled sc' = ShortcutKey.enabled sc /\
     (In modifier (ShortcutKey.modifiers sc') <-> checked = true) /\
     (forall m, m <> modifier ->
                (In m (ShortcutKey.modifiers sc') <-> In m (ShortcutKey.modifiers sc))) /\
     (NoDup (ShortcutKey.modifiers sc) -> NoDup (ShortcutKey.modifiers sc')) /\
     (ConfigManager.validateShortcut sc = true ->
      (checked = true -> In modifier Defaults.MODIFIER_KEYS ->
       ConfigManager.validateShortcut sc' = true) /\
      (checked = false ->
       (ConfigManager.validateShortcut sc' = true <->
        exists m, In m (ShortcutKey.modifiers sc) /\ m <> modifier)))) /\
  ShortcutEditor.updateModifier None modifier checked = None.
Proof.
  split; [|reflexivity].
  unfold ShortcutEditor.updateModifier. eexists. split; [reflexivity|].
  cbn [ShortcutKey.key ShortcutKey.enabled ShortcutKey.modifiers].
  split; [reflexivity|]. split; [reflexivity|].
  destruct checked.
  - destruct (JsString.arrayIncludes modifier (ShortcutKey.modifiers sc)) eqn:Ei.
    + apply arrayIncludes_In in Ei.
      split; [tauto|]. split; [tauto|]. split; [tauto|].
      intro Hv. split; [|discriminate]. intros _ _.
      apply validateShortcut_spec. apply validateShortcut_spec in Hv. exact Hv.
    + apply arrayIncludes_false in Ei.
      split; [split; [reflexivity | intros _; apply in_or_app; right; now left]|].
      split.
      { intros m Hm. rewrite in_app_iff. cbn [In]. intuition congruence. }
      split.
      { intro Hn. apply NoDup_insert; rewrite app_nil_r; assumption. }
      intro Hv. split; [|discriminate]. intros _ Hm.
      apply validateShortcut_spec. apply validateShortcut_spec in Hv.
      destruct Hv as (Hne & Hall & Hk).
      cbn [ShortcutKey.key ShortcutKey.modifiers].
      split; [|split; [|exact Hk]].
      * intro E. apply app_eq_nil in E as [_ E]. discriminate.
      * intros m Hin. apply in_app_or in Hin as [Hin|[<-|[]]]; auto.
  - assert (forall m, In m (filter (fun m => negb (String.eqb m modifier))
                              (ShortcutKey.modifiers sc))
                      <-> In m (ShortcutKey.modifiers sc) /\ m <> modifier) as Hf.
    { intro m. rewrite filter_In, negb_true_iff, String.eqb_neq. tauto. }
    split; [split; [intro H; apply Hf in H; tauto | discriminate]|].
    split; [intros m Hm; rewrite Hf; tauto|].
    split; [apply NoDup_filter|].
    intro Hv. split; [discriminate|]. intros _.
    rewrite validateShortcut_spec. apply validateShortcut_spec in Hv.
    destruct Hv as (Hne & Hall & Hk).
    cbn [ShortcutKey.key ShortcutKey.modifiers]. split.
    + intros (Hne' & _ & _).
      destruct (filter _ (ShortcutKey.modifiers sc)) as [|m ms] eqn:E; [congruence|].
      exists m. apply Hf. now left.
    + intros [m Hm]. split; [|split; [|exact Hk]].
      * intro E. apply Hf in Hm. rewrite E in Hm. destruct Hm.
      * intros x Hx. apply Hf in Hx. now apply Hall.
Qed.

Lemma updateModifier_spec_witness :
  let sc := ShortcutKey.mk "7" ["ctrl"] (Some true) in
  ConfigManager.validateShortcut
    (ShortcutKey.mk "7" ["ctrl"; "shift"] (Some true)) = true /\
  ~ ConfigManager.validateShortcut (ShortcutKey.mk "7" [] (Some true)) = true.
Proof.
  intro sc. split.
  - destruct (proj1 (updateModifier_spec sc "shift" true))
      as [sc' (E & _ & _ & _ & _ & _ & Hv)].
    injection E as <-.
    apply (proj1 (Hv eq_refl) eq_refl). simpl. tauto.
  - destruct (proj1 (updateModifier_spec sc "ctrl" false))
      as [sc' (E & _ & _ & _ & _ & _ & Hv)].
    injection E as <-.
    intro H. apply (proj2 (Hv eq_refl) eq_refl) in H as [m [Hin Hne]].
    simpl in Hin. destruct Hin as [<-|[]]. congruence.
Defined.

End UpdateModifier.

(** ** Disabling a site takes it off the menu *)

Section ToggleAndMenu.

Lemma In_sortByOrder_enabled (sites : list ServiceSite.t) (s : ServiceSite.t) :
  In s (ConfigManager.sortByOrder (filter ServiceSite.enabled sites))
  <-> In s sites /\ ServiceSite.enabled s = true.
Proof.
  rewrite <- filter_In. split; apply Permutation_in;
    [apply sortByOrder_perm | apply Permutation_sym, sortByOrder_perm].
Qed.

(** After a call of [toggleSite] that returns, over sites with distinct
    ids: the site returned has the flag asked for, and [getEnabledSites]
    lists it exactly when the flag is true; with the flag false no site of
    that id is listed; a site of another id is listed exactly when it was
    before. *)
Theorem toggleSite_controls_menu (st st' : Storage) (id : string) (enabled : bool)
    (site' : ServiceSite.t) :
  ConfigManager.toggleSite id enabled st = (inr site', st') ->
  getFails st = false ->
  uniqueIds (ExtensionConfig.sites (loaded st)) ->
  exists before after,
    ConfigManager.getEnabledSites st = (inr before, st) /\
    ConfigManager.getEnabledSites st' = (inr after, st') /\
    ServiceSite.id site' = id /\
    ServiceSite.enabled site' = enabled /\
    (In site' after <-> enabled = true) /\
    (enabled = false -> forall s, In s after -> ServiceSite.id s <> id) /\
    (forall s, ServiceSite.id s <> id -> (In s after <-> In s before)).
Proof.
  intros Hrun Hr Hu. unfold ConfigManager.toggleSite in Hrun.
  destruct (updateSite_inv _ _ _ _ _ Hrun) as [l1 [site [l2 (Hs & _ & Hid & Hsite & ->)]]].
  change (ConfigManager.spreadUpdates site
            (UpdateSiteInput.mk None None None None None (Some enabled) None None))
    with (withEnabled site enabled) in Hsite.
  assert (ServiceSite.id site' = id) as Hid' by now subst site'.
  assert (ServiceSite.enabled site' = enabled) as Hen by now subst site'.
  rewrite Hs in Hu. pose proof (uniqueIds_others l1 l2 site Hu) as Hothers.
  rewrite Hid in Hothers.
  exists (ConfigManager.sortByOrder
            (filter ServiceSite.enabled (ExtensionConfig.sites (loaded st)))),
         (ConfigManager.sortByOrder (filter ServiceSite.enabled (l1 ++ site' :: l2))).
  split; [apply getEnabledSites_run|]. split.
  { rewrite getEnabledSites_run, loaded_savedSites by assumption. reflexivity. }
  split; [exact Hid'|]. split; [exact Hen|].
  split; [|split].
  - rewrite In_sortByOrder_enabled, Hen. split; [tauto|].
    intro H. split; [apply in_elt | exact H].
  - intros Hoff s Hin. apply In_sortByOrder_enabled in Hin as [Hin Hs1].
    apply in_app_or in Hin as [Hin|[<-|Hin]].
    + apply Hothers, in_or_app. now left.
    + congruence.
    + apply Hothers, in_or_app. now right.
  - intros s Hne. rewrite !In_sortByOrder_enabled, Hs, !in_app_iff. cbn [In].
    split; intros [[H|[H|H]] He]; subst; try tauto; congruence.
Qed.

Lemma toggleSite_controls_menu_witness :
  let st := mkStorage JsUndefined false false in
  let zread :=
    ServiceSite.mk "zread" "ZRead" "sites.descriptions.zread" "ai"
      "https://zread.ai/{REPO_PATH}" "external-link" false 4 true
      (Defaults.ctrlShift "4") in
  let st' := snd (ConfigManager.toggleSite "zread" false st) in
  exists before after,
    ConfigManager.getEnabledSites st = (inr before, st) /\
    ConfigManager.getEnabledSites st' = (inr after, st') /\
    length before = 5 /\
    (forall s, In s after -> ServiceSite.id s <> "zread").
Proof.
  intros st zread st'.
  destruct (toggleSite_controls_menu st st' "zread" false zread eq_refl eq_refl
              uniqueIds_defaults)
    as [before [after (Hb & Ha & _ & _ & _ & Hoff & _)]].
  exists before, after. split; [exact Hb|]. split; [exact Ha|].
  split; [|exact (Hoff eq_refl)].
  rewrite getEnabledSites_run in Hb. injection Hb as <-. reflexivity.
Defined.

End ToggleAndMenu.

(** ** The id of a new site *)

Section GenerateSiteId.

Lemma dashNonAlnum_units (s : string) :
  allUnits slugUnit (ConfigManager.dashNonAlnum s) = true.
Proof.
  induction s as [|c s IH]; cbn [ConfigManager.dashNonAlnum allUnits]; [reflexivity|].
  rewrite IH, andb_true_r. unfold slugUnit.
  destruct (ConfigManager.isLowerAlnum c) eqn:E; [now rewrite E | reflexivity].
Qed.

Lemma collapseDashes_cons (c d : ascii) (r : string) :
  ConfigManager.collapseDashes (String c (String d r))
  = if Ascii.eqb c "-" && Ascii.eqb d "-"
    then ConfigManager.collapseDashes (String d r)
    else String c (ConfigManager.collapseDashes (String d r)).
Proof. reflexivity. Qed.

Lemma collapseDashes_units (p : ascii -> bool) (s : string) :
  allUnits p s = true -> allUnits p (ConfigManager.collapseDashes s) = true.
Proof.
  induction s as [|c s IH]; [reflexivity|].
  destruct s as [|d r]; [now intros|].
  rewrite collapseDashes_cons. intro H.
  change (allUnits p (String c (String d r)))
    with (p c && allUnits p (String d r)) in H.
  apply andb_prop in H as [Hc Hr].
  destruct (Ascii.eqb c "-" && Ascii.eqb d "-"); [now apply IH|].
  cbn [allUnits]. now rewrite Hc, (IH Hr).
Qed.

Lemma collapseDashes_first (s : string) :
  firstUnit (ConfigManager.collapseDashes s) = firstUnit s.
Proof.
  induction s as [|c s IH]; [reflexivity|].
  destruct s as [|d r]; [reflexivity|].
  rewrite collapseDashes_cons.
  destruct (Ascii.eqb_spec c "-") as [->|Hc]; [|reflexivity].
  destruct (Ascii.eqb_spec d "-") as [->|Hd]; [|reflexivity].
  cbn [andb]. exact IH.
Qed.

Lemma collapseDashes_single (s : string) :
  noDoubleDash (ConfigManager.collapseDashes s) = true.
Proof.
  induction s as [|c s IH]; [reflexivity|].
  destruct s as [|d r]; [cbn; now rewrite andb_false_r|].
  rewrite collapseDashes_cons.
  destruct (Ascii.eqb c "-" && Ascii.eqb d "-") eqn:E; [exact IH|].
  cbn [noDoubleDash]. rewrite collapseDashes_first, IH. cbn [firstUnit].
  now rewrite E.
Qed.

Lemma dropFinalDash_cons (c d : ascii) (r : string) :
  ConfigManager.dropFinalDash (String c (String d r))
  = String c (ConfigManager.dropFinalDash (String d r)).
Proof. reflexivity. Qed.

Lemma dropFinalDash_units (p : ascii -> bool) (s : string) :
  allUnits p s = true -> allUnits p (ConfigManager.dropFinalDash s) = true.
Proof.
  induction s as [|c s IH]; [reflexivity|].
  destruct s as [|d r].
  - cbn [ConfigManager.dropFinalDash]. now destruct (Ascii.eqb c "-").
  - rewrite dropFinalDash_cons. intro H.
    change (allUnits p (String c (String d r)))
      with (p c && allUnits p (String d r)) in H.
    apply andb_prop in H as [Hc Hr]. cbn [allUnits]. now rewrite Hc, (IH Hr).
Qed.

Lemma dropFinalDash_first (s : string) :
  ConfigManager.dropFinalDash s = EmptyString \/
  firstUnit (ConfigManager.dropFinalDash s) = firstUnit s.
Proof.
  destruct s as [|c [|d r]]; [now left | | now right].
  cbn [ConfigManager.dropFinalDash]. destruct (Ascii.eqb c "-"); [now left | now right].
Qed.

Lemma dropFinalDash_single (s : string) :
  noDoubleDash s = true ->
  noDoubleDash (ConfigManager.dropFinalDash s) = true /\
  lastUnit (ConfigManager.dropFinalDash s) <> Some "-"%char.
Proof.
  induction s as [|c s IH]; [split; [reflexivity | discriminate]|].
  destruct s as [|d r].
  - intros _. cbn [ConfigManager.dropFinalDash].
    destruct (Ascii.eqb_spec c "-") as [->|Hc].
    + split; [reflexivity | discriminate].
    + split; [cbn; now rewrite andb_false_r|]. cbn [lastUnit]. congruence.
  - rewrite dropFinalDash_cons. intro H.
    change (noDoubleDash (String c (String d r)))
      with (negb (Ascii.eqb c "-" && Ascii.eqb d "-") && noDoubleDash (String d r)) in H.
    apply andb_prop in H as [Hcd Hr]. destruct (IH Hr) as [IH1 IH2].
    destruct (dropFinalDash_first (String d r)) as [E|E].
    + rewrite E. split; [cbn; now rewrite andb_false_r|].
      cbn [lastUnit]. intros [= ->].
      destruct r as [|e r]; [|discriminate E].
      cbn [ConfigManager.dropFinalDash] in E.
      destruct (Ascii.eqb_spec d "-") as [->|Hd]; [discriminate Hcd | discriminate E].
    + split.
      * cbn [noDoubleDash]. rewrite E, IH1. cbn [firstUnit]. now rewrite Hcd.
      * destruct (ConfigManager.dropFinalDash (String d r)) as [|x y] eqn:Ex;
          [discriminate E | exact IH2].
Qed.

Lemma stripEdgeDashes_cases (s : string) :
  (exists s', s = String "-" s' /\
              ConfigManager.stripEdgeDashes s = ConfigManager.dropFinalDash s') \/
  (firstUnit s <> Some "-"%char /\
   ConfigManager.stripEdgeDashes s = ConfigManager.dropFinalDash s).
Proof.
  destruct s as [|c s]; [right; split; [discriminate | reflexivity]|].
  destruct (Ascii.eqb_spec c "-") as [->|Hc].
  - left. exists s. split; reflexivity.
  - right. split; [cbn; congruence|].
    destruct c as [[] [] [] [] [] [] [] []]; try reflexivity. congruence.
Qed.

(** The id [generateSiteId] makes is [custom-], a slug, a dash and the time
    in decimal.  The slug is made of lower-case letters, digits and dashes;
    no dash of it follows another, and it neither starts nor ends with one.
    No default site has such an id. *)
Theorem generateSiteId_shape (name : string) (now : Z) :
  exists slug,
    ConfigManager.generateSiteId name now
    = "custom-" +s+ slug +s+ "-" +s+ NilZero.string_of_int (Z.to_int now) /\
    allUnits slugUnit slug = true /\
    noDoubleDash slug = true /\
    firstUnit slug <> Some "-"%char /\
    lastUnit slug <> Some "-"%char /\
    ~ hasSite (ConfigManager.generateSiteId name now) Defaults.DEFAULT_SITES.
Proof.
  unfold ConfigManager.generateSiteId.
  set (dashed := ConfigManager.collapseDashes
                   (ConfigManager.dashNonAlnum (JsString.toLowerCase name))).
  assert (allUnits slugUnit dashed = true) as Hu
    by apply collapseDashes_units, dashNonAlnum_units.
  assert (noDoubleDash dashed = true) as Hd by apply collapseDashes_single.
  exists (ConfigManager.stripEdgeDashes dashed). split; [reflexivity|].
  assert (allUnits slugUnit (ConfigManager.stripEdgeDashes dashed) = true /\
          noDoubleDash (ConfigManager.stripEdgeDashes dashed) = true /\
          firstUnit (ConfigManager.stripEdgeDashes dashed) <> Some "-"%char /\
          lastUnit (ConfigManager.stripEdgeDashes dashed) <> Some "-"%char) as H.
  { destruct (stripEdgeDashes_cases dashed) as [[s' [E ->]]|[Hf ->]].
    - rewrite E in Hu, Hd. cbn [allUnits] in Hu. apply andb_prop in Hu as [_ Hu].
      cbn [noDoubleDash] in Hd. apply andb_prop in Hd as [Hh Hd].
      destruct (dropFinalDash_single s' Hd) as [H1 H2].
      split; [now apply dropFinalDash_units|]. split; [exact H1|].
      split; [|exact H2].
      destruct (dropFinalDash_first s') as [E'|E']; rewrite E'; [discriminate|].
      destruct s' as [|d r]; [discriminate|]. cbn [firstUnit] in *.
      intros [= ->]. discriminate Hh.
    - destruct (dropFinalDash_single dashed Hd) as [H1 H2].
      split; [now apply dropFinalDash_units|]. split; [exact H1|].
      split; [|exact H2].
      destruct (dropFinalDash_first dashed) as [E'|E']; rewrite E';
        [discriminate | exact Hf]. }
  destruct H as (H1 & H2 & H3 & H4).
  repeat (split; [assumption|]).
  intros [s [Hin Hid]]. cbn [Defaults.DEFAULT_SITES In] in Hin.
  decompose [or] Hin; try contradiction; subst s; discriminate Hid.
Qed.

Lemma generateSiteId_shape_witness :
  ConfigManager.generateSiteId "  My -- Mirror! " 1700000000000
  = "custom-my-mirror-1700000000000" /\
  exists slug,
    ConfigManager.generateSiteId "  My -- Mirror! " 1700000000000
    = "custom-" +s+ slug +s+ "-" +s+ NilZero.string_of_int (Z.to_int 1700000000000) /\
    allUnits slugUnit slug = true /\
    noDoubleDash slug = true /\
    firstUnit slug <> Some "-"%char /\
    lastUnit slug <> Some "-"%char /\
    ~ hasSite (ConfigManager.generateSiteId "  My -- Mirror! " 1700000000000)
        Defaults.DEFAULT_SITES.
Proof.
  split; [reflexivity|].
  exact (generateSiteId_shape "  My -- Mirror! " 1700000000000).
Defined.

End GenerateSiteId.
